(** * Sweet Spots: the Spot model (models/Spots.js)

    A shallow embedding of the Spot lifecycle code: the rep-invariant check,
    the creation saga with its compensating deletes, review aggregation,
    creator deletion, report-driven removal and the bounding-box query.

    The asynchronous callbacks of the source run strictly one after the
    other, so every operation is a function from the state of the document
    store to the arguments its callback finally receives and the new state.
    Store operations themselves never fail here, except [save] on a new
    Spot (schema validation, unique title index) and [update] of a Spot. *)

From Stdlib Require Import List ZArith QArith Bool String Ascii Lia.
From Stdlib Require HexString DecimalString.
Import ListNotations.

Local Open Scope string_scope.

(** ** JavaScript numbers *)

(** A Number: the finite values as exact rationals (rounding and the sign of
    zero are not represented), the two infinities and NaN. *)
Inductive num : Type :=
| Fin (q : Q)
| PInf
| NInf
| NaN.

Definition Qlt_bool (a b : Q) : bool := negb (Qle_bool b a).

Definition num_neg (a : num) : num :=
  match a with
  | Fin q => Fin (Qopp q)
  | PInf => NInf
  | NInf => PInf
  | NaN => NaN
  end.

Definition num_add (a b : num) : num :=
  match a, b with
  | NaN, _ | _, NaN => NaN
  | Fin x, Fin y => Fin (Qred (x + y))
  | PInf, NInf | NInf, PInf => NaN
  | PInf, _ | _, PInf => PInf
  | NInf, _ | _, NInf => NInf
  end.

Definition num_sub (a b : num) : num := num_add a (num_neg b).

Definition num_sign_inf (positive_sign : bool) : num :=
  if positive_sign then PInf else NInf.

Definition num_div (a b : num) : num :=
  match a, b with
  | NaN, _ | _, NaN => NaN
  | Fin x, Fin y =>
      if Qeq_bool y 0 then
        if Qeq_bool x 0 then NaN else num_sign_inf (Qlt_bool 0 x)
      else Fin (Qred (x / y))
  | Fin _, _ => Fin 0
  | PInf, Fin y => num_sign_inf (Qle_bool 0 y)
  | NInf, Fin y => num_sign_inf (negb (Qle_bool 0 y))
  | _, _ => NaN
  end.

(** [a > b]: false as soon as one side is NaN. *)
Definition num_gt (a b : num) : bool :=
  match a, b with
  | NaN, _ | _, NaN => false
  | Fin x, Fin y => Qlt_bool y x
  | PInf, PInf => false
  | PInf, _ => true
  | _, NInf => match a with NInf => false | _ => true end
  | _, _ => false
  end.

Definition num_of_Z (z : Z) : num := Fin (inject_Z z).
Definition num_of_nat (n : nat) : num := num_of_Z (Z.of_nat n).

(** ** Identifiers *)

(** An ObjectID is held in a stored document as its 96-bit value.  In the
    running program an id is an [ObjectID] object, which has an identity (its
    heap address) besides its value, or a string of hex digits that Mongoose
    casts to that value: [IdString n] is the lower-case hex string of [n],
    the text an ObjectID prints; [IdSpelled upper n] is the same string with
    the letters at the marked positions in upper case, which casts to the
    same value.  Other strings are not represented: those that Mongoose does
    not cast to an ObjectID, and the 12-character strings that it reads as
    twelve raw bytes. *)
Inductive idval : Type :=
| IdString (n : N)
| IdObject (addr : nat) (n : N)
| IdSpelled (upper : list bool) (n : N).

(** The ObjectID an id is cast to in a query or in a stored field. *)
Definition id_value (i : idval) : N :=
  match i with
  | IdString n => n
  | IdObject _ n => n
  | IdSpelled _ n => n
  end.

Definition dquote : string := String (ascii_of_nat 34) EmptyString.

(** A hex letter [a]..[f] in upper case; any other character as it is. *)
Definition upcase (c : ascii) : ascii :=
  let n := nat_of_ascii c in
  if Nat.leb 97 n && Nat.leb n 102 then ascii_of_nat (n - 32) else c.

(** A string with the characters at the marked positions in upper case. *)
Fixpoint recase (upper : list bool) (s : string) : string :=
  match s, upper with
  | String c rest, true :: marks => String (upcase c) (recase marks rest)
  | String c rest, false :: marks => String c (recase marks rest)
  | _, _ => s
  end.

(** The hex text of an id: what a string id holds, character for character,
    and what [toHexString] gives for an ObjectID. *)
Definition id_text (i : idval) : string :=
  match i with
  | IdString n => HexString.of_N n
  | IdObject _ n => HexString.of_N n
  | IdSpelled upper n => recase upper (HexString.of_N n)
  end.

(** [JSON.stringify] of an ObjectID held in a document: [toJSON] gives the
    hex string, which is then quoted. *)
Definition JSON_stringify_oid (n : N) : string :=
  dquote ++ HexString.of_N n ++ dquote.

(** [JSON.stringify] of an id in either form: a string is quoted as it is
    spelled (hex digits need no escape), an ObjectID goes through [toJSON],
    which gives its lower-case hex text. *)
Definition JSON_stringify (i : idval) : string :=
  dquote ++ id_text i ++ dquote.

(** [a === b]: strings compare by content, objects by identity, and a string
    is never strictly equal to an object. *)
Definition strict_eq (a b : idval) : bool :=
  match a, b with
  | IdObject p _, IdObject q _ => Nat.eqb p q
  | IdObject _ _, _ | _, IdObject _ _ => false
  | _, _ => String.eqb (id_text a) (id_text b)
  end.

(** An id in the form the store prints: an ObjectID, or a string spelled as
    the lower-case hex text of its value. *)
Definition canonical (i : idval) : Prop :=
  id_text i = HexString.of_N (id_value i).

(** ** Strings and the two regular expressions *)

Fixpoint string_forall (p : ascii -> bool) (s : string) : bool :=
  match s with
  | EmptyString => true
  | String c rest => p c && string_forall p rest
  end.

Definition in_range (lo hi : nat) (c : ascii) : bool :=
  let n := nat_of_ascii c in Nat.leb lo n && Nat.leb n hi.

(** [\s] on code units below 256: tab, line feed, vertical tab, form feed,
    carriage return, space and no-break space. *)
Definition is_space (c : ascii) : bool :=
  in_range 9 13 c || Nat.eqb (nat_of_ascii c) 32 || Nat.eqb (nat_of_ascii c) 160.

(** The class [[a-zA-z0-9\s\']] of the title pattern; its second range runs
    from [A] (65) to lower-case [z] (122). *)
Definition title_class (c : ascii) : bool :=
  in_range 97 122 c || in_range 65 122 c || in_range 48 57 c
  || is_space c || Nat.eqb (nat_of_ascii c) 39.

(** The class the specification gives for titles, [[A-Za-z0-9\s']], to
    compare [title_class] with. *)
Definition spec_title_class (c : ascii) : bool :=
  in_range 65 90 c || in_range 97 122 c || in_range 48 57 c
  || is_space c || Nat.eqb (nat_of_ascii c) 39.

(** The class [[A-Z0-9]] of the floor pattern. *)
Definition floor_class (c : ascii) : bool :=
  in_range 65 90 c || in_range 48 57 c.

(** [/^[cls]+$/.test(s)]: one or more characters, all of the class. *)
Definition test_plus (cls : ascii -> bool) (s : string) : bool :=
  match s with
  | EmptyString => false
  | String _ _ => string_forall cls s
  end.

(** ** Validator *)

Definition TITLE_LOWER_LIMIT : nat := 3.
Definition TITLE_UPPER_LIMIT : nat := 20.
Definition FLOOR_UPPER_LIMIT : nat := 3.

(** The floor argument: [null], a string, or [undefined] when the caller
    left it out. *)
Inductive floor_arg : Type :=
| FloorNull
| FloorUndefined
| FloorString (s : string).

Definition title_error : string :=
  "The title must be a unique name between 3 and 20 characters!".
Definition floor_error : string :=
  "The floor must be alphanumerics and cannot be greater than 3 characters!".

(** [checkRep(title, floor)]: the message of the first violated rule, or
    [None] for [null].  An [undefined] floor is not [null], so it is tested
    as the string "undefined"; the pattern refuses it, and the conjunct that
    reads [floor.length] is not evaluated. *)
Definition checkRep (title : string) (floor : floor_arg) : option string :=
  let titleLength := String.length title in
  let validTitle :=
    test_plus title_class title
    && Nat.leb TITLE_LOWER_LIMIT titleLength
    && Nat.leb titleLength TITLE_UPPER_LIMIT in
  let validFloor :=
    match floor with
    | FloorNull => true
    | FloorUndefined => test_plus floor_class "undefined"
    | FloorString f =>
        test_plus floor_class f && Nat.leb (String.length f) FLOOR_UPPER_LIMIT
    end in
  if negb validTitle then Some title_error
  else if negb validFloor then Some floor_error
  else None.

(** ** Documents *)

(** A User, as far as this model reads it: the id and the reputation. *)
Record User : Type := mkUser {
  user_id : N;
  user_rep : Z
}.

Record Review : Type := mkReview {
  review_id : N;
  review_creator : N;
  review_description : string;
  review_rating : num
}.

Record Tag : Type := mkTag {
  tag_id : N;
  tag_label : string;
  tag_seeded : bool
}.

Record Location : Type := mkLocation {
  latitude : Q;
  longitude : Q
}.

Record Report : Type := mkReport {
  reporter : N;
  reporterScore : Z
}.

(** A Spot document as the schema declares it. *)
Record Spot : Type := mkSpot {
  spot_id : N;
  spot_title : string;
  spot_creator : N;
  spot_location : Location;
  spot_floor : string;
  spot_tag : N;
  spot_reviews : list N;
  spot_rating : num;
  spot_timestamp : Z;
  spot_reports : list Report
}.

(** A reference to a User inside a Review held in memory: the bare ObjectID,
    or after [populate] the User document ([null] when there is none). *)
Inductive UserRef : Type :=
| UserId (n : N)
| UserPopulated (u : option User).

(** A Review held in memory, as an element of [spot.reviews]: after
    [populate({path: "reviews", populate: {path: "creator"}})] its creator is
    populated; a Review just created carries the bare id. *)
Record PopReview : Type := mkPopReview {
  pr_review : Review;
  pr_creator : UserRef
}.

Inductive TagRef : Type :=
| TagId (n : N)
| TagPopulated (t : option Tag).

(** A Spot read from the store.  [l_creator] is the ObjectID object built
    for this read; [l_reviews] is the populated review array, from which
    reviews without a document are left out. *)
Record LoadedSpot : Type := mkLoaded {
  l_doc : Spot;
  l_creator : idval;
  l_reviews : list PopReview;
  l_tag : TagRef
}.

(** ** Errors *)

Definition BAD_REQUEST : Z := 400.
Definition NOT_FOUND : Z := 404.
Definition FORBIDDEN : Z := 403.
Definition SPOT_NOT_FOUND : string := "No such spot with that id!".
Definition DUPLICATE_KEY : Z := 11000.

(** An error object: models set [msg] and [http_status], the driver sets
    [code].  The [msg] field holds a string, nothing ([undefined]) or, where
    this module wraps an error it does not know, that whole error object. *)
Inductive error : Type :=
| mkError (m : msg_field) (status : option Z) (code : option Z)
with msg_field : Type :=
| MsgUndefined
| MsgText (s : string)
| MsgError (e : error).

Definition msg (e : error) : msg_field :=
  match e with mkError m _ _ => m end.
Definition http_status (e : error) : option Z :=
  match e with mkError _ st _ => st end.
Definition code (e : error) : option Z :=
  match e with mkError _ _ c => c end.

(** [{ msg: m, http_status: st }] and [{ msg: m }]. *)
Definition known (m : msg_field) (st : option Z) : error := mkError m st None.
Definition unknown (m : msg_field) : error := mkError m None None.

(** [if (err.http_status)]: a status that is present and not zero. *)
Definition truthy (status : option Z) : bool :=
  match status with
  | Some z => negb (Z.eqb z 0)
  | None => false
  end.

(** What the callback of an operation receives, or the exception that
    escapes before it is called. *)
Inductive result (A : Type) : Type :=
| Ok (a : A)
| Err (e : error)
| Throw (what : string).
Arguments Ok {A} a.
Arguments Err {A} e.
Arguments Throw {A} what.

(** [errorHandler(err, callback)]. *)
Definition errorHandler (err : error) : error :=
  if truthy (http_status err)
  then known (msg err) (http_status err)
  else unknown (MsgError err).

(** ** The store *)

(** The four collections in insertion order, the next ObjectID the driver
    hands out, the next free heap address, and the clock read by
    [Date.now()]. *)
Record World : Type := mkWorld {
  reviewsC : list Review;
  tagsC : list Tag;
  usersC : list User;
  spotsC : list Spot;
  next_oid : N;
  heap_next : nat;
  now : Z
}.

Definition set_reviewsC (w : World) (l : list Review) : World :=
  mkWorld l (tagsC w) (usersC w) (spotsC w) (next_oid w) (heap_next w) (now w).
Definition set_tagsC (w : World) (l : list Tag) : World :=
  mkWorld (reviewsC w) l (usersC w) (spotsC w) (next_oid w) (heap_next w) (now w).
Definition set_usersC (w : World) (l : list User) : World :=
  mkWorld (reviewsC w) (tagsC w) l (spotsC w) (next_oid w) (heap_next w) (now w).
Definition set_spotsC (w : World) (l : list Spot) : World :=
  mkWorld (reviewsC w) (tagsC w) (usersC w) l (next_oid w) (heap_next w) (now w).
Definition bump_oid (w : World) : World :=
  mkWorld (reviewsC w) (tagsC w) (usersC w) (spotsC w) (N.succ (next_oid w))
          (heap_next w) (now w).
Definition bump_heap (w : World) (k : nat) : World :=
  mkWorld (reviewsC w) (tagsC w) (usersC w) (spotsC w) (next_oid w)
          (heap_next w + k) (now w).

(** An id the caller holds was built before the call: as an object it lives
    below the next free address. *)
Definition allocated (w : World) (i : idval) : Prop :=
  match i with
  | IdObject a _ => (a < heap_next w)%nat
  | _ => True
  end.

Definition find_review (n : N) (w : World) : option Review :=
  find (fun r => N.eqb (review_id r) n) (reviewsC w).
Definition find_user (n : N) (w : World) : option User :=
  find (fun u => N.eqb (user_id u) n) (usersC w).
Definition find_tag (n : N) (w : World) : option Tag :=
  find (fun t => N.eqb (tag_id t) n) (tagsC w).
Definition find_spot (n : N) (w : World) : option Spot :=
  find (fun s => N.eqb (spot_id s) n) (spotsC w).

(** [reviewModel.remove({_id: id}, ...)]. *)
Definition reviewModel_remove (n : N) (w : World) : World :=
  set_reviewsC w (filter (fun r => negb (N.eqb (review_id r) n)) (reviewsC w)).

(** [tagModel.remove({_id: id}, ...)]. *)
Definition tagModel_remove (n : N) (w : World) : World :=
  set_tagsC w (filter (fun t => negb (N.eqb (tag_id t) n)) (tagsC w)).

(** [spotModel.remove({_id: id}, ...)]. *)
Definition spotModel_remove (n : N) (w : World) : World :=
  set_spotsC w (filter (fun s => negb (N.eqb (spot_id s) n)) (spotsC w)).

(** Replace the stored Spot with id [n] by [f] of it. *)
Definition spotModel_modify (n : N) (f : Spot -> Spot) (w : World) : World :=
  set_spotsC w (map (fun s => if N.eqb (spot_id s) n then f s else s) (spotsC w)).

Definition with_reviews_rating (ids : list N) (r : num) (s : Spot) : Spot :=
  mkSpot (spot_id s) (spot_title s) (spot_creator s) (spot_location s)
         (spot_floor s) (spot_tag s) ids r (spot_timestamp s) (spot_reports s).

Definition with_reports (reps : list Report) (s : Spot) : Spot :=
  mkSpot (spot_id s) (spot_title s) (spot_creator s) (spot_location s)
         (spot_floor s) (spot_tag s) (spot_reviews s) (spot_rating s)
         (spot_timestamp s) reps.

(** [spotModel.update({_id: id}, {reviews: ids, rating: r}, ...)]. *)
Definition spotModel_update (n : N) (ids : list N) (r : num) (w : World) : World :=
  spotModel_modify n (with_reviews_rating ids r) w.

(** Populating the review array: every id with a Review document becomes
    that document with its creator filled in; an id without one is dropped. *)
Definition populate_review (w : World) (r : Review) : PopReview :=
  {| pr_review := r; pr_creator := UserPopulated (find_user (review_creator r) w) |}.

Fixpoint populate_reviews (w : World) (ids : list N) : list PopReview :=
  match ids with
  | [] => []
  | n :: rest =>
      match find_review n w with
      | Some r => populate_review w r :: populate_reviews w rest
      | None => populate_reviews w rest
      end
  end.

Definition load_spot (w : World) (addr : nat) (s : Spot) : LoadedSpot :=
  {| l_doc := s;
     l_creator := IdObject addr (spot_creator s);
     l_reviews := populate_reviews w (spot_reviews s);
     l_tag := TagId (spot_tag s) |}.

Definition populate_tag (w : World) (l : LoadedSpot) : LoadedSpot :=
  {| l_doc := l_doc l;
     l_creator := l_creator l;
     l_reviews := l_reviews l;
     l_tag := TagPopulated (find_tag (spot_tag (l_doc l)) w) |}.

(** The documents of a query result, each built at its own address. *)
Fixpoint load_spots (w : World) (addr : nat) (docs : list Spot) : list LoadedSpot :=
  match docs with
  | [] => []
  | s :: rest => load_spot w addr s :: load_spots w (S addr) rest
  end.

(** ** Values and the arithmetic operators *)

(** The values the rating computation and the deletion window handle. *)
Inductive value : Type :=
| VUndefined
| VNull
| VNum (n : num)
| VStr (s : string)
| VDate (ms : Z)
| VDoc (r : PopReview).

(** What the language runtime and Mongoose supply: the text of a document
    ([Document.prototype.toString]), of a Number and of a Date, and the
    reading of a string as a Number. *)
Record Runtime : Type := mkRuntime {
  inspect : PopReview -> string;
  Number_toString : num -> string;
  Date_toString : Z -> string;
  StringToNumber : string -> num
}.

(** The decisions of the other models and of the store that this module
    cannot see: whether [Reviews.addReview] and [Tags.addTag] refuse their
    arguments, whether saving a new Spot fails validation, whether the
    update of a Spot's reviews and rating fails (for the Spot id, the review
    ids and the rating written), and the messages of a missing Tag and a
    missing User. *)
Record Services : Type := mkServices {
  Reviews_refuses : idval -> string -> num -> option error;
  Tags_refuses : string -> option error;
  Spot_invalid : Spot -> option error;
  Update_fails : N -> list N -> num -> option error;
  TAG_NOT_FOUND : string;
  USER_NOT_FOUND : string
}.

(** The data properties of a Date: none.  Its time value sits in an internal
    slot and [Date.prototype] holds methods only. *)
Definition Date_properties (ms : Z) : list (string * value) := [].

(** [o.name] on an object with the given data properties: the value stored
    under the name, [undefined] when there is none. *)
Definition get_property (properties : list (string * value)) (name : string)
    : value :=
  match find (fun p => String.eqb (fst p) name) properties with
  | Some p => snd p
  | None => VUndefined
  end.

(** [86.4 * Math.pow(10, 6)]. *)
Definition MILLISECONDS_IN_A_DAY : num := Fin (Qred ((864 # 10) * (10 ^ 6))).

(** [arr.reduce(f)] without an initial value: the first element is the first
    accumulator and [f] runs from the second element on; an empty array
    raises a TypeError ([None]). *)
Definition reduce_no_init {A : Type} (f : A -> A -> A) (arr : list A) : option A :=
  match arr with
  | [] => None
  | first :: rest => Some (fold_left f rest first)
  end.

Section Operations.

Variable rt : Runtime.
Variable sv : Services.

(** ToPrimitive without a hint (the [+] operator): a document has no
    [valueOf] of its own, so its [toString] answers; a Date prefers its
    string. *)
Definition ToPrimitive (v : value) : value :=
  match v with
  | VDoc r => VStr (inspect rt r)
  | VDate ms => VStr (Date_toString rt ms)
  | _ => v
  end.

(** ToPrimitive with hint Number: a Date answers with its time value. *)
Definition ToPrimitive_number (v : value) : value :=
  match v with
  | VDoc r => VStr (inspect rt r)
  | VDate ms => VNum (num_of_Z ms)
  | _ => v
  end.

Definition ToNumber (v : value) : num :=
  match ToPrimitive_number v with
  | VUndefined => NaN
  | VNull => Fin 0
  | VNum n => n
  | VStr s => StringToNumber rt s
  | VDate _ | VDoc _ => NaN
  end.

Definition ToString (v : value) : string :=
  match ToPrimitive v with
  | VUndefined => "undefined"
  | VNull => "null"
  | VNum n => Number_toString rt n
  | VStr s => s
  | VDate ms => Date_toString rt ms
  | VDoc r => inspect rt r
  end.

Definition is_string (v : value) : bool :=
  match v with VStr _ => true | _ => false end.

(** [a + b]: concatenation as soon as one primitive is a string. *)
Definition js_add (a b : value) : value :=
  let pa := ToPrimitive a in
  let pb := ToPrimitive b in
  if is_string pa || is_string pb
  then VStr (ToString pa ++ ToString pb)
  else VNum (num_add (ToNumber pa) (ToNumber pb)).

(** [a - b] and [a / b]: both sides are read as Numbers. *)
Definition js_sub (a b : value) : num := num_sub (ToNumber a) (ToNumber b).
Definition js_div (a b : value) : num := num_div (ToNumber a) (ToNumber b).

(** *** The other models *)

(** Modelled from the spec: [Reviews.addReview] lives in models/Reviews.js,
    which is not part of the sources; [ReviewService.create(authorId, text,
    rating) -> Review | Error] stores a new Review with a store-assigned id
    unless it refuses. *)
Definition Reviews_addReview (creatorId : idval) (description : string)
    (rating : num) (w : World) : (error + Review) * World :=
  match Reviews_refuses sv creatorId description rating with
  | Some e => (inl e, w)
  | None =>
      let review := mkReview (next_oid w) (id_value creatorId) description rating in
      (inr review, bump_oid (set_reviewsC w (reviewsC w ++ [review])%list))
  end.

(** Modelled from the spec: [Tags.getTagByLabel] lives in models/Tags.js;
    [TagService.getByLabel(label) -> Tag | Error(NotFound)]. *)
Definition Tags_getTagByLabel (label : string) (w : World) : error + Tag :=
  match find (fun t => String.eqb (tag_label t) label) (tagsC w) with
  | Some t => inr t
  | None => inl (known (MsgText (TAG_NOT_FOUND sv)) (Some NOT_FOUND))
  end.

(** Modelled from the spec: [Tags.addTag] lives in models/Tags.js;
    [TagService.create(label, seeded) -> Tag | Error]. *)
Definition Tags_addTag (label : string) (seeded : bool) (w : World)
    : (error + Tag) * World :=
  match Tags_refuses sv label with
  | Some e => (inl e, w)
  | None =>
      let t := mkTag (next_oid w) label seeded in
      (inr t, bump_oid (set_tagsC w (tagsC w ++ [t])%list))
  end.

(** Modelled from the spec: [Users.findUserById] lives in models/Users.js;
    [UserService.getById(id) -> User | Error(NotFound)]. *)
Definition Users_findUserById (userId : idval) (w : World) : error + User :=
  match find_user (id_value userId) w with
  | Some u => inr u
  | None => inl (known (MsgText (USER_NOT_FOUND sv)) (Some NOT_FOUND))
  end.

Definition adjust_rep (n : N) (delta : Z) (u : User) : User :=
  if N.eqb (user_id u) n then mkUser (user_id u) (user_rep u + delta) else u.

(** Modelled from the spec: [Users.updateRep] lives in models/Users.js;
    [UserService.adjustReputation(id, increase) -> void | Error(NotFound)].
    An increase adds one to the reputation ("Adds one to the creator's rep
    for creating a new spot"); a decrease is taken to remove one. *)
Definition Users_updateRep (userId : idval) (increase : bool) (w : World)
    : option error * World :=
  match find_user (id_value userId) w with
  | None => (Some (known (MsgText (USER_NOT_FOUND sv)) (Some NOT_FOUND)), w)
  | Some _ =>
      let delta := if increase then 1%Z else (-1)%Z in
      (None, set_usersC w (map (adjust_rep (id_value userId) delta) (usersC w)))
  end.

(** [spot.save(...)] on a Spot just built: validation first, then the insert,
    which the unique index on [title] refuses with code 11000. *)
Definition spot_save (spot : Spot) (w : World) : option error * World :=
  match Spot_invalid sv spot with
  | Some e => (Some e, w)
  | None =>
      if existsb (fun s => String.eqb (spot_title s) (spot_title spot)) (spotsC w)
      then (Some (mkError MsgUndefined None (Some DUPLICATE_KEY)), w)
      else (None, set_spotsC w (spotsC w ++ [spot])%list)
  end.

(** *** The creation saga *)

(** [removeIfInvalid(reviewId, tagId, createdTag, error, callback)]: the
    Review goes, the Tag goes when this call created it, and the callback
    receives [error] whatever the two removals answered. *)
Definition removeIfInvalid {A : Type} (reviewId tagId : N) (createdTag : bool)
    (error : error) (w : World) : result A * World :=
  let w1 := reviewModel_remove reviewId w in
  if createdTag
  then (Err error, tagModel_remove tagId w1)
  else (Err error, w1).

(** The [floor] of a Spot being built: the schema default unless the
    argument is not [null].  [checkRep] has refused [undefined] before a Spot
    is built, for which the default stays as well. *)
Definition floor_of (floor : floor_arg) : string :=
  match floor with
  | FloorString f => f
  | FloorNull | FloorUndefined => "1"
  end.

(** [checkSpot(title, creatorId, location, floor, tag, review, createdTag,
    callback)].  The new document gets its id and its timestamp when it is
    built, before the reputation update and the save. *)
Definition checkSpot (title : string) (creatorId : idval) (location : Location)
    (floor : floor_arg) (tag : Tag) (review : Review) (createdTag : bool)
    (w : World) : result Spot * World :=
  match checkRep title floor with
  | None =>
      let spot :=
        mkSpot (next_oid w) title (id_value creatorId) location (floor_of floor)
               (tag_id tag) [review_id review] (review_rating review) (now w) [] in
      let w0 := bump_oid w in
      match Users_updateRep creatorId true w0 with
      | (Some err, w1) =>
          if truthy (http_status err)
          then removeIfInvalid (review_id review) (tag_id tag) createdTag
                 (known (msg err) (http_status err)) w1
          else removeIfInvalid (review_id review) (tag_id tag) createdTag
                 (unknown (MsgError err)) w1
      | (None, w1) =>
          match spot_save spot w1 with
          | (Some err, w2) =>
              if match code err with Some c => Z.eqb c DUPLICATE_KEY | None => false end
              then removeIfInvalid (review_id review) (tag_id tag) createdTag
                     (known (MsgText "A Spot already exists with this title.")
                            (Some BAD_REQUEST)) w2
              else removeIfInvalid (review_id review) (tag_id tag) createdTag
                     (unknown (MsgError err)) w2
          | (None, w2) => (Ok spot, w2)
          end
      end
  | Some isInvalid =>
      removeIfInvalid (review_id review) (tag_id tag) createdTag
        (known (MsgText isInvalid) (Some BAD_REQUEST)) w
  end.

(** [addSpot(title, creatorId, location, floor, label, description, rating,
    callback)]. *)
Definition addSpot (title : string) (creatorId : idval) (location : Location)
    (floor : floor_arg) (label description : string) (rating : num)
    (w : World) : result Spot * World :=
  let createdTag := false in
  match Reviews_addReview creatorId description rating w with
  | (inl err, w1) => (Err (errorHandler err), w1)
  | (inr review, w1) =>
      match Tags_getTagByLabel label w1 with
      | inl err =>
          if truthy (http_status err) then
            let createdTag := true in
            match Tags_addTag label false w1 with
            | (inl err, w2) =>
                if truthy (http_status err)
                then (Err (known (msg err) (http_status err)),
                      reviewModel_remove (review_id review) w2)
                else (Err (unknown (msg err)),
                      reviewModel_remove (review_id review) w2)
            | (inr newTag, w2) =>
                checkSpot title creatorId location floor newTag review createdTag w2
            end
          else (Err (unknown (msg err)), reviewModel_remove (review_id review) w1)
      | inr tag =>
          checkSpot title creatorId location floor tag review createdTag w1
      end
  end.

(** *** Reading one Spot *)

(** [getSpotById(spotId, callback)]: the document with its reviews and their
    creators populated. *)
Definition getSpotById (spotId : idval) (w : World) : result LoadedSpot * World :=
  match find_spot (id_value spotId) w with
  | None => (Err (known (MsgText SPOT_NOT_FOUND) (Some NOT_FOUND)), w)
  | Some s => (Ok (load_spot w (heap_next w) s), bump_heap w 1)
  end.

(** *** Adding a review *)

Definition creator_is_null (r : PopReview) : bool :=
  match pr_creator r with
  | UserPopulated None => true
  | _ => false
  end.

(** [JSON.stringify(reviewToCheck.creator._id)]. *)
Definition creator_json (r : PopReview) : string :=
  match pr_creator r with
  | UserPopulated (Some u) => JSON_stringify_oid (user_id u)
  | UserPopulated None => ""
  | UserId n => JSON_stringify_oid n
  end.

(** The callback of the [reduce] at the heart of the rating:
    [total += oldReview.rating]. *)
Definition add_rating (total oldReview : value) : value :=
  match oldReview with
  | VDoc r => js_add total (VNum (review_rating (pr_review r)))
  | _ => js_add total VUndefined
  end.

(** [addReviewToSpot(spotId, creatorId, description, rating, callback)].
    Reading [creator._id] of a review whose creator is [null] raises a
    TypeError inside the filter.  When the final update fails its error is
    passed on and the Review created just before stays in the store. *)
Definition addReviewToSpot (spotId creatorId : idval) (description : string)
    (rating : num) (w : World) : result (Spot * Review) * World :=
  match getSpotById spotId w with
  | (Err err, w1) => (Err (errorHandler err), w1)
  | (Throw t, w1) => (Throw t, w1)
  | (Ok spot, w1) =>
      if existsb creator_is_null (l_reviews spot)
      then (Throw "TypeError: Cannot read property '_id' of null", w1)
      else
        let currentReviews :=
          filter (fun reviewToCheck =>
                    String.eqb (creator_json reviewToCheck) (JSON_stringify creatorId))
                 (l_reviews spot) in
        if negb (Nat.eqb (List.length currentReviews) 0)
           || strict_eq (l_creator spot) creatorId
        then (Err (known (MsgText "You already submitted a review for this spot!")
                         (Some FORBIDDEN)), w1)
        else
          match Reviews_addReview creatorId description rating w1 with
          | (inl err, w2) => (Err (errorHandler err), w2)
          | (inr review, w2) =>
              let reviews :=
                (l_reviews spot
                 ++ [{| pr_review := review;
                        pr_creator := UserId (review_creator review) |}])%list in
              match reduce_no_init add_rating (map VDoc reviews) with
              | None =>
                  (Throw "TypeError: Reduce of empty array with no initial value", w2)
              | Some totalRating =>
                  let rating' :=
                    js_div totalRating (VNum (num_of_nat (List.length reviews))) in
                  let reviewsIds :=
                    map (fun populatedReview => review_id (pr_review populatedReview))
                        reviews in
                  match Update_fails sv (spot_id (l_doc spot)) reviewsIds rating' with
                  | Some err => (Err (unknown (MsgError err)), w2)
                  | None =>
                      (Ok (with_reviews_rating reviewsIds rating' (l_doc spot),
                           review),
                       spotModel_update (spot_id (l_doc spot)) reviewsIds rating' w2)
                  end
              end
          end
  end.

(** *** Deleting and reporting *)

(** [deleteSpot(spotId, userId, callback)].  The age of the Spot is read as
    [Date.now() - spot.timestamp.createdAt], where [spot.timestamp] is a
    Date.  The inner [spot === null] test of the source cannot succeed:
    [getSpotById] answers a missing Spot with an error. *)
Definition deleteSpot (spotId userId : idval) (w : World) : result unit * World :=
  match getSpotById spotId w with
  | (Err err, w1) => (Err (errorHandler err), w1)
  | (Throw t, w1) => (Throw t, w1)
  | (Ok spot, w1) =>
      if negb (String.eqb (JSON_stringify (l_creator spot)) (JSON_stringify userId))
      then (Err (known (MsgText "You do not have access to delete this spot!")
                       (Some FORBIDDEN)), w1)
      else if num_gt (js_sub (VNum (num_of_Z (now w1)))
                             (get_property
                                (Date_properties (spot_timestamp (l_doc spot)))
                                "createdAt"))
                     MILLISECONDS_IN_A_DAY
      then (Err (known (MsgText
                   "It has been more than 24 hours since this spot was created!")
                   (Some FORBIDDEN)), w1)
      else (Ok tt, spotModel_remove (id_value spotId) w1)
  end.

(** [reportSpot(spotId, userId, callback)].  Saving the loaded Spot after
    the push writes its one modified path, [reports]. *)
Definition reportSpot (spotId userId : idval) (w : World) : result unit * World :=
  match getSpotById spotId w with
  | (Err err, w1) => (Err (errorHandler err), w1)
  | (Throw t, w1) => (Throw t, w1)
  | (Ok spot, w1) =>
      match Users_findUserById userId w1 with
      | inl err => (Err (errorHandler err), w1)
      | inr user =>
          let reports := spot_reports (l_doc spot) in
          let reporters := map (fun report => JSON_stringify_oid (reporter report)) reports in
          if existsb (String.eqb (JSON_stringify userId)) reporters
          then (Err (known (MsgText "You have already reported this spot!")
                           (Some FORBIDDEN)), w1)
          else
            let reportScore :=
              fold_left (fun total report => (total + reporterScore report)%Z) reports 0%Z in
            let reportScore := (reportScore + user_rep user)%Z in
            let numReviews := Z.of_nat (List.length (l_reviews spot)) in
            if (reportScore >? 10 + numReviews)%Z
            then (Ok tt, spotModel_remove (id_value spotId) w1)
            else
              (Ok tt,
               spotModel_modify (spot_id (l_doc spot))
                 (with_reports (reports ++ [mkReport (id_value userId) (user_rep user)])%list)
                 w1)
      end
  end.

(** *** The bounding-box query *)

(** [getSpotsByLocation(minLatitude, maxLatitude, minLongitude, maxLongitude,
    callback)]: [$gt] and [$lt] on both coordinates, then the tag and the
    reviews populated. *)
Definition in_box (minLatitude maxLatitude minLongitude maxLongitude : Q)
    (s : Spot) : bool :=
  Qlt_bool minLatitude (latitude (spot_location s))
  && Qlt_bool (latitude (spot_location s)) maxLatitude
  && Qlt_bool minLongitude (longitude (spot_location s))
  && Qlt_bool (longitude (spot_location s)) maxLongitude.

Definition getSpotsByLocation (minLatitude maxLatitude minLongitude maxLongitude : Q)
    (w : World) : result (list LoadedSpot) * World :=
  let found :=
    filter (in_box minLatitude maxLatitude minLongitude maxLongitude) (spotsC w) in
  (Ok (map (populate_tag w) (load_spots w (heap_next w) found)),
   bump_heap w (List.length found)).

End Operations.

(** ** The other queries *)

(** A Spot with its creator, its tag and its reviews populated, as
    [getSpotByReview] builds it; a reference without a document is [null],
    and a review without a document is left out of the array. *)
Record FullSpot : Type := mkFull {
  f_doc : Spot;
  f_creator : option User;
  f_tag : option Tag;
  f_reviews : list PopReview
}.

Definition hydrate_full (w : World) (s : Spot) : FullSpot :=
  {| f_doc := s;
     f_creator := find_user (spot_creator s) w;
     f_tag := find_tag (spot_tag s) w;
     f_reviews := populate_reviews w (spot_reviews s) |}.

(** [find({}).populate("tag").populate({path: "reviews", populate: {path:
    "creator"}})]: every stored Spot, hydrated as in the bounding-box
    query. *)
Definition find_all_hydrated (w : World) : list LoadedSpot :=
  map (populate_tag w) (load_spots w (heap_next w) (spotsC w)).

Definition tag_is_null (l : LoadedSpot) : bool :=
  match l_tag l with
  | TagPopulated None => true
  | _ => false
  end.

(** [s.tag.label === label]; an ObjectID has no [label]. *)
Definition tag_label_is (label : string) (l : LoadedSpot) : bool :=
  match l_tag l with
  | TagPopulated (Some t) => String.eqb (tag_label t) label
  | _ => false
  end.

(** [JSON.stringify(r._id) === JSON.stringify(reviewId)] for some review [r]
    of the Spot: the inner filter is not empty. *)
Definition lists_review (reviewId : idval) (s : FullSpot) : bool :=
  let spotsWithReview :=
    filter (fun r => String.eqb (JSON_stringify_oid (review_id (pr_review r)))
                                (JSON_stringify reviewId))
           (f_reviews s) in
  negb (Nat.eqb (List.length spotsWithReview) 0).

Section Queries.

Variable sv : Services.

(** The message [Reviews.getReviewById] gives for a missing Review. *)
Variable REVIEW_NOT_FOUND : string.

(** Modelled from the spec: [Reviews.getReviewById] lives in
    models/Reviews.js; [ReviewService.getById(id) -> Review |
    Error(NotFound)]. *)
Definition Reviews_getReviewById (reviewId : idval) (w : World) : error + Review :=
  match find_review (id_value reviewId) w with
  | Some r => inr r
  | None => inl (known (MsgText REVIEW_NOT_FOUND) (Some NOT_FOUND))
  end.

(** [getSpotsByUser(userId, callback)]: the documents as stored, nothing
    populated. *)
Definition getSpotsByUser (userId : idval) (w : World) : result (list Spot) * World :=
  match Users_findUserById sv userId w with
  | inl err => (Err (errorHandler err), w)
  | inr user =>
      let spots :=
        filter (fun s => N.eqb (spot_creator s) (id_value userId)) (spotsC w) in
      (Ok spots, bump_heap w (List.length spots))
  end.

(** [getSpotsByTag(label, callback)]: all Spots are read and filtered in
    memory on the label of their populated tag.  Reading [label] of a tag
    that is [null] raises a TypeError inside the filter. *)
Definition getSpotsByTag (label : string) (w : World)
    : result (list LoadedSpot) * World :=
  match Tags_getTagByLabel sv label w with
  | inl err => (Err (errorHandler err), w)
  | inr tagged =>
      let spots := find_all_hydrated w in
      let w1 := bump_heap w (List.length (spotsC w)) in
      if existsb tag_is_null spots
      then (Throw "TypeError: Cannot read property 'label' of null", w1)
      else
        let spotsWithTag := filter (tag_label_is label) spots in
        (Ok spotsWithTag, w1)
  end.

(** [getSpotByReview(reviewId, callback)]: the first Spot, in store order,
    one of whose populated reviews has the id; [undefined] ([None]) when
    there is none. *)
Definition getSpotByReview (reviewId : idval) (w : World)
    : result (option FullSpot) * World :=
  match Reviews_getReviewById reviewId w with
  | inl err => (Err (errorHandler err), w)
  | inr review =>
      let spots := map (hydrate_full w) (spotsC w) in
      let spotGivenReview := filter (lists_review reviewId) spots in
      (Ok (hd_error spotGivenReview), w)
  end.

(** [getSpots(callback)]. *)
Definition getSpots (w : World) : result (list LoadedSpot) * World :=
  (Ok (find_all_hydrated w), bump_heap w (List.length (spotsC w))).

End Queries.

(** ** Notions the properties are stated with *)

(** The sum of the scores of the reports a Spot carries. *)
Definition total_report_score (reports : list Report) : Z :=
  fold_right (fun report acc => (reporterScore report + acc)%Z) 0%Z reports.

(** Every review a Spot lists has its Review document. *)
Definition reviews_stored (w : World) (s : Spot) : Prop :=
  Forall (fun n => find_review n w <> None) (spot_reviews s).

(** The user ids of those who wrote the reviews still stored for a Spot. *)
Definition review_authors (w : World) (s : Spot) : list N :=
  map (fun r => review_creator (pr_review r)) (populate_reviews w (spot_reviews s)).

(** Every author of a stored review of the Spot has a User document. *)
Definition authors_stored (w : World) (s : Spot) : Prop :=
  Forall (fun n => find_user n w <> None) (review_authors w s).

(** Ids come from the driver's counter: every stored Review, Tag and Spot,
    and every review a Spot lists, has an id below the next one handed
    out. *)
Definition ids_below (w : World) : Prop :=
  Forall (fun r => (review_id r < next_oid w)%N) (reviewsC w)
  /\ Forall (fun t => (tag_id t < next_oid w)%N) (tagsC w)
  /\ Forall (fun s => (spot_id s < next_oid w)%N
                      /\ Forall (fun n => (n < next_oid w)%N) (spot_reviews s))
            (spotsC w).

(** No two stored Spots have the same title. *)
Definition titles_unique (w : World) : Prop :=
  NoDup (map spot_title (spotsC w)).

(** No two stored Tags have the same label. *)
Definition labels_unique (w : World) : Prop :=
  NoDup (map tag_label (tagsC w)).

(** Every stored Spot has its Tag document. *)
Definition tags_stored (w : World) : Prop :=
  Forall (fun s => find_tag (spot_tag s) w <> None) (spotsC w).

(** A floor [checkRep] is meant to accept: [null], or one to three upper-case
    letters and digits. *)
Definition floor_ok (floor : floor_arg) : Prop :=
  match floor with
  | FloorNull => True
  | FloorUndefined => False
  | FloorString f =>
      test_plus floor_class f = true /\ (String.length f <= 3)%nat
  end.

(** The ids of the populated reviews of a Spot. *)
Definition populated_ids (w : World) (s : Spot) : list N :=
  map (fun r => review_id (pr_review r)) (populate_reviews w (spot_reviews s)).

(** The error a missing Spot is answered with. *)
Definition spot_not_found : error :=
  known (MsgText SPOT_NOT_FOUND) (Some NOT_FOUND).

(** No Spot carries two reports of the same user. *)
Definition reporters_unique (w : World) : Prop :=
  Forall (fun s => NoDup (map reporter (spot_reports s))) (spotsC w).

(** No two stored Tags have the same id, and no two stored Spots. *)
Definition tag_ids_unique (w : World) : Prop :=
  NoDup (map tag_id (tagsC w)).
Definition spot_ids_unique (w : World) : Prop :=
  NoDup (map spot_id (spotsC w)).

(** Some stored Review has the id. *)
Definition has_review (w : World) (n : N) : bool :=
  existsb (fun r => N.eqb (review_id r) n) (reviewsC w).

(** The same four collections. *)
Definition same_store (w w' : World) : Prop :=
  reviewsC w' = reviewsC w /\ tagsC w' = tagsC w
  /\ usersC w' = usersC w /\ spotsC w' = spotsC w.

(** The error a duplicate title is answered with. *)
Definition title_conflict : error :=
  known (MsgText "A Spot already exists with this title.") (Some BAD_REQUEST).

(** The error a refused review is answered with. *)
Definition already_reviewed : error :=
  known (MsgText "You already submitted a review for this spot!") (Some FORBIDDEN).

(** The mean the specification asks for: the ratings summed in insertion
    order from 0, divided by their count. *)
Definition spec_mean_rating (ratings : list num) : num :=
  num_div (fold_left num_add ratings (Fin 0)) (num_of_nat (List.length ratings)).

(** The ratings of the Review documents behind a list of ids. *)
Definition ratings_of (w : World) (ids : list N) : list num :=
  map (fun r => review_rating (pr_review r)) (populate_reviews w ids).

(** ** A runtime and a store to run the operations on *)

Module Sample.

(** Text of a document: Mongoose prints the document between braces. *)
Definition inspect (r : PopReview) : string :=
  "{ _id: " ++ HexString.of_N (review_id (pr_review r)) ++ " }".

Definition Z_toString (z : Z) : string :=
  DecimalString.NilZero.string_of_int (Z.to_int z).

(** Text of a Number; a fraction is printed as a quotient here. *)
Definition Number_toString (n : num) : string :=
  match n with
  | Fin q =>
      if Pos.eqb (Qden (Qred q)) 1 then Z_toString (Qnum (Qred q))
      else Z_toString (Qnum (Qred q)) ++ "/" ++ Z_toString (Zpos (Qden (Qred q)))
  | PInf => "Infinity"
  | NInf => "-Infinity"
  | NaN => "NaN"
  end.

Definition Date_toString (ms : Z) : string := "Date(" ++ Z_toString ms ++ ")".

Fixpoint digits (s : string) (acc : Z) : option Z :=
  match s with
  | EmptyString => Some acc
  | String c rest =>
      if in_range 48 57 c
      then digits rest (10 * acc + Z.of_nat (nat_of_ascii c) - 48)%Z
      else None
  end.

(** Reading a string as a Number, for unsigned decimal integers; the empty
    string reads as 0 and anything else as NaN. *)
Definition StringToNumber (s : string) : num :=
  match digits s 0%Z with
  | Some z => num_of_Z z
  | None => NaN
  end.

Definition rt : Runtime :=
  mkRuntime inspect Number_toString Date_toString StringToNumber.

(** Services that accept everything. *)
Definition sv : Services :=
  mkServices (fun _ _ _ => None) (fun _ => None) (fun _ => None)
             (fun _ _ _ => None) "No such tag!" "No such user!".

(** Services whose Tag model refuses every label. *)
Definition sv_no_tags : Services :=
  mkServices (fun _ _ _ => None)
             (fun _ => Some (known (MsgText "Invalid label!") (Some BAD_REQUEST)))
             (fun _ => None) (fun _ _ _ => None)
             "No such tag!" "No such user!".

Definition alice : User := mkUser 1 0.
Definition bob : User := mkUser 2 13.
Definition carol : User := mkUser 3 10.

Definition study : Tag := mkTag 10 "Study" true.

Definition review20 : Review := mkReview 20 1 "Quiet" (Fin 5).
Definition review21 : Review := mkReview 21 2 "Busy at noon" (Fin 4).

Definition mit : Location := mkLocation (4236 # 100) (-7109 # 100).

(** Created by alice with review 20; bob added review 21. *)
Definition stata : Spot :=
  mkSpot 30 "Stata Center" 1 mit "1" 10 [20%N; 21%N] (Fin (9 # 2)) 0 [].

(** Created by alice; of its reviews only bob's still has a document. *)
Definition lobby : Spot :=
  mkSpot 31 "Lobby 7" 1 (mkLocation 42 (-71)) "1" 10 [22%N; 21%N] (Fin 4) 0 [].

(** Ten days after the two Spots were created. *)
Definition world : World :=
  mkWorld [review20; review21] [study] [alice; bob; carol] [stata; lobby]
          100 5 864000000.

(** Services whose Review model refuses every review. *)
Definition sv_no_reviews : Services :=
  mkServices (fun _ _ _ => Some (known (MsgText "Invalid rating!") (Some BAD_REQUEST)))
             (fun _ => None) (fun _ => None) (fun _ _ _ => None)
             "No such tag!" "No such user!".

Definition REVIEW_NOT_FOUND : string := "No such review!".

(** Review 23 was written by user 7, who has no User document. *)
Definition review23 : Review := mkReview 23 7 "Gone" (Fin 2).

Definition killian : Spot :=
  mkSpot 32 "Killian Court" 2 (mkLocation 42 (-71)) "1" 10 [23%N] (Fin 2) 0 [].

(** The sample store with that review and a Spot that lists it. *)
Definition world_orphan : World :=
  mkWorld [review20; review21; review23] [study] [alice; bob; carol]
          [stata; lobby; killian] 100 5 864000000.

(** A Spot whose Tag 11 has no document, and the sample store with it. *)
Definition annex : Spot :=
  mkSpot 33 "Annex" 2 (mkLocation 42 (-71)) "1" 11 [21%N] (Fin 4) 0 [].

Definition world_untagged : World :=
  mkWorld [review20; review21] [study] [alice; bob; carol]
          [stata; annex] 100 5 864000000.

(** Services whose store refuses every update of a Spot. *)
Definition sv_no_update : Services :=
  mkServices (fun _ _ _ => None) (fun _ => None) (fun _ => None)
             (fun _ _ _ => Some (mkError (MsgText "CastError") None None))
             "No such tag!" "No such user!".

(** User 171, whose id reads ab in hex, the Spot 34 that user created with
    its review 24, and the Spot 35 of user 1 that user 171 has reported. *)
Definition dana : User := mkUser 171 5.
Definition review24 : Review := mkReview 24 171 "Airy" (Fin 4).
Definition dome : Spot :=
  mkSpot 34 "Dome" 171 (mkLocation 42 (-71)) "1" 10 [24%N] (Fin 4) 0 [].
Definition review25 : Review := mkReview 25 1 "Open" (Fin 5).
Definition plaza : Spot :=
  mkSpot 35 "Plaza" 1 (mkLocation 42 (-71)) "1" 10 [25%N] (Fin 5) 0
         [mkReport 171 5].

Definition world_hex : World :=
  mkWorld [review20; review21; review24; review25] [study]
          [alice; bob; carol; dana] [stata; dome; plaza] 100 5 864000000.

(** A store with Users and a Tag and nothing else. *)
Definition world_users : World :=
  mkWorld [] [study] [alice; bob; carol; dana] [] 100 5 864000000.

(** A store whose review 171, of user 1, is listed by Spot 36. *)
Definition review171 : Review := mkReview 171 1 "Calm" (Fin 3).
Definition court : Spot :=
  mkSpot 36 "Court" 1 (mkLocation 42 (-71)) "1" 10 [171%N] (Fin 3) 0 [].
Definition world_reviews : World :=
  mkWorld [review171] [study] [alice; bob; carol] [court] 200 5 864000000.

(** The id of user 171 as a string with its two letters in upper case. *)
Definition DANA : idval := IdSpelled [false; false; true; true] 171.

End Sample.

(** * Properties *)

(** ** Numbers and strings *)

Lemma Qlt_bool_iff (a b : Q) : Qlt_bool a b = true <-> (a < b)%Q.
Proof.
  unfold Qlt_bool. rewrite negb_true_iff. split.
  - intros H. apply Qnot_le_lt. intros Hle.
    apply Qle_bool_iff in Hle. congruence.
  - intros H. destruct (Qle_bool b a) eqn:E; [|reflexivity].
    apply Qle_bool_iff in E. exfalso. exact (Qlt_not_le _ _ H E).
Qed.

Lemma num_gt_NaN_l (b : num) : num_gt NaN b = false.
Proof. destruct b; reflexivity. Qed.

Lemma num_div_NaN_l (b : num) : num_div NaN b = NaN.
Proof. destruct b; reflexivity. Qed.

Lemma num_add_NaN_r (a : num) : num_add a NaN = NaN.
Proof. destruct a; reflexivity. Qed.

Lemma list_ascii_of_append (a b : string) :
  list_ascii_of_string (a ++ b)
  = (list_ascii_of_string a ++ list_ascii_of_string b)%list.
Proof.
  induction a as [|c a IH]; simpl; [reflexivity|]. now rewrite IH.
Qed.

Lemma list_ascii_of_string_inj (a b : string) :
  list_ascii_of_string a = list_ascii_of_string b -> a = b.
Proof.
  intros H. rewrite <- (string_of_list_ascii_of_string a).
  rewrite <- (string_of_list_ascii_of_string b). now rewrite H.
Qed.

Lemma append_inv_tail (a b d : string) : a ++ d = b ++ d -> a = b.
Proof.
  intros H. apply list_ascii_of_string_inj.
  apply (f_equal list_ascii_of_string) in H.
  rewrite !list_ascii_of_append in H.
  exact (app_inv_tail _ _ _ H).
Qed.

(** Two ids have the same JSON text exactly when they have the same value. *)
Lemma JSON_stringify_oid_inj (a b : N) :
  JSON_stringify_oid a = JSON_stringify_oid b <-> a = b.
Proof.
  split; [|now intros ->].
  unfold JSON_stringify_oid, dquote. simpl. intros H.
  injection H as H'. apply append_inv_tail in H'.
  rewrite <- (HexString.to_N_of_N a), <- (HexString.to_N_of_N b).
  now rewrite H'.
Qed.

Lemma JSON_eqb_oid (a b : N) :
  String.eqb (JSON_stringify_oid a) (JSON_stringify_oid b) = N.eqb a b.
Proof.
  destruct (N.eqb_spec a b) as [->|Hne].
  - apply String.eqb_refl.
  - apply String.eqb_neq. intros H. now apply JSON_stringify_oid_inj in H.
Qed.

(** Upper case does not change the digit a character stands for. *)
Lemma ascii_to_digit_upcase (c : ascii) :
  HexString.ascii_to_digit (upcase c) = HexString.ascii_to_digit c.
Proof.
  destruct c as [b0 b1 b2 b3 b4 b5 b6 b7].
  destruct b0, b1, b2, b3, b4, b5, b6, b7; reflexivity.
Qed.

Lemma Raw_to_N_recase (upper : list bool) (s : string) (acc : N) :
  HexString.Raw.to_N (recase upper s) acc = HexString.Raw.to_N s acc.
Proof.
  revert upper acc. induction s as [|c s IH]; intros upper acc.
  - now destruct upper as [|[] upper].
  - destruct upper as [|[] upper]; cbn [recase HexString.Raw.to_N];
      rewrite ?ascii_to_digit_upcase; [reflexivity| |]; apply IH.
Qed.

(** Every spelling of an id reads back as the id's value. *)
Lemma to_N_recase (upper : list bool) (n : N) :
  HexString.to_N (recase upper (HexString.of_N n)) = n.
Proof.
  rewrite <- (HexString.to_N_of_N n) at 2.
  assert (Hshape : exists rest,
             HexString.of_N n = String "0" (String "x" rest)).
  { destruct n as [|q]; [now exists "0"|].
    now exists (HexString.Raw.of_pos q ""). }
  destruct Hshape as (rest & ->).
  destruct upper as [|m0 [|m1 upper]];
    try destruct m0; try destruct m1; cbn [recase];
    change (upcase "0") with "0"%char; change (upcase "x") with "x"%char;
    cbn [HexString.to_N]; try reflexivity;
    destruct (ascii_dec "0" "0"); try reflexivity;
    destruct (ascii_dec "x" "x"); try reflexivity;
    apply Raw_to_N_recase.
Qed.

Lemma id_text_value (i : idval) : HexString.to_N (id_text i) = id_value i.
Proof.
  destruct i as [n|a n|upper n]; cbn [id_text id_value];
    [apply HexString.to_N_of_N | apply HexString.to_N_of_N | apply to_N_recase].
Qed.

Lemma JSON_stringify_text (i : idval) (c : N) :
  JSON_stringify i = JSON_stringify_oid c <-> id_text i = HexString.of_N c.
Proof.
  unfold JSON_stringify, JSON_stringify_oid, dquote. split.
  - simpl. intros H. injection H as H'. now apply append_inv_tail in H'.
  - now intros ->.
Qed.

(** An id whose JSON text is that of a stored ObjectID has its value. *)
Lemma JSON_stringify_value (i : idval) (c : N) :
  JSON_stringify i = JSON_stringify_oid c -> id_value i = c.
Proof.
  intros H. apply JSON_stringify_text in H.
  rewrite <- id_text_value, H. apply HexString.to_N_of_N.
Qed.

Lemma canonical_JSON (i : idval) :
  canonical i -> JSON_stringify i = JSON_stringify_oid (id_value i).
Proof. intros H. now apply JSON_stringify_text. Qed.

Lemma canonical_IdString (n : N) : canonical (IdString n).
Proof. reflexivity. Qed.

Lemma canonical_IdObject (a : nat) (n : N) : canonical (IdObject a n).
Proof. reflexivity. Qed.

(** For an id in the spelling an ObjectID prints, the comparison of JSON
    texts is the comparison of values. *)
Lemma JSON_eqb_canonical (i : idval) (c : N) :
  canonical i ->
  String.eqb (JSON_stringify_oid c) (JSON_stringify i) = N.eqb c (id_value i).
Proof.
  intros H. rewrite (canonical_JSON i H). apply JSON_eqb_oid.
Qed.

(** In any other spelling the JSON text is that of no stored ObjectID. *)
Lemma JSON_eqb_spelled (i : idval) (c : N) :
  ~ canonical i ->
  String.eqb (JSON_stringify_oid c) (JSON_stringify i) = false.
Proof.
  intros H. apply String.eqb_neq. intros Heq. symmetry in Heq.
  apply H. unfold canonical.
  rewrite (JSON_stringify_value i c Heq). now apply JSON_stringify_text.
Qed.

(** Whatever the spelling, equal JSON texts need equal values. *)
Lemma JSON_eqb_value (i : idval) (c : N) :
  String.eqb (JSON_stringify_oid c) (JSON_stringify i) = true ->
  id_value i = c.
Proof.
  intros H. apply String.eqb_eq in H. symmetry in H.
  now apply JSON_stringify_value.
Qed.

(** ** The validator *)

(** The title pattern admits what the specified class admits and, besides,
    the six characters between [Z] and [a]. *)
Lemma title_class_wider (c : ascii) :
  title_class c = spec_title_class c || in_range 91 96 c.
Proof.
  destruct c as [[] [] [] [] [] [] [] []]; reflexivity.
Qed.

Lemma checkRep_title_rule (title : string) (floor : floor_arg) :
  checkRep title floor = Some title_error <->
  ~ (test_plus title_class title = true
     /\ (3 <= String.length title <= 20)%nat).
Proof.
  unfold checkRep, TITLE_LOWER_LIMIT, TITLE_UPPER_LIMIT.
  destruct (test_plus title_class title) eqn:Et;
    destruct (Nat.leb_spec 3 (String.length title)) as [E1|E1];
    destruct (Nat.leb_spec (String.length title) 20) as [E2|E2];
    cbn [andb negb];
    try (split; [intros _ [Ht Hl]; try discriminate Ht; lia|reflexivity]).
  split; [|intros Hn; exfalso; apply Hn; split; [reflexivity|lia]].
  destruct floor as [| |f]; cbn [negb]; try discriminate.
  destruct (test_plus floor_class f && _)%bool; cbn [negb];
    unfold floor_error, title_error; discriminate.
Qed.

Lemma checkRep_floor_rule (title : string) (floor : floor_arg) :
  checkRep title floor = Some floor_error <->
  (test_plus title_class title = true
   /\ (3 <= String.length title <= 20)%nat)
  /\ match floor with
     | FloorNull => False
     | FloorUndefined => True
     | FloorString f =>
         ~ (test_plus floor_class f = true /\ (String.length f <= 3)%nat)
     end.
Proof.
  unfold checkRep, TITLE_LOWER_LIMIT, TITLE_UPPER_LIMIT, FLOOR_UPPER_LIMIT.
  destruct (test_plus title_class title) eqn:Et;
    destruct (Nat.leb_spec 3 (String.length title)) as [E1|E1];
    destruct (Nat.leb_spec (String.length title) 20) as [E2|E2];
    cbn [andb negb];
    try (split; [discriminate|intros [[Ht Hl] _]; try discriminate Ht; lia]).
  destruct floor as [| |f].
  - cbn [negb]. split; [discriminate|intros [_ []]].
  - change (test_plus floor_class "undefined") with false. cbn [negb].
    split; [intros _; split; [split; [reflexivity|lia]|exact I]|reflexivity].
  - destruct (test_plus floor_class f) eqn:Ef;
      destruct (Nat.leb_spec (String.length f) 3) as [E3|E3];
      cbn [andb negb].
    + split; [discriminate
             |intros [_ Hn]; exfalso; apply Hn; split; [reflexivity|lia]].
    + split; [intros _; split; [split; [reflexivity|lia]|intros [_ Hl]; lia]
             |reflexivity].
    + split; [intros _; split; [split; [reflexivity|lia]
                               |intros [Hf _]; discriminate Hf]
             |reflexivity].
    + split; [intros _; split; [split; [reflexivity|lia]
                               |intros [Hf _]; discriminate Hf]
             |reflexivity].
Qed.

(** C7: [checkRep] is claimed to refuse every title with a character outside
    [[A-Za-z0-9\s']].  The title "ab_" has the underscore, which the
    specified class excludes and the pattern [[a-zA-z0-9\s\']] includes:
    [checkRep] returns [null] for it. *)
Theorem checkRep_accepts_underscore :
  string_forall spec_title_class "ab_" = false
  /\ checkRep "ab_" FloorNull = None.
Proof. split; reflexivity. Qed.

(** ** The bounding-box query *)

Lemma load_spots_docs (w : World) (docs : list Spot) :
  forall addr,
    map l_doc (map (populate_tag w) (load_spots w addr docs)) = docs.
Proof.
  induction docs as [|s docs IH]; intros addr; simpl; [reflexivity|].
  now rewrite IH.
Qed.

Lemma in_box_iff (a b c d : Q) (s : Spot) :
  in_box a b c d s = true <->
  (a < latitude (spot_location s))%Q /\ (latitude (spot_location s) < b)%Q
  /\ (c < longitude (spot_location s))%Q /\ (longitude (spot_location s) < d)%Q.
Proof.
  unfold in_box. rewrite !andb_true_iff, !Qlt_bool_iff. tauto.
Qed.

(** C9: [getSpotsByLocation] answers with the stored Spots, in store order,
    whose latitude and longitude lie strictly between the bounds; a Spot
    with a coordinate equal to one of its bounds is not in the answer. *)
Theorem getSpotsByLocation_open_box
    (minLatitude maxLatitude minLongitude maxLongitude : Q) (w : World) :
  exists found w',
    getSpotsByLocation minLatitude maxLatitude minLongitude maxLongitude w
    = (Ok found, w')
    /\ (forall s,
          In s (map l_doc found) <->
          In s (spotsC w)
          /\ (minLatitude < latitude (spot_location s))%Q
          /\ (latitude (spot_location s) < maxLatitude)%Q
          /\ (minLongitude < longitude (spot_location s))%Q
          /\ (longitude (spot_location s) < maxLongitude)%Q)
    /\ (forall s,
          In s (map l_doc found) ->
          ~ (latitude (spot_location s) == minLatitude)%Q
          /\ ~ (latitude (spot_location s) == maxLatitude)%Q
          /\ ~ (longitude (spot_location s) == minLongitude)%Q
          /\ ~ (longitude (spot_location s) == maxLongitude)%Q)
    /\ spotsC w' = spotsC w.
Proof.
  unfold getSpotsByLocation. eexists. eexists. split; [reflexivity|].
  rewrite load_spots_docs.
  assert (Hin : forall s,
             In s (filter (in_box minLatitude maxLatitude minLongitude maxLongitude)
                          (spotsC w)) <->
             In s (spotsC w)
             /\ (minLatitude < latitude (spot_location s))%Q
             /\ (latitude (spot_location s) < maxLatitude)%Q
             /\ (minLongitude < longitude (spot_location s))%Q
             /\ (longitude (spot_location s) < maxLongitude)%Q).
  { intros s. rewrite filter_In, in_box_iff. tauto. }
  split; [exact Hin|]. split; [|reflexivity].
  intros s Hs. apply Hin in Hs. destruct Hs as (_ & H1 & H2 & H3 & H4).
  repeat split; intros E; rewrite E in *; eapply Qlt_irrefl; eassumption.
Qed.

(** ** The store *)

Section Collections.

Context {A : Type}.

Lemma find_filter_out (p q : A -> bool) (l : list A) :
  (forall x, q x = true -> p x = true) ->
  find q (filter (fun x => negb (p x)) l) = None.
Proof.
  intros Hpq. induction l as [|x l IH]; simpl; [reflexivity|].
  destruct (p x) eqn:Ep; simpl; [exact IH|].
  destruct (q x) eqn:Eq; [|exact IH].
  apply Hpq in Eq. congruence.
Qed.

Lemma find_filter_keep (p q : A -> bool) (l : list A) :
  (forall x, q x = true -> p x = false) ->
  find q (filter (fun x => negb (p x)) l) = find q l.
Proof.
  intros Hpq. induction l as [|x l IH]; simpl; [reflexivity|].
  destruct (q x) eqn:Eq.
  - rewrite (Hpq _ Eq). simpl. now rewrite Eq.
  - destruct (p x); simpl; [exact IH|]. now rewrite Eq.
Qed.

Lemma find_map_key (key : A -> bool) (f : A -> A) (l : list A) :
  (forall x, key (f x) = key x) ->
  find key (map f l) = option_map f (find key l).
Proof.
  intros Hk. induction l as [|x l IH]; simpl; [reflexivity|].
  rewrite Hk. destruct (key x); [reflexivity|exact IH].
Qed.

End Collections.

Lemma find_spot_removed (n : N) (w : World) :
  find_spot n (spotModel_remove n w) = None.
Proof.
  unfold find_spot, spotModel_remove. simpl.
  apply find_filter_out. intros x Hx. rewrite N.eqb_sym in Hx.
  apply N.eqb_eq in Hx. subst. apply N.eqb_refl.
Qed.

Lemma find_spot_remove_other (n m : N) (w : World) :
  m <> n -> find_spot m (spotModel_remove n w) = find_spot m w.
Proof.
  intros Hne. unfold find_spot, spotModel_remove. simpl.
  apply find_filter_keep. intros x Hx. apply N.eqb_eq in Hx. subst.
  now apply N.eqb_neq.
Qed.

Lemma find_spot_modified (n : N) (f : Spot -> Spot) (w : World) (s : Spot) :
  (forall x, spot_id (f x) = spot_id x) ->
  find_spot n w = Some s ->
  find_spot n (spotModel_modify n f w) = Some (f s).
Proof.
  intros Hid Hs. unfold find_spot, spotModel_modify in *. simpl.
  rewrite find_map_key.
  - rewrite Hs. simpl. apply find_some in Hs. destruct Hs as [_ Hs].
    now rewrite Hs.
  - intros x. destruct (N.eqb (spot_id x) n) eqn:E; [now rewrite Hid|exact E].
Qed.

Lemma find_spot_modify_other (n m : N) (f : Spot -> Spot) (w : World) :
  (forall x, spot_id (f x) = spot_id x) ->
  m <> n -> find_spot m (spotModel_modify n f w) = find_spot m w.
Proof.
  intros Hid Hne. unfold find_spot, spotModel_modify. simpl.
  rewrite find_map_key.
  - destruct (find (fun s => N.eqb (spot_id s) m) (spotsC w)) as [x|] eqn:E;
      [|reflexivity].
    simpl. apply find_some in E. destruct E as [_ E].
    apply N.eqb_eq in E. subst m.
    destruct (N.eqb_spec (spot_id x) n); [congruence|reflexivity].
  - intros x. destruct (N.eqb (spot_id x) n); [now rewrite Hid|reflexivity].
Qed.

Lemma find_spot_id (n : N) (w : World) (s : Spot) :
  find_spot n w = Some s -> spot_id s = n.
Proof.
  intros H. apply find_some in H. destruct H as [_ H]. now apply N.eqb_eq in H.
Qed.

Lemma find_review_removed (n : N) (w : World) :
  find_review n (reviewModel_remove n w) = None.
Proof.
  unfold find_review, reviewModel_remove. simpl.
  apply find_filter_out. intros x Hx. exact Hx.
Qed.

Lemma find_tag_removed (n : N) (w : World) :
  find_tag n (tagModel_remove n w) = None.
Proof.
  unfold find_tag, tagModel_remove. simpl.
  apply find_filter_out. intros x Hx. exact Hx.
Qed.

Lemma find_user_adjusted (n : N) (delta : Z) (users : list User) (u : User) :
  find (fun x => N.eqb (user_id x) n) users = Some u ->
  find (fun x => N.eqb (user_id x) n) (map (adjust_rep n delta) users)
  = Some (mkUser (user_id u) (user_rep u + delta)).
Proof.
  intros Hu. rewrite find_map_key.
  - rewrite Hu. simpl. unfold adjust_rep. apply find_some in Hu.
    destruct Hu as [_ Hu]. now rewrite Hu.
  - intros x. unfold adjust_rep. destruct (N.eqb (user_id x) n) eqn:E;
      simpl; [exact E|exact E].
Qed.

Lemma populate_reviews_length (w : World) (ids : list N) :
  Forall (fun n => find_review n w <> None) ids ->
  List.length (populate_reviews w ids) = List.length ids.
Proof.
  induction 1 as [|n ids Hn _ IH]; simpl; [reflexivity|].
  destruct (find_review n w); [simpl; now rewrite IH|congruence].
Qed.

(** ** Reporting *)

Lemma report_score_fold (reports : list Report) (acc : Z) :
  fold_left (fun total report => (total + reporterScore report)%Z) reports acc
  = (acc + total_report_score reports)%Z.
Proof.
  revert acc. induction reports as [|r reports IH]; intros acc; simpl.
  - lia.
  - rewrite IH. lia.
Qed.

(** Whatever its spelling, an id the reporter test finds has the value of a
    stored reporter. *)
Lemma reporters_index_value (userId : idval) (reports : list Report) :
  existsb (String.eqb (JSON_stringify userId))
          (map (fun report => JSON_stringify_oid (reporter report)) reports) = true
  -> In (id_value userId) (map reporter reports).
Proof.
  induction reports as [|r reports IH]; cbn [map existsb In]; [discriminate|].
  rewrite orb_true_iff. intros [H|H]; [left|right; now apply IH].
  rewrite String.eqb_sym in H. symmetry. now apply JSON_eqb_value.
Qed.

(** For an id in the spelling an ObjectID prints, the reporter test finds it
    exactly when it is the value of a stored reporter. *)
Lemma reporters_index (userId : idval) (reports : list Report) :
  canonical userId ->
  existsb (String.eqb (JSON_stringify userId))
          (map (fun report => JSON_stringify_oid (reporter report)) reports) = true
  <-> In (id_value userId) (map reporter reports).
Proof.
  intros Hc. split; [apply reporters_index_value|].
  induction reports as [|r reports IH]; cbn [map existsb In]; [tauto|].
  rewrite orb_true_iff. intros [H|H]; [left|right; now apply IH].
  rewrite String.eqb_sym, (JSON_eqb_canonical _ _ Hc). now apply N.eqb_eq.
Qed.

Lemma with_reports_id (reps : list Report) (s : Spot) :
  spot_id (with_reports reps s) = spot_id s.
Proof. reflexivity. Qed.

(** The three outcomes of [reportSpot] past the two lookups. *)
Lemma reportSpot_run (sv : Services) (w : World) (spotId userId : idval)
    (s : Spot) (user : User) :
  find_spot (id_value spotId) w = Some s ->
  find_user (id_value userId) w = Some user ->
  reportSpot sv spotId userId w
  = if existsb (String.eqb (JSON_stringify userId))
         (map (fun report => JSON_stringify_oid (reporter report)) (spot_reports s))
    then (Err (known (MsgText "You have already reported this spot!")
                     (Some FORBIDDEN)), bump_heap w 1)
    else if (total_report_score (spot_reports s) + user_rep user
             >? 10 + Z.of_nat (List.length (populate_reviews w (spot_reviews s))))%Z
    then (Ok tt, spotModel_remove (id_value spotId) (bump_heap w 1))
    else (Ok tt,
          spotModel_modify (spot_id s)
            (with_reports
               (spot_reports s ++ [mkReport (id_value userId) (user_rep user)])%list)
            (bump_heap w 1)).
Proof.
  intros Hs Hu. unfold reportSpot, getSpotById. rewrite Hs.
  unfold Users_findUserById.
  change (find_user (id_value userId) (bump_heap w 1))
    with (find_user (id_value userId) w).
  rewrite Hu. cbv zeta.
  change (spot_reports (l_doc (load_spot w (heap_next w) s))) with (spot_reports s).
  change (spot_id (l_doc (load_spot w (heap_next w) s))) with (spot_id s).
  change (l_reviews (load_spot w (heap_next w) s))
    with (populate_reviews w (spot_reviews s)).
  now rewrite report_score_fold, Z.add_0_l.
Qed.

(** C3, as the code has it: for a stored Spot with [r] reviews and
    report-score sum [S].  A [userId] without a User document is answered
    with the User model's NotFound, before the reporters are looked at, and
    nothing changes.  For a stored user of reputation [u] who is not among
    the reporters: when [S + u > 10 + r] the Spot is removed and no report
    is written, and when [S + u <= 10 + r] the Spot stays, its [reports]
    being the old ones followed by the one entry
    [{reporter: userId, reporterScore: u}] and its other fields as they
    were.  A stored user who is among the reporters, and whose [userId] is an
    ObjectID or the lower-case hex string an ObjectID prints, is answered
    with Forbidden and nothing changes.  No other Spot changes. *)
Theorem reportSpot_threshold (sv : Services) (w : World) (spotId userId : idval)
    (s : Spot) :
  find_spot (id_value spotId) w = Some s ->
  reviews_stored w s ->
  let r := Z.of_nat (List.length (spot_reviews s)) in
  let S := total_report_score (spot_reports s) in
  let reported := In (id_value userId) (map reporter (spot_reports s)) in
  (find_user (id_value userId) w = None ->
     exists w',
       reportSpot sv spotId userId w
       = (Err (known (MsgText (USER_NOT_FOUND sv)) (Some NOT_FOUND)), w')
       /\ same_store w w')
  /\ (forall user, find_user (id_value userId) w = Some user ->
      let u := user_rep user in
      (reported -> canonical userId ->
         exists w',
           reportSpot sv spotId userId w
           = (Err (known (MsgText "You have already reported this spot!")
                         (Some FORBIDDEN)), w')
           /\ same_store w w')
      /\ (~ reported -> (S + u > 10 + r)%Z ->
            exists w',
              reportSpot sv spotId userId w = (Ok tt, w')
              /\ find_spot (id_value spotId) w' = None
              /\ (forall m, m <> id_value spotId ->
                            find_spot m w' = find_spot m w))
      /\ (~ reported -> (S + u <= 10 + r)%Z ->
            exists w',
              reportSpot sv spotId userId w = (Ok tt, w')
              /\ find_spot (id_value spotId) w'
                 = Some (mkSpot (spot_id s) (spot_title s) (spot_creator s)
                                (spot_location s) (spot_floor s) (spot_tag s)
                                (spot_reviews s) (spot_rating s)
                                (spot_timestamp s)
                                (spot_reports s
                                 ++ [mkReport (id_value userId) u])%list)
              /\ (forall m, m <> id_value spotId ->
                            find_spot m w' = find_spot m w))).
Proof.
  intros Hs Hrev r S reported. split.
  - intros Hu. unfold reportSpot, getSpotById. rewrite Hs.
    unfold Users_findUserById.
    change (find_user (id_value userId) (bump_heap w 1))
      with (find_user (id_value userId) w).
    rewrite Hu. eexists. split; [reflexivity|]. now repeat split.
  - intros user Hu u.
    pose proof (find_spot_id _ _ _ Hs) as Hid.
    rewrite (reportSpot_run sv w spotId userId s user Hs Hu).
    rewrite (populate_reviews_length w (spot_reviews s) Hrev).
    fold r S u.
    split; [|split].
    + intros Hr Hc. apply (reporters_index userId _ Hc) in Hr.
      rewrite Hr. eexists. split; [reflexivity|]. now repeat split.
    + intros Hn Hgt.
      destruct (existsb (String.eqb (JSON_stringify userId)) _) eqn:Ex;
        [apply reporters_index_value in Ex; contradiction|].
      apply Z.gtb_gt in Hgt. rewrite Hgt.
      eexists. split; [reflexivity|]. split.
      * apply find_spot_removed.
      * intros m Hm.
        change (find_spot m w) with (find_spot m (bump_heap w 1)).
        now apply find_spot_remove_other.
    + intros Hn Hle.
      destruct (existsb (String.eqb (JSON_stringify userId)) _) eqn:Ex;
        [apply reporters_index_value in Ex; contradiction|].
      assert (Hgt : (S + u >? 10 + r)%Z = false).
      { destruct (S + u >? 10 + r)%Z eqn:E; [|reflexivity].
        apply Z.gtb_gt in E. lia. }
      rewrite Hgt. eexists. split; [reflexivity|]. split.
      * rewrite <- Hid in Hs |- *.
        exact (find_spot_modified (spot_id s)
                 (with_reports (spot_reports s ++ [mkReport (id_value userId) u])%list)
                 (bump_heap w 1) s (with_reports_id _) Hs).
      * intros m Hm. rewrite Hid.
        change (find_spot m w) with (find_spot m (bump_heap w 1)).
        apply find_spot_modify_other; [apply with_reports_id|exact Hm].
Qed.

(** The examples of the specification on the sample stores: a Spot with two
    reviews and no report is removed by a reporter of reputation 13 and
    kept, with the report appended, for a reporter of reputation 10; a Spot
    that user 171 has reported refuses the second report of that user. *)
Lemma reportSpot_threshold_witness :
  (exists w',
     reportSpot Sample.sv (IdString 30) (IdString 2) Sample.world = (Ok tt, w')
     /\ find_spot 30 w' = None)
  /\ (exists w',
        reportSpot Sample.sv (IdString 30) (IdString 3) Sample.world = (Ok tt, w')
        /\ option_map spot_reports (find_spot 30 w') = Some [mkReport 3 10])
  /\ (exists w',
        reportSpot Sample.sv (IdString 35) (IdString 171) Sample.world_hex
        = (Err (known (MsgText "You have already reported this spot!")
                      (Some FORBIDDEN)), w')).
Proof.
  assert (Hrev : reviews_stored Sample.world Sample.stata).
  { repeat constructor; discriminate. }
  assert (Hrev' : reviews_stored Sample.world_hex Sample.plaza).
  { repeat constructor; discriminate. }
  split; [|split].
  - destruct (reportSpot_threshold Sample.sv Sample.world (IdString 30) (IdString 2)
                Sample.stata eq_refl Hrev) as (_ & Hrun).
    destruct (Hrun Sample.bob eq_refl) as (_ & Hdel & _).
    destruct Hdel as (w' & Hrun' & Hgone & _).
    + simpl. tauto.
    + reflexivity.
    + exists w'. split; assumption.
  - destruct (reportSpot_threshold Sample.sv Sample.world (IdString 30) (IdString 3)
                Sample.stata eq_refl Hrev) as (_ & Hrun).
    destruct (Hrun Sample.carol eq_refl) as (_ & _ & Hkeep).
    destruct Hkeep as (w' & Hrun' & Hkept & _).
    + simpl. tauto.
    + discriminate.
    + exists w'. split; [assumption|].
      cbn [id_value] in Hkept. now rewrite Hkept.
  - destruct (reportSpot_threshold Sample.sv Sample.world_hex (IdString 35)
                (IdString 171) Sample.plaza eq_refl Hrev') as (_ & Hrun).
    destruct (Hrun Sample.dana eq_refl) as (Hrep & _).
    destruct Hrep as (w' & Hrun' & _).
    + simpl. tauto.
    + reflexivity.
    + exists w'. assumption.
Defined.

(** C3, the claim as written: a repeat report by a user who is among the
    reporters is said to fail with Forbidden always.  From a store with
    Users and a Tag only, user 1 adds a Spot and user 171 reports it with
    the id string an ObjectID prints; the Spot is kept and lists 171 as a
    reporter.  User 171 then reports it again with the same id in upper-case
    hex letters: the call succeeds and the Spot carries two reports of user
    171. *)
Lemma reportSpot_repeat_not_refused :
  exists spot w1 w2 w3 s2 s3,
    addSpot Sample.sv "Plaza" (IdString 1) Sample.mit FloorNull "Study" "Open"
            (Fin 5) Sample.world_users = (Ok spot, w1)
    /\ reportSpot Sample.sv (IdString (spot_id spot)) (IdString 171) w1
       = (Ok tt, w2)
    /\ find_spot (spot_id spot) w2 = Some s2
    /\ In (id_value Sample.DANA) (map reporter (spot_reports s2))
    /\ find_user (id_value Sample.DANA) w2 = Some Sample.dana
    /\ reportSpot Sample.sv (IdString (spot_id spot)) Sample.DANA w2 = (Ok tt, w3)
    /\ find_spot (spot_id spot) w3 = Some s3
    /\ spot_reports s3 = [mkReport 171 5; mkReport 171 5].
Proof.
  do 6 eexists. vm_compute. repeat split; try reflexivity. now left.
Qed.

(** ** Deleting *)

Lemma js_sub_undefined (rt : Runtime) (a : value) : js_sub rt a VUndefined = NaN.
Proof. unfold js_sub, num_sub. simpl. apply num_add_NaN_r. Qed.

(** A missing Spot is answered with NotFound. *)
Lemma deleteSpot_missing (rt : Runtime) (w : World) (spotId userId : idval) :
  find_spot (id_value spotId) w = None ->
  deleteSpot rt spotId userId w
  = (Err (known (MsgText SPOT_NOT_FOUND) (Some NOT_FOUND)), w).
Proof.
  intros H. unfold deleteSpot, getSpotById. now rewrite H.
Qed.

(** Anyone but the creator is answered with Forbidden, and the Spot stays. *)
Lemma deleteSpot_not_creator (rt : Runtime) (w : World) (spotId userId : idval)
    (s : Spot) :
  find_spot (id_value spotId) w = Some s ->
  id_value userId <> spot_creator s ->
  exists w',
    deleteSpot rt spotId userId w
    = (Err (known (MsgText "You do not have access to delete this spot!")
                  (Some FORBIDDEN)), w')
    /\ spotsC w' = spotsC w.
Proof.
  intros Hs Hne. unfold deleteSpot, getSpotById. rewrite Hs.
  cbn [l_creator load_spot].
  change (JSON_stringify (IdObject (heap_next w) (spot_creator s)))
    with (JSON_stringify_oid (spot_creator s)).
  destruct (String.eqb (JSON_stringify_oid (spot_creator s))
                       (JSON_stringify userId)) eqn:E;
    [now apply JSON_eqb_value in E|].
  cbn [negb]. eexists. split; reflexivity.
Qed.

(** The creator's call, with the id as an ObjectID prints it, removes the
    Spot whatever the clock says: the age read through [timestamp.createdAt]
    is NaN, and NaN is not greater than a day. *)
Lemma deleteSpot_by_creator (rt : Runtime) (w : World) (spotId userId : idval)
    (s : Spot) :
  find_spot (id_value spotId) w = Some s ->
  id_value userId = spot_creator s ->
  canonical userId ->
  exists w',
    deleteSpot rt spotId userId w = (Ok tt, w')
    /\ find_spot (id_value spotId) w' = None.
Proof.
  intros Hs He Hc. unfold deleteSpot, getSpotById. rewrite Hs.
  cbn [l_creator load_spot].
  change (JSON_stringify (IdObject (heap_next w) (spot_creator s)))
    with (JSON_stringify_oid (spot_creator s)).
  rewrite (JSON_eqb_canonical _ _ Hc), He, N.eqb_refl. cbn [negb].
  unfold Date_properties, get_property. cbn [find].
  rewrite js_sub_undefined, num_gt_NaN_l.
  eexists. split; [reflexivity|apply find_spot_removed].
Qed.

(** C2: [deleteSpot] is claimed to refuse the creator with Forbidden once
    more than 86,400,000 ms have passed since the Spot was created.  In the
    sample store the Spot with id 30 was created by user 1 at time 0 and the
    clock reads 864,000,000: the call of user 1 succeeds and the Spot is
    gone. *)
Theorem deleteSpot_after_a_day :
  find_spot 30 Sample.world = Some Sample.stata
  /\ spot_creator Sample.stata = 1%N
  /\ (now Sample.world - spot_timestamp Sample.stata > 86400000)%Z
  /\ exists w',
       deleteSpot Sample.rt (IdString 30) (IdString 1) Sample.world = (Ok tt, w')
       /\ find_spot 30 w' = None.
Proof.
  repeat split. eexists. split; reflexivity.
Qed.

(** ** The creation saga *)

Lemma Reviews_addReview_created (sv : Services) (creatorId : idval)
    (description : string) (rating : num) (w w1 : World) (review : Review) :
  Reviews_addReview sv creatorId description rating w = (inr review, w1) ->
  review = mkReview (next_oid w) (id_value creatorId) description rating
  /\ w1 = bump_oid (set_reviewsC w (reviewsC w ++ [review])%list).
Proof.
  unfold Reviews_addReview.
  destruct (Reviews_refuses sv creatorId description rating); [discriminate|].
  intros H. injection H as H1 H2. subst review. split; [reflexivity|].
  now subst w1.
Qed.

Lemma Tags_addTag_created (sv : Services) (label : string) (seeded : bool)
    (w w2 : World) (newTag : Tag) :
  Tags_addTag sv label seeded w = (inr newTag, w2) ->
  newTag = mkTag (next_oid w) label seeded
  /\ w2 = bump_oid (set_tagsC w (tagsC w ++ [newTag])%list).
Proof.
  unfold Tags_addTag.
  destruct (Tags_refuses sv label); [discriminate|].
  intros H. injection H as H1 H2. subst newTag. split; [reflexivity|].
  now subst w2.
Qed.

Lemma existsb_title (title : string) (spots : list Spot) :
  (exists s, In s spots /\ spot_title s = title) ->
  existsb (fun s => String.eqb (spot_title s) title) spots = true.
Proof.
  intros (s & Hin & Ht). apply existsb_exists. exists s. split; [exact Hin|].
  now apply String.eqb_eq.
Qed.

(** What [checkSpot] does when title and floor pass, the creator exists and
    the save meets another Spot of the same title. *)
Lemma checkSpot_duplicate (sv : Services) (title : string) (creatorId : idval)
    (location : Location) (floor : floor_arg) (tag : Tag) (review : Review)
    (createdTag : bool) (w : World) (u : User) :
  checkRep title floor = None ->
  find_user (id_value creatorId) w = Some u ->
  (forall s, spot_title s = title -> Spot_invalid sv s = None) ->
  (exists s, In s (spotsC w) /\ spot_title s = title) ->
  checkSpot sv title creatorId location floor tag review createdTag w
  = removeIfInvalid (review_id review) (tag_id tag) createdTag
      (known (MsgText "A Spot already exists with this title.") (Some BAD_REQUEST))
      (set_usersC (bump_oid w)
         (map (adjust_rep (id_value creatorId) 1) (usersC w))).
Proof.
  intros Hrep Hu Hvalid Hdup. unfold checkSpot. rewrite Hrep.
  unfold Users_updateRep.
  change (find_user (id_value creatorId) (bump_oid w))
    with (find_user (id_value creatorId) w).
  rewrite Hu. unfold spot_save. rewrite Hvalid by reflexivity.
  cbn [spotsC set_usersC bump_oid spot_title usersC].
  rewrite (existsb_title _ _ Hdup). reflexivity.
Qed.

(** A successful [checkSpot] has saved the Spot it returns, built on the
    review it was given. *)
Lemma checkSpot_ok (sv : Services) (title : string) (creatorId : idval)
    (location : Location) (floor : floor_arg) (tag : Tag) (review : Review)
    (createdTag : bool) (w w' : World) (spot : Spot) :
  checkSpot sv title creatorId location floor tag review createdTag w
  = (Ok spot, w') ->
  spot_rating spot = review_rating review
  /\ spot_reviews spot = [review_id review]
  /\ spotsC w' = (spotsC w ++ [spot])%list.
Proof.
  unfold checkSpot, removeIfInvalid.
  destruct (checkRep title floor);
    [destruct createdTag; discriminate|].
  destruct (Users_updateRep sv creatorId true (bump_oid w)) as [[err|] w1] eqn:Eu.
  { destruct (truthy (http_status err)), createdTag; discriminate. }
  unfold Users_updateRep in Eu.
  destruct (find_user (id_value creatorId) (bump_oid w)); [|discriminate].
  injection Eu as Ew1. subst w1.
  unfold spot_save.
  destruct (Spot_invalid sv _) as [err|].
  { destruct (match code err with Some c => _ | None => _ end), createdTag;
      discriminate. }
  destruct (existsb _ _).
  { cbn [code]. destruct createdTag; discriminate. }
  intros H. injection H as Hspot Hw. subst spot w'.
  repeat split.
Qed.

(** Once title and floor pass and the creator exists, a failing [checkSpot]
    has failed at the save: the reputation stays incremented, the review is
    removed, the tag is removed when this call created it, and no Spot is
    added. *)
Lemma checkSpot_failed_save (sv : Services) (title : string) (creatorId : idval)
    (location : Location) (floor : floor_arg) (tag : Tag) (review : Review)
    (createdTag : bool) (w w' : World) (u : User) (e : error) :
  checkRep title floor = None ->
  find_user (id_value creatorId) w = Some u ->
  checkSpot sv title creatorId location floor tag review createdTag w
  = (Err e, w') ->
  usersC w' = map (adjust_rep (id_value creatorId) 1) (usersC w)
  /\ spotsC w' = spotsC w
  /\ reviewsC w'
     = filter (fun r => negb (N.eqb (review_id r) (review_id review))) (reviewsC w)
  /\ tagsC w'
     = (if createdTag
        then filter (fun t => negb (N.eqb (tag_id t) (tag_id tag))) (tagsC w)
        else tagsC w).
Proof.
  intros Hrep Hu. unfold checkSpot. rewrite Hrep.
  unfold Users_updateRep.
  change (find_user (id_value creatorId) (bump_oid w))
    with (find_user (id_value creatorId) w).
  rewrite Hu. unfold spot_save, removeIfInvalid.
  destruct (Spot_invalid sv _) as [err|].
  - destruct (match code err with Some c => _ | None => _ end), createdTag;
      intros H; injection H as _ Hw; subst w'; repeat split.
  - destruct (existsb _ _); [|discriminate].
    cbn [code]. destruct createdTag;
      intros H; injection H as _ Hw; subst w'; repeat split.
Qed.

Lemma find_tag_after_create_remove (w : World) (newTag : Tag) (n : N) :
  n <> tag_id newTag ->
  find (fun t => N.eqb (tag_id t) n)
       (filter (fun t => negb (N.eqb (tag_id t) (tag_id newTag)))
               (tagsC w ++ [newTag])%list)
  = find_tag n w.
Proof.
  intros Hne. rewrite filter_app. simpl. rewrite N.eqb_refl. simpl.
  rewrite app_nil_r. unfold find_tag. apply find_filter_keep.
  intros x Hx. apply N.eqb_eq in Hx. subst. now apply N.eqb_neq.
Qed.

(** C4: when the seed Review has been created, no Tag carries the label and
    the Tag model refuses to create one, [addSpot] surfaces that refusal
    after deleting the Review: the Review, stored by the first step, is not
    in the store afterwards, and the Spots, Tags and Users are as before. *)
Theorem addSpot_tag_creation_fails (sv : Services) (title : string)
    (creatorId : idval) (location : Location) (floor : floor_arg)
    (label description : string) (rating : num) (w w1 : World)
    (review : Review) (e : error) :
  Reviews_addReview sv creatorId description rating w = (inr review, w1) ->
  find (fun t => String.eqb (tag_label t) label) (tagsC w) = None ->
  Tags_refuses sv label = Some e ->
  exists w',
    addSpot sv title creatorId location floor label description rating w
    = (Err (if truthy (http_status e)
            then known (msg e) (http_status e)
            else unknown (msg e)), w')
    /\ In review (reviewsC w1)
    /\ find_review (review_id review) w' = None
    /\ (forall r, In r (reviewsC w') -> In r (reviewsC w))
    /\ spotsC w' = spotsC w
    /\ tagsC w' = tagsC w
    /\ usersC w' = usersC w.
Proof.
  intros Hrev Hnone Hrefuse. unfold addSpot. rewrite Hrev.
  destruct (Reviews_addReview_created _ _ _ _ _ _ _ Hrev) as [Hr Hw1].
  unfold Tags_getTagByLabel.
  replace (tagsC w1) with (tagsC w) by (subst w1; reflexivity).
  rewrite Hnone. cbn [http_status known truthy NOT_FOUND Z.eqb negb].
  unfold Tags_addTag. rewrite Hrefuse.
  exists (reviewModel_remove (review_id review) w1). split.
  - destruct (truthy (http_status e)); reflexivity.
  - split; [|split; [|split]].
    + subst w1. cbn [reviewsC bump_oid set_reviewsC]. apply in_or_app.
      right. now left.
    + apply find_review_removed.
    + intros r Hin. subst w1. unfold reviewModel_remove in Hin.
      cbn [reviewsC bump_oid set_reviewsC] in Hin.
      apply filter_In in Hin. destruct Hin as [Hin Hne].
      apply in_app_or in Hin. destruct Hin as [Hin|[Hin|[]]]; [exact Hin|].
      subst r. rewrite N.eqb_refl in Hne. discriminate.
    + subst w1. repeat split.
Qed.

(** A label no Tag carries, a Tag model that refuses every label: the saga
    ends with that refusal and the freshly stored Review 100 is gone. *)
Lemma addSpot_tag_creation_fails_witness :
  exists w',
    addSpot Sample.sv_no_tags "Killian Court" (IdString 1) Sample.mit FloorNull
            "Nap" "Sunny" (Fin 4) Sample.world
    = (Err (known (MsgText "Invalid label!") (Some BAD_REQUEST)), w')
    /\ find_review 100 w' = None
    /\ spotsC w' = spotsC Sample.world.
Proof.
  destruct (addSpot_tag_creation_fails Sample.sv_no_tags "Killian Court"
              (IdString 1) Sample.mit FloorNull "Nap" "Sunny" (Fin 4)
              Sample.world _ _ _ eq_refl eq_refl eq_refl)
    as (w' & Hrun & _ & Hgone & _ & Hspots & _).
  exists w'. repeat split; assumption.
Defined.

(** C5: when title and floor pass, the creator exists and the save meets a
    stored Spot of the same title, [addSpot] answers with the BadRequest
    conflict and the seed Review is gone.  If a Tag carried the label before
    the call, no Tag is removed; if the call created the Tag, that Tag is
    gone and every other Tag is still found.  No Spot is added. *)
Theorem addSpot_duplicate_title (sv : Services) (title : string)
    (creatorId : idval) (location : Location) (floor : floor_arg)
    (label description : string) (rating : num) (w w1 : World)
    (review : Review) (u : User) :
  Reviews_addReview sv creatorId description rating w = (inr review, w1) ->
  checkRep title floor = None ->
  find_user (id_value creatorId) w = Some u ->
  (forall s, spot_title s = title -> Spot_invalid sv s = None) ->
  (exists s, In s (spotsC w) /\ spot_title s = title) ->
  (forall tag,
      find (fun t => String.eqb (tag_label t) label) (tagsC w) = Some tag ->
      exists w',
        addSpot sv title creatorId location floor label description rating w
        = (Err title_conflict, w')
        /\ find_review (review_id review) w' = None
        /\ tagsC w' = tagsC w
        /\ spotsC w' = spotsC w)
  /\ (forall newTag w2,
        find (fun t => String.eqb (tag_label t) label) (tagsC w) = None ->
        Tags_addTag sv label false w1 = (inr newTag, w2) ->
        exists w',
          addSpot sv title creatorId location floor label description rating w
          = (Err title_conflict, w')
          /\ find_review (review_id review) w' = None
          /\ find_tag (tag_id newTag) w' = None
          /\ (forall n, n <> tag_id newTag -> find_tag n w' = find_tag n w)
          /\ spotsC w' = spotsC w).
Proof.
  intros Hrev Hrep Hu Hvalid Hdup.
  destruct (Reviews_addReview_created _ _ _ _ _ _ _ Hrev) as [Hr Hw1].
  assert (Htags : tagsC w1 = tagsC w) by (subst w1; reflexivity).
  split.
  - intros tag Htag. unfold addSpot. rewrite Hrev.
    unfold Tags_getTagByLabel. rewrite Htags, Htag.
    rewrite (checkSpot_duplicate sv title creatorId location floor tag review
               false w1 u Hrep).
    + unfold removeIfInvalid. eexists. split; [reflexivity|].
      split; [apply find_review_removed|]. subst w1. split; reflexivity.
    + subst w1. exact Hu.
    + exact Hvalid.
    + subst w1. exact Hdup.
  - intros newTag w2 Hnone Hadd. unfold addSpot. rewrite Hrev.
    unfold Tags_getTagByLabel. rewrite Htags, Hnone.
    cbn [http_status known truthy NOT_FOUND Z.eqb negb]. rewrite Hadd.
    destruct (Tags_addTag_created _ _ _ _ _ _ Hadd) as [Ht Hw2].
    rewrite (checkSpot_duplicate sv title creatorId location floor newTag review
               true w2 u Hrep).
    + unfold removeIfInvalid. eexists. split; [reflexivity|].
      split; [|split; [apply find_tag_removed|split]].
      * unfold find_review, tagModel_remove. cbn [reviewsC set_tagsC].
        apply find_review_removed.
      * intros n Hn. unfold find_tag at 1.
        cbn [tagsC tagModel_remove reviewModel_remove set_tagsC set_reviewsC
             set_usersC bump_oid].
        rewrite Hw2. cbn [tagsC bump_oid set_tagsC]. rewrite Htags.
        now apply find_tag_after_create_remove.
      * rewrite Hw2, Hw1. reflexivity.
    + rewrite Hw2, Hw1. exact Hu.
    + exact Hvalid.
    + rewrite Hw2, Hw1. exact Hdup.
Qed.

(** Both cases on the sample store, where "Stata Center" is taken: with the
    stored label "Study" the Tags are untouched; with the new label "Nap"
    the Tag created as 101 is gone again. *)
Lemma addSpot_duplicate_title_witness :
  (exists w',
     addSpot Sample.sv "Stata Center" (IdString 1) Sample.mit FloorNull
             "Study" "Sunny" (Fin 4) Sample.world
     = (Err title_conflict, w')
     /\ find_review 100 w' = None
     /\ tagsC w' = [Sample.study])
  /\ (exists w',
        addSpot Sample.sv "Stata Center" (IdString 1) Sample.mit FloorNull
                "Nap" "Sunny" (Fin 4) Sample.world
        = (Err title_conflict, w')
        /\ find_review 100 w' = None
        /\ find_tag 101 w' = None
        /\ find_tag 10 w' = Some Sample.study).
Proof.
  assert (Hdup : exists s, In s (spotsC Sample.world)
                           /\ spot_title s = "Stata Center").
  { exists Sample.stata. split; [now left|reflexivity]. }
  split.
  - destruct (addSpot_duplicate_title Sample.sv "Stata Center" (IdString 1)
                Sample.mit FloorNull "Study" "Sunny" (Fin 4) Sample.world _ _
                Sample.alice eq_refl eq_refl eq_refl (fun _ _ => eq_refl) Hdup)
      as [Hold _].
    destruct (Hold Sample.study eq_refl) as (w' & Hrun & Hrev & Htags & _).
    exists w'. repeat split; assumption.
  - destruct (addSpot_duplicate_title Sample.sv "Stata Center" (IdString 1)
                Sample.mit FloorNull "Nap" "Sunny" (Fin 4) Sample.world _ _
                Sample.alice eq_refl eq_refl eq_refl (fun _ _ => eq_refl) Hdup)
      as [_ Hnew].
    destruct (Hnew _ _ eq_refl eq_refl) as (w' & Hrun & Hrev & Htag & Hothers & _).
    exists w'. repeat split; try assumption.
    rewrite Hothers; [reflexivity|discriminate].
Defined.

(** C8: a successful [addSpot] returns a Spot whose rating is the rating of
    the Review created in the first step and whose review list holds that
    Review and nothing else; this Spot is the one added to the store. *)
Theorem addSpot_success_seed_review (sv : Services) (title : string)
    (creatorId : idval) (location : Location) (floor : floor_arg)
    (label description : string) (rating : num) (w w' : World) (spot : Spot) :
  addSpot sv title creatorId location floor label description rating w
  = (Ok spot, w') ->
  exists review w1,
    Reviews_addReview sv creatorId description rating w = (inr review, w1)
    /\ spot_rating spot = review_rating review
    /\ spot_reviews spot = [review_id review]
    /\ spotsC w' = (spotsC w ++ [spot])%list.
Proof.
  unfold addSpot.
  destruct (Reviews_addReview sv creatorId description rating w)
    as [[err|review] w1] eqn:Hrev; [discriminate|].
  destruct (Reviews_addReview_created _ _ _ _ _ _ _ Hrev) as [_ Hw1].
  assert (Hspots : spotsC w1 = spotsC w) by (subst w1; reflexivity).
  intros H. exists review, w1. split; [reflexivity|].
  destruct (Tags_getTagByLabel sv label w1) as [err|tag].
  - destruct (truthy (http_status err)); [|discriminate].
    destruct (Tags_addTag sv label false w1) as [[err'|newTag] w2] eqn:Hadd.
    + destruct (truthy (http_status err')); discriminate.
    + destruct (Tags_addTag_created _ _ _ _ _ _ Hadd) as [_ Hw2].
      apply checkSpot_ok in H. destruct H as (Hr & Hl & Hs).
      repeat split; try assumption.
      rewrite Hs, Hw2. cbn [spotsC bump_oid set_tagsC]. now rewrite Hspots.
  - apply checkSpot_ok in H. destruct H as (Hr & Hl & Hs).
    repeat split; try assumption. now rewrite Hs, Hspots.
Qed.

(** A run that succeeds: a free title on the sample store; the new Spot 102
    carries the rating 4 of the seed Review 100 and lists that Review only. *)
Lemma addSpot_success_seed_review_witness :
  exists spot w',
    addSpot Sample.sv "Killian Court" (IdString 1) Sample.mit FloorNull
            "Nap" "Sunny" (Fin 4) Sample.world = (Ok spot, w')
    /\ spot_rating spot = Fin 4
    /\ spot_reviews spot = [100%N]
    /\ find_spot 102 w' = Some spot.
Proof.
  eexists. eexists. split; [reflexivity|].
  destruct (addSpot_success_seed_review Sample.sv "Killian Court" (IdString 1)
              Sample.mit FloorNull "Nap" "Sunny" (Fin 4) Sample.world _ _ eq_refl)
    as (review & w1 & Hrev & Hrating & Hreviews & _).
  injection Hrev as Hr _. subst review.
  split; [exact Hrating|]. split; [exact Hreviews|reflexivity].
Defined.

(** C10: when the seed Review is stored, the Tag is found or created, title
    and floor pass and the creator exists, a failing [addSpot] has failed at
    the save, after the reputation update: the creator's reputation is one
    higher than before the call and no other User changed, while the Review
    is removed and no Spot is added. *)
Theorem addSpot_failed_save_keeps_reputation (sv : Services) (title : string)
    (creatorId : idval) (location : Location) (floor : floor_arg)
    (label description : string) (rating : num) (w w' : World)
    (u : User) (e : error) :
  Reviews_refuses sv creatorId description rating = None ->
  (find (fun t => String.eqb (tag_label t) label) (tagsC w) <> None
   \/ Tags_refuses sv label = None) ->
  checkRep title floor = None ->
  find_user (id_value creatorId) w = Some u ->
  addSpot sv title creatorId location floor label description rating w
  = (Err e, w') ->
  find_user (id_value creatorId) w' = Some (mkUser (user_id u) (user_rep u + 1))
  /\ usersC w' = map (adjust_rep (id_value creatorId) 1) (usersC w)
  /\ find_review (next_oid w) w' = None
  /\ spotsC w' = spotsC w.
Proof.
  intros Haccept Htag Hrep Hu. unfold addSpot.
  destruct (Reviews_addReview sv creatorId description rating w)
    as [[err|review] w1] eqn:Hrev.
  { unfold Reviews_addReview in Hrev. rewrite Haccept in Hrev. discriminate. }
  destruct (Reviews_addReview_created _ _ _ _ _ _ _ Hrev) as [Hr Hw1].
  assert (Hid : review_id review = next_oid w) by (subst review; reflexivity).
  assert (Hu1 : find_user (id_value creatorId) w1 = Some u)
    by (subst w1; exact Hu).
  assert (Husers : usersC w1 = usersC w) by (subst w1; reflexivity).
  assert (Hspots : spotsC w1 = spotsC w) by (subst w1; reflexivity).
  assert (Hdone : forall tag createdTag w2,
             usersC w2 = usersC w -> spotsC w2 = spotsC w ->
             checkSpot sv title creatorId location floor tag review createdTag w2
             = (Err e, w') ->
             find_user (id_value creatorId) w'
             = Some (mkUser (user_id u) (user_rep u + 1))
             /\ usersC w' = map (adjust_rep (id_value creatorId) 1) (usersC w)
             /\ find_review (next_oid w) w' = None
             /\ spotsC w' = spotsC w).
  { intros tag createdTag w2 Hus Hsp Hrun.
    assert (Hu2 : find_user (id_value creatorId) w2 = Some u).
    { unfold find_user in *. now rewrite Hus. }
    destruct (checkSpot_failed_save _ _ _ _ _ _ _ _ _ _ _ _ Hrep Hu2 Hrun)
      as (Husers' & Hspots' & Hreviews' & _).
    split; [|split; [|split]].
    - unfold find_user. rewrite Husers', Hus. now apply find_user_adjusted.
    - now rewrite Husers', Hus.
    - unfold find_review. rewrite Hreviews', <- Hid.
      apply find_filter_out. intros x Hx. exact Hx.
    - now rewrite Hspots', Hsp. }
  unfold Tags_getTagByLabel.
  replace (tagsC w1) with (tagsC w) by (subst w1; reflexivity).
  destruct (find (fun t => String.eqb (tag_label t) label) (tagsC w))
    as [tag|] eqn:Efind.
  - apply Hdone; assumption.
  - cbn [http_status known truthy NOT_FOUND Z.eqb negb].
    destruct Htag as [Htag|Htag]; [congruence|].
    destruct (Tags_addTag sv label false w1) as [[err'|newTag] w2] eqn:Hadd.
    { unfold Tags_addTag in Hadd. rewrite Htag in Hadd. discriminate. }
    destruct (Tags_addTag_created _ _ _ _ _ _ Hadd) as [_ Hw2].
    apply Hdone; rewrite Hw2; cbn [usersC spotsC bump_oid set_tagsC]; assumption.
Qed.

(** The title "Stata Center" is taken on the sample store: the saga fails
    and the reputation of user 1 has gone from 0 to 1. *)
Lemma addSpot_failed_save_keeps_reputation_witness :
  exists e w',
    addSpot Sample.sv "Stata Center" (IdString 1) Sample.mit FloorNull
            "Nap" "Sunny" (Fin 4) Sample.world = (Err e, w')
    /\ find_user 1 Sample.world = Some (mkUser 1 0)
    /\ find_user 1 w' = Some (mkUser 1 1).
Proof.
  eexists. eexists. split; [reflexivity|]. split; [reflexivity|].
  exact (proj1 (addSpot_failed_save_keeps_reputation Sample.sv "Stata Center"
                  (IdString 1) Sample.mit FloorNull "Nap" "Sunny" (Fin 4)
                  Sample.world _ Sample.alice _ eq_refl (or_intror eq_refl)
                  eq_refl eq_refl eq_refl)).
Defined.

(** ** Adding a review *)

Lemma string_app_nil_r (s : string) : s ++ "" = s.
Proof. induction s as [|c s IH]; simpl; [reflexivity|now rewrite IH]. Qed.

Lemma string_app_assoc (a b c : string) : (a ++ b) ++ c = a ++ (b ++ c).
Proof. induction a as [|x a IH]; simpl; [reflexivity|now rewrite IH]. Qed.

Section Rating.

Variable rt : Runtime.

(** The text of a document never reads as a Number, whatever follows it. *)
Hypothesis inspect_not_numeric :
  forall r s, StringToNumber rt (inspect rt r ++ s) = NaN.

(** The first step adds a rating to the first review itself: the review is
    turned into its text and the rating is appended to it. *)
Lemma add_rating_first (r x : PopReview) :
  add_rating rt (VDoc r) (VDoc x)
  = VStr (inspect rt r ++ Number_toString rt (review_rating (pr_review x))).
Proof. reflexivity. Qed.

Lemma add_rating_next (acc : string) (x : PopReview) :
  add_rating rt (VStr acc) (VDoc x)
  = VStr (acc ++ Number_toString rt (review_rating (pr_review x))).
Proof. reflexivity. Qed.

(** Once the accumulator is a string that starts with the text of the first
    review, it stays one. *)
Lemma add_rating_string (r : PopReview) (rest : list PopReview) :
  forall s,
    exists s',
      fold_left (add_rating rt) (map VDoc rest) (VStr (inspect rt r ++ s))
      = VStr (inspect rt r ++ s').
Proof.
  induction rest as [|x rest IH]; intros s; cbn [map fold_left].
  - now exists s.
  - rewrite add_rating_next, string_app_assoc. apply IH.
Qed.

(** The [reduce] without an initial value starts from the first review
    itself: its result is that review (one element) or a string. *)
Lemma reduce_ratings_shape (r : PopReview) (rest : list PopReview) :
  reduce_no_init (add_rating rt) (map VDoc (r :: rest)) = Some (VDoc r) /\ rest = []
  \/ exists s,
       reduce_no_init (add_rating rt) (map VDoc (r :: rest))
       = Some (VStr (inspect rt r ++ s)).
Proof.
  destruct rest as [|x rest]; [left; split; reflexivity|right].
  cbn [map reduce_no_init fold_left]. rewrite add_rating_first.
  destruct (add_rating_string r rest
              (Number_toString rt (review_rating (pr_review x)))) as [s' Hs'].
  exists s'. now rewrite Hs'.
Qed.

(** Whatever the ratings, the quotient computed from that result is NaN. *)
Lemma rating_quotient_NaN (reviews : list PopReview) (total count : value) :
  reduce_no_init (add_rating rt) (map VDoc reviews) = Some total ->
  js_div rt total count = NaN.
Proof.
  destruct reviews as [|r rest]; [discriminate|].
  destruct (reduce_ratings_shape r rest) as [[H _]|[s H]];
    rewrite H; intros E; injection E as <-; unfold js_div, ToNumber; simpl.
  - rewrite <- (string_app_nil_r (inspect rt r)).
    now rewrite inspect_not_numeric, num_div_NaN_l.
  - now rewrite inspect_not_numeric, num_div_NaN_l.
Qed.

(** Every successful [addReviewToSpot] returns, and has written, the rating
    NaN. *)
Lemma addReviewToSpot_rating_NaN (sv : Services) (spotId creatorId : idval)
    (description : string) (rating : num) (w w' : World)
    (spot : Spot) (review : Review) :
  addReviewToSpot rt sv spotId creatorId description rating w
  = (Ok (spot, review), w') ->
  spot_rating spot = NaN
  /\ find_spot (spot_id spot) w' = Some spot.
Proof.
  unfold addReviewToSpot, getSpotById.
  destruct (find_spot (id_value spotId) w) as [s|] eqn:Hs; [|discriminate].
  destruct (existsb creator_is_null _); [discriminate|].
  destruct (_ || _); [discriminate|].
  destruct (Reviews_addReview sv creatorId description rating (bump_heap w 1))
    as [[err|rv] w2] eqn:Hrev; [discriminate|].
  destruct (Reviews_addReview_created _ _ _ _ _ _ _ Hrev) as [_ Hw2].
  destruct (reduce_no_init _ _) as [total|] eqn:Hred; [|discriminate].
  rewrite (rating_quotient_NaN _ _ _ Hred).
  destruct (Update_fails sv _ _ _); [discriminate|].
  intros H. injection H as Hspot Hreview Hw'. subst spot w'.
  split; [reflexivity|].
  cbn [spot_id with_reviews_rating l_doc load_spot].
  unfold spotModel_update.
  apply (find_spot_modified (spot_id s)
           (with_reviews_rating
              (map (fun populatedReview => review_id (pr_review populatedReview))
                   (l_reviews (load_spot w (heap_next w) s) ++
                    [{| pr_review := rv; pr_creator := UserId (review_creator rv) |}]))
              NaN)).
  - reflexivity.
  - rewrite Hw2. pose proof (find_spot_id _ _ _ Hs) as Hid. rewrite Hid.
    exact Hs.
Qed.

End Rating.

Lemma Sample_inspect_not_numeric (r : PopReview) (s : string) :
  StringToNumber Sample.rt (inspect Sample.rt r ++ s) = NaN.
Proof. reflexivity. Qed.

(** C1: after a successful [addReviewToSpot] the rating of the Spot is
    claimed to be the mean of the ratings of its reviews.  On the sample
    store user 3 adds a review rated 3 to the Spot whose reviews are rated 5
    and 4: the call succeeds, the three ratings have mean 4, and the rating
    returned and written is NaN. *)
Theorem addReviewToSpot_rating_not_mean :
  exists spot review w',
    addReviewToSpot Sample.rt Sample.sv (IdString 30) (IdString 3) "Nice" (Fin 3)
                    Sample.world = (Ok (spot, review), w')
    /\ find_spot 30 w' = Some spot
    /\ spot_reviews spot = [20%N; 21%N; 100%N]
    /\ ratings_of w' (spot_reviews spot) = [Fin 5; Fin 4; Fin 3]
    /\ spec_mean_rating (ratings_of w' (spot_reviews spot)) = Fin 4
    /\ spot_rating spot = NaN.
Proof.
  eexists. eexists. eexists. split; [reflexivity|].
  repeat split.
Qed.

Lemma populated_creator_json (w : World) (r : Review) :
  find_user (review_creator r) w <> None ->
  creator_is_null (populate_review w r) = false
  /\ creator_json (populate_review w r) = JSON_stringify_oid (review_creator r).
Proof.
  intros Hu. unfold creator_is_null, creator_json, populate_review. simpl.
  destruct (find_user (review_creator r) w) as [u|] eqn:E; [|congruence].
  split; [reflexivity|].
  apply find_some in E. destruct E as [_ E]. apply N.eqb_eq in E.
  now rewrite E.
Qed.

(** The author test on the populated reviews: whatever the spelling of
    [creatorId], a review it keeps was written by the user with that id;
    for an id as an ObjectID prints it, it keeps the reviews of that user. *)
Lemma populated_authors (w : World) (creatorId : idval) (ids : list N) :
  Forall (fun n => find_user n w <> None)
         (map (fun r => review_creator (pr_review r)) (populate_reviews w ids)) ->
  existsb creator_is_null (populate_reviews w ids) = false
  /\ (filter (fun reviewToCheck =>
                String.eqb (creator_json reviewToCheck) (JSON_stringify creatorId))
             (populate_reviews w ids) <> [] ->
      In (id_value creatorId)
         (map (fun r => review_creator (pr_review r)) (populate_reviews w ids)))
  /\ (canonical creatorId ->
      In (id_value creatorId)
         (map (fun r => review_creator (pr_review r)) (populate_reviews w ids)) ->
      filter (fun reviewToCheck =>
                String.eqb (creator_json reviewToCheck) (JSON_stringify creatorId))
             (populate_reviews w ids) <> []).
Proof.
  induction ids as [|n ids IH]; cbn [populate_reviews].
  - intros _. split; [reflexivity|]. simpl. split; [congruence|tauto].
  - destruct (find_review n w) as [r|]; [|exact IH].
    cbn [map existsb filter In]. intros Hall.
    inversion Hall as [|? ? Hr Hrest]; subst.
    destruct (IH Hrest) as (Hnull & Hval & Hcan).
    destruct (populated_creator_json w r Hr) as [Hn Hj].
    rewrite Hn, Hnull, Hj. split; [reflexivity|].
    change (review_creator (pr_review (populate_review w r)))
      with (review_creator r).
    split.
    + destruct (String.eqb (JSON_stringify_oid (review_creator r))
                           (JSON_stringify creatorId)) eqn:E.
      * intros _. left. symmetry. now apply JSON_eqb_value.
      * intros H. right. now apply Hval.
    + intros Hc. rewrite (JSON_eqb_canonical _ _ Hc).
      destruct (N.eqb_spec (review_creator r) (id_value creatorId)) as [E|E];
        [discriminate|].
      intros [H|H]; [congruence|now apply Hcan].
Qed.

(** The identity test [spot.creator === creatorId] compares the ObjectID
    built while reading the Spot with a value the caller held before: it
    never holds. *)
Lemma creator_test_never_holds (w : World) (s : Spot) (creatorId : idval) :
  allocated w creatorId ->
  strict_eq (l_creator (load_spot w (heap_next w) s)) creatorId = false.
Proof.
  destruct creatorId as [n|a n|upper n]; simpl; [reflexivity| |reflexivity].
  intros Ha. apply Nat.eqb_neq. lia.
Qed.

(** A user who wrote one of the Spot's stored reviews, and whose id comes as
    an ObjectID prints it, is refused with Forbidden and nothing is
    written. *)
Lemma addReviewToSpot_author_again (rt : Runtime) (sv : Services)
    (spotId creatorId : idval) (description : string) (rating : num)
    (w : World) (s : Spot) :
  find_spot (id_value spotId) w = Some s ->
  authors_stored w s ->
  canonical creatorId ->
  In (id_value creatorId) (review_authors w s) ->
  exists w',
    addReviewToSpot rt sv spotId creatorId description rating w
    = (Err already_reviewed, w')
    /\ same_store w w'.
Proof.
  intros Hs Hstored Hc Hin. unfold addReviewToSpot, getSpotById. rewrite Hs.
  cbn [l_reviews load_spot].
  destruct (populated_authors w creatorId (spot_reviews s) Hstored)
    as (Hnull & _ & Hcan).
  rewrite Hnull. apply (Hcan Hc) in Hin.
  destruct (filter _ (populate_reviews w (spot_reviews s))) as [|x l];
    [congruence|].
  cbn [List.length Nat.eqb negb orb].
  eexists. split; [reflexivity|]. now repeat split.
Qed.

(** When the caller wrote none of the stored reviews, the call goes on to
    create the Review, whoever created the Spot. *)
Lemma addReviewToSpot_not_an_author (rt : Runtime) (sv : Services)
    (spotId creatorId : idval) (description : string) (rating : num)
    (w : World) (s : Spot) :
  find_spot (id_value spotId) w = Some s ->
  authors_stored w s ->
  allocated w creatorId ->
  ~ In (id_value creatorId) (review_authors w s) ->
  Reviews_refuses sv creatorId description rating = None ->
  exists review w',
    ((exists spot,
        addReviewToSpot rt sv spotId creatorId description rating w
        = (Ok (spot, review), w'))
     \/ (exists err,
           addReviewToSpot rt sv spotId creatorId description rating w
           = (Err (unknown (MsgError err)), w')))
    /\ In review (reviewsC w')
    /\ review_creator review = id_value creatorId.
Proof.
  intros Hs Hstored Halloc Hnot Haccept.
  unfold addReviewToSpot, getSpotById. rewrite Hs.
  rewrite (creator_test_never_holds w s creatorId Halloc).
  cbn [l_reviews load_spot].
  destruct (populated_authors w creatorId (spot_reviews s) Hstored)
    as (Hnull & Hval & _).
  rewrite Hnull.
  destruct (filter _ (populate_reviews w (spot_reviews s))) as [|x l] eqn:Ef.
  2:{ exfalso. apply Hnot, Hval. congruence. }
  cbn [List.length Nat.eqb negb orb].
  unfold Reviews_addReview. rewrite Haccept.
  destruct (populate_reviews w (spot_reviews s)) as [|p ps];
    cbn [app map reduce_no_init];
    destruct (Update_fails sv _ _ _) as [err|];
    (eexists; eexists; split;
     [first [left; eexists; reflexivity | right; eexists; reflexivity]|]);
    unfold spotModel_update, spotModel_modify;
    cbn [reviewsC set_spotsC bump_oid set_reviewsC bump_heap];
    (split; [apply in_or_app; right; now left|reflexivity]).
Qed.

(** C6, as the code has it: a call whose [creatorId], an ObjectID or the
    lower-case hex string an ObjectID prints, is the author of one of the
    Spot's stored reviews (whose authors all have User documents) is refused
    with Forbidden; so is the call of the Spot's creator whenever the
    creator's review is among the stored ones.  The stored Spot, with its
    rating and reviews, is as before, no Review is created and no other
    collection changes. *)
Theorem addReviewToSpot_author_or_creator_refused (rt : Runtime) (sv : Services)
    (spotId creatorId : idval) (description : string) (rating : num)
    (w : World) (s : Spot) :
  find_spot (id_value spotId) w = Some s ->
  authors_stored w s ->
  canonical creatorId ->
  (In (id_value creatorId) (review_authors w s) ->
     exists w',
       addReviewToSpot rt sv spotId creatorId description rating w
       = (Err (known (MsgText "You already submitted a review for this spot!")
                     (Some FORBIDDEN)), w')
       /\ reviewsC w' = reviewsC w
       /\ find_spot (id_value spotId) w' = Some s
       /\ same_store w w')
  /\ (id_value creatorId = spot_creator s ->
      In (spot_creator s) (review_authors w s) ->
      exists w',
        addReviewToSpot rt sv spotId creatorId description rating w
        = (Err (known (MsgText "You already submitted a review for this spot!")
                      (Some FORBIDDEN)), w')
        /\ reviewsC w' = reviewsC w
        /\ find_spot (id_value spotId) w' = Some s
        /\ same_store w w').
Proof.
  intros Hs Hstored Hc.
  assert (Hauthor : In (id_value creatorId) (review_authors w s) ->
            exists w',
              addReviewToSpot rt sv spotId creatorId description rating w
              = (Err (known (MsgText "You already submitted a review for this spot!")
                            (Some FORBIDDEN)), w')
              /\ reviewsC w' = reviewsC w
              /\ find_spot (id_value spotId) w' = Some s
              /\ same_store w w').
  { intros Hin.
    destruct (addReviewToSpot_author_again rt sv spotId creatorId description
                rating w s Hs Hstored Hc Hin) as (w' & Hrun & Hsame).
    exists w'. split; [exact Hrun|]. split; [apply Hsame|].
    split; [|exact Hsame].
    unfold find_spot. destruct Hsame as (_ & _ & _ & ->). exact Hs. }
  split; [exact Hauthor|].
  intros Hcreator Hin. apply Hauthor. now rewrite Hcreator.
Qed.

(** On the sample store user 1, who created Spot 30 and wrote its first
    review, is refused, with the id as a string and as an ObjectID. *)
Lemma addReviewToSpot_author_or_creator_refused_witness :
  (exists w',
     addReviewToSpot Sample.rt Sample.sv (IdString 30) (IdString 1) "Again" (Fin 1)
                     Sample.world = (Err already_reviewed, w')
     /\ find_spot 30 w' = Some Sample.stata)
  /\ (exists w',
        addReviewToSpot Sample.rt Sample.sv (IdString 30) (IdObject 0 1) "Again"
                        (Fin 1) Sample.world = (Err already_reviewed, w')
        /\ reviewsC w' = reviewsC Sample.world).
Proof.
  assert (Hst : authors_stored Sample.world Sample.stata).
  { repeat constructor; discriminate. }
  assert (Hin : In 1%N (review_authors Sample.world Sample.stata)).
  { now left. }
  split.
  - destruct (addReviewToSpot_author_or_creator_refused Sample.rt Sample.sv
                (IdString 30) (IdString 1) "Again" (Fin 1) Sample.world
                Sample.stata eq_refl Hst eq_refl) as (Hauthor & _).
    destruct (Hauthor Hin) as (w' & Hrun & _ & Hspot & _).
    exists w'. split; assumption.
  - destruct (addReviewToSpot_author_or_creator_refused Sample.rt Sample.sv
                (IdString 30) (IdObject 0 1) "Again" (Fin 1) Sample.world
                Sample.stata eq_refl Hst eq_refl) as (_ & Hcreator).
    destruct (Hcreator eq_refl Hin) as (w' & Hrun & Hrev & _).
    exists w'. split; assumption.
Defined.

(** C6, the claim as written: every call whose [creatorId] is among the
    authors of the Spot's reviews, or is the Spot's creator, is said to be
    refused.  From a store with Users and a Tag only, user 171 adds a Spot,
    which holds that user's review; user 171 then adds a review with the
    same id in upper-case hex letters: the call is not refused, a second
    Review of user 171 is created and the Spot lists both. *)
Lemma addReviewToSpot_spelled_not_refused :
  exists spot w1 spot' review w2,
    addSpot Sample.sv "Dome" (IdString 171) Sample.mit FloorNull "Study" "Airy"
            (Fin 4) Sample.world_users = (Ok spot, w1)
    /\ spot_creator spot = id_value Sample.DANA
    /\ review_authors w1 spot = [id_value Sample.DANA]
    /\ addReviewToSpot Sample.rt Sample.sv (IdString (spot_id spot)) Sample.DANA
                       "Again" (Fin 3) w1 = (Ok (spot', review), w2)
    /\ In review (reviewsC w2)
    /\ ~ In review (reviewsC w1)
    /\ review_creator review = 171%N
    /\ find_spot (spot_id spot) w2 = Some spot'
    /\ spot_reviews spot' = (spot_reviews spot ++ [review_id review])%list.
Proof.
  do 5 eexists. vm_compute.
  repeat split; try reflexivity.
  - right. now left.
  - intros [H|[]]. discriminate.
Qed.

(** * Further properties of the model *)

(** ** The validator, again *)

Lemma string_forall_impl (p q : ascii -> bool) (s : string) :
  (forall c, p c = true -> q c = true) ->
  string_forall p s = true -> string_forall q s = true.
Proof.
  intros Hpq. induction s as [|c s IH]; simpl; [reflexivity|].
  rewrite !andb_true_iff. intros [Hc Hs]. split; [now apply Hpq|now apply IH].
Qed.

Lemma test_plus_forall (cls : ascii -> bool) (s : string) :
  test_plus cls s = true <-> s <> "" /\ string_forall cls s = true.
Proof.
  destruct s as [|c s]; simpl.
  - split; [discriminate|intros [H _]; congruence].
  - split; [intros H; split; [discriminate|exact H]|intros [_ H]; exact H].
Qed.

(** When [checkRep] returns [null]. *)
Lemma checkRep_none_iff (title : string) (floor : floor_arg) :
  checkRep title floor = None <->
  test_plus title_class title = true
  /\ (3 <= String.length title <= 20)%nat
  /\ floor_ok floor.
Proof.
  pose proof (checkRep_title_rule title floor) as Ht.
  pose proof (checkRep_floor_rule title floor) as Hf.
  assert (Hcases : checkRep title floor = None
                   \/ checkRep title floor = Some title_error
                   \/ checkRep title floor = Some floor_error).
  { unfold checkRep. destruct (negb _); [now right; left|].
    destruct (negb _); [now right; right|now left]. }
  assert (Hne : title_error <> floor_error) by (unfold title_error, floor_error; discriminate).
  split.
  - intros Hnone.
    assert (Htitle : test_plus title_class title = true
                     /\ (3 <= String.length title <= 20)%nat).
    { destruct (test_plus title_class title) eqn:Et.
      - split; [reflexivity|].
        destruct (le_lt_dec 3 (String.length title)) as [H3|H3];
          destruct (le_lt_dec (String.length title) 20) as [H20|H20];
          try (split; assumption);
          exfalso; assert (Hx : checkRep title floor = Some title_error)
            by (apply Ht; intros [_ ?]; lia); congruence.
      - exfalso. assert (Hx : checkRep title floor = Some title_error)
          by (apply Ht; intros [? _]; discriminate). congruence. }
    destruct Htitle as [Hc Hl]. repeat split; try apply Hl; try exact Hc.
    destruct floor as [| |f]; simpl.
    + exact I.
    + assert (Hx : checkRep title FloorUndefined = Some floor_error)
        by (apply Hf; split; [split; assumption|exact I]). congruence.
    + destruct (test_plus floor_class f) eqn:Ef.
      * destruct (le_lt_dec (String.length f) 3) as [H3|H3];
          [split; [reflexivity|exact H3]|].
        exfalso. assert (Hx : checkRep title (FloorString f) = Some floor_error)
          by (apply Hf; split; [split; assumption|intros [_ ?]; lia]).
        congruence.
      * exfalso. assert (Hx : checkRep title (FloorString f) = Some floor_error)
          by (apply Hf; split; [split; assumption|intros [? _]; discriminate]).
        congruence.
  - intros (Hc & Hl & Hfl).
    destruct Hcases as [H|[H|H]]; [exact H| |].
    + apply Ht in H. exfalso. apply H. split; assumption.
    + apply Hf in H. destruct H as [_ H]. destruct floor as [| |f]; simpl in *.
      * contradiction.
      * contradiction.
      * exfalso. apply H. exact Hfl.
Qed.

(** X1: [checkRep] returns [null] exactly when the title is made of one or
    more characters of the title pattern and has 3 to 20 of them, and the
    floor is [null] or has one to three upper-case letters and digits.  An
    empty floor and an [undefined] floor are refused. *)
Theorem checkRep_accepts_iff (title : string) (floor : floor_arg) :
  checkRep title floor = None <->
  test_plus title_class title = true
  /\ (3 <= String.length title <= 20)%nat
  /\ floor_ok floor.
Proof. exact (checkRep_none_iff title floor). Qed.

(** X2: a title of 3 to 20 letters, digits, whitespace characters and
    apostrophes is accepted with any floor that is [null] or one to three
    upper-case letters and digits. *)
Theorem checkRep_accepts_intended (title : string) (floor : floor_arg) :
  string_forall spec_title_class title = true ->
  (3 <= String.length title <= 20)%nat ->
  floor_ok floor ->
  checkRep title floor = None.
Proof.
  intros Hc Hl Hf. apply checkRep_none_iff. split; [|split; assumption].
  apply test_plus_forall. split.
  - intros ->. simpl in Hl. lia.
  - apply (string_forall_impl spec_title_class); [|exact Hc].
    intros c H. rewrite title_class_wider, H. reflexivity.
Qed.

Lemma checkRep_accepts_intended_witness :
  checkRep "Stata Center" (FloorString "G9") = None
  /\ checkRep "Lobby 7" FloorNull = None.
Proof.
  split.
  - apply checkRep_accepts_intended; [reflexivity|simpl; lia|].
    simpl. split; [reflexivity|lia].
  - apply checkRep_accepts_intended; [reflexivity|simpl; lia|exact I].
Defined.

(** X3: whatever the floor, a title that is too short, too long or has a
    character outside the title pattern is answered with the title message;
    the floor message is only given for a title that passes. *)
Theorem checkRep_title_first (title : string) (floor : floor_arg) :
  (test_plus title_class title = false
   \/ (String.length title < 3)%nat \/ (20 < String.length title)%nat) ->
  checkRep title floor = Some title_error.
Proof.
  intros H. apply checkRep_title_rule. intros [Hc Hl].
  destruct H as [H|[H|H]]; [congruence|lia|lia].
Qed.

Lemma checkRep_title_first_witness :
  checkRep "ab" (FloorString "toolong") = Some title_error.
Proof.
  apply checkRep_title_first. right. left. simpl. lia.
Defined.

(** ** The creation saga, every way it ends *)

Section Fresh.

Context {A : Type}.
Variable key : A -> N.

Lemma filter_out_absent (n : N) (l : list A) :
  Forall (fun x => (key x < n)%N) l ->
  filter (fun x => negb (N.eqb (key x) n)) l = l.
Proof.
  induction 1 as [|x l Hx _ IH]; simpl; [reflexivity|].
  destruct (N.eqb_spec (key x) n) as [E|_]; [lia|].
  simpl. now rewrite IH.
Qed.

Lemma filter_out_last (n : N) (l : list A) (x : A) :
  Forall (fun y => (key y < n)%N) l -> key x = n ->
  filter (fun y => negb (N.eqb (key y) n)) (l ++ [x]) = l.
Proof.
  intros Hl Hx. rewrite filter_app, filter_out_absent by exact Hl.
  simpl. rewrite Hx, N.eqb_refl. simpl. apply app_nil_r.
Qed.

Lemma find_last_fresh (n : N) (l : list A) (x : A) :
  Forall (fun y => (key y < n)%N) l -> key x = n ->
  find (fun y => N.eqb (key y) n) (l ++ [x]) = Some x.
Proof.
  intros Hl Hx. induction Hl as [|y l Hy _ IH]; simpl.
  - now rewrite Hx, N.eqb_refl.
  - destruct (N.eqb_spec (key y) n) as [E|_]; [lia|exact IH].
Qed.

Lemma find_app_old (n : N) (l : list A) (x : A) :
  key x <> n ->
  find (fun y => N.eqb (key y) n) (l ++ [x]) = find (fun y => N.eqb (key y) n) l.
Proof.
  intros Hx. induction l as [|y l IH]; simpl.
  - destruct (N.eqb_spec (key x) n); [congruence|reflexivity].
  - destruct (N.eqb (key y) n); [reflexivity|exact IH].
Qed.

Lemma Forall_lt_weaken (n : N) (l : list A) :
  Forall (fun x => (key x < n)%N) l ->
  Forall (fun x => (key x < N.succ n)%N) l.
Proof.
  intros H. eapply Forall_impl; [|exact H]. simpl. intros x Hx. lia.
Qed.

End Fresh.

(** How a failing [checkSpot] leaves the store, whatever made it fail: no
    Spot is added, the review is removed, the tag is removed when this call
    created it, and the users are as before or with the creator one up. *)
Lemma checkSpot_failure_store (sv : Services) (title : string) (creatorId : idval)
    (location : Location) (floor : floor_arg) (tag : Tag) (review : Review)
    (createdTag : bool) (w w' : World) (e : error) :
  checkSpot sv title creatorId location floor tag review createdTag w
  = (Err e, w') ->
  spotsC w' = spotsC w
  /\ reviewsC w'
     = filter (fun r => negb (N.eqb (review_id r) (review_id review))) (reviewsC w)
  /\ tagsC w'
     = (if createdTag
        then filter (fun t => negb (N.eqb (tag_id t) (tag_id tag))) (tagsC w)
        else tagsC w)
  /\ (usersC w' = usersC w
      \/ usersC w' = map (adjust_rep (id_value creatorId) 1) (usersC w)).
Proof.
  unfold checkSpot, removeIfInvalid.
  destruct (checkRep title floor).
  { destruct createdTag; intros H; injection H as _ Hw; subst w';
      repeat split; now left. }
  unfold Users_updateRep.
  change (find_user (id_value creatorId) (bump_oid w))
    with (find_user (id_value creatorId) w).
  destruct (find_user (id_value creatorId) w).
  - unfold spot_save.
    destruct (Spot_invalid sv _) as [err|].
    + destruct (match code err with Some c => _ | None => _ end), createdTag;
        intros H; injection H as _ Hw; subst w'; repeat split; now right.
    + destruct (existsb _ _); [|discriminate].
      cbn [code]. destruct createdTag;
        intros H; injection H as _ Hw; subst w'; repeat split; now right.
  - cbn [http_status known truthy NOT_FOUND Z.eqb negb].
    destruct createdTag; intros H; injection H as _ Hw; subst w';
      repeat split; now left.
Qed.

Lemma checkSpot_never_throws (sv : Services) (title : string) (creatorId : idval)
    (location : Location) (floor : floor_arg) (tag : Tag) (review : Review)
    (createdTag : bool) (w w' : World) (t : string) :
  checkSpot sv title creatorId location floor tag review createdTag w
  <> (Throw t, w').
Proof.
  unfold checkSpot, removeIfInvalid.
  destruct (checkRep title floor); [destruct createdTag; discriminate|].
  destruct (Users_updateRep sv creatorId true (bump_oid w)) as [[err|] w1].
  - destruct (truthy (http_status err)), createdTag; discriminate.
  - destruct (spot_save sv _ w1) as [[err|] w2]; [|discriminate].
    destruct (match code err with Some c => _ | None => _ end), createdTag;
      discriminate.
Qed.

(** X4: a failed [addSpot] leaves no trace in the Spots, Reviews and Tags:
    on a store whose ids all come from the driver's counter, the three
    collections are exactly as before the call, and the Users are as before
    or differ by the one point added to the creator. *)
Theorem addSpot_failure_restores (sv : Services) (title : string)
    (creatorId : idval) (location : Location) (floor : floor_arg)
    (label description : string) (rating : num) (w w' : World) (e : error) :
  ids_below w ->
  addSpot sv title creatorId location floor label description rating w
  = (Err e, w') ->
  spotsC w' = spotsC w
  /\ reviewsC w' = reviewsC w
  /\ tagsC w' = tagsC w
  /\ (usersC w' = usersC w
      \/ usersC w' = map (adjust_rep (id_value creatorId) 1) (usersC w)).
Proof.
  intros (Hrevs & Htags & _). unfold addSpot.
  destruct (Reviews_addReview sv creatorId description rating w)
    as [[err|review] w1] eqn:Hrev.
  { unfold Reviews_addReview in Hrev.
    destruct (Reviews_refuses sv creatorId description rating); [|discriminate].
    injection Hrev as _ Hw1. subst w1.
    intros H. injection H as _ Hw. subst w'. repeat split. now left. }
  destruct (Reviews_addReview_created _ _ _ _ _ _ _ Hrev) as [Hr Hw1].
  assert (Hid : review_id review = next_oid w) by (subst review; reflexivity).
  assert (Hback : filter (fun r => negb (N.eqb (review_id r) (review_id review)))
                         (reviewsC w ++ [review]) = reviewsC w).
  { rewrite Hid. now apply (filter_out_last review_id). }
  unfold Tags_getTagByLabel.
  replace (tagsC w1) with (tagsC w) by (subst w1; reflexivity).
  destruct (find (fun t => String.eqb (tag_label t) label) (tagsC w)) as [tag|].
  - intros H. apply checkSpot_failure_store in H.
    destruct H as (Hs & Hrv & Htg & Hus). subst w1.
    cbn [spotsC reviewsC tagsC usersC bump_oid set_reviewsC] in *.
    rewrite Hrv, Hback. repeat split; assumption.
  - cbn [http_status known truthy NOT_FOUND Z.eqb negb].
    destruct (Tags_addTag sv label false w1) as [[err|newTag] w2] eqn:Hadd.
    + unfold Tags_addTag in Hadd.
      destruct (Tags_refuses sv label); [|discriminate].
      injection Hadd as _ Hw2. subst w2.
      assert (Hafter : reviewsC (reviewModel_remove (review_id review) w1)
                       = reviewsC w).
      { subst w1. unfold reviewModel_remove.
        cbn [reviewsC bump_oid set_reviewsC]. exact Hback. }
      destruct (truthy (http_status err)); intros H; injection H as _ Hw;
        subst w'; (split; [|split; [exact Hafter|split]]);
        subst w1; try reflexivity; now left.
    + destruct (Tags_addTag_created _ _ _ _ _ _ Hadd) as [Ht Hw2].
      intros H. apply checkSpot_failure_store in H.
      destruct H as (Hs & Hrv & Htg & Hus).
      rewrite Hw2, Hw1 in Hs, Hrv, Htg, Hus.
      cbn [spotsC reviewsC tagsC usersC bump_oid set_reviewsC set_tagsC] in *.
      rewrite Hrv, Hback, Htg. repeat split; try assumption.
      apply (filter_out_last tag_id).
      * rewrite Ht. cbn [tag_id]. rewrite Hw1. cbn [next_oid bump_oid set_reviewsC].
        now apply Forall_lt_weaken.
      * reflexivity.
Qed.

Lemma Sample_ids_below : ids_below Sample.world.
Proof.
  unfold ids_below. simpl. repeat constructor.
Qed.

Lemma addSpot_failure_restores_witness :
  exists e w',
    addSpot Sample.sv "Stata Center" (IdString 1) Sample.mit FloorNull
            "Nap" "Sunny" (Fin 4) Sample.world = (Err e, w')
    /\ spotsC w' = spotsC Sample.world
    /\ reviewsC w' = reviewsC Sample.world
    /\ tagsC w' = tagsC Sample.world.
Proof.
  eexists. eexists. split; [reflexivity|].
  destruct (addSpot_failure_restores Sample.sv "Stata Center" (IdString 1)
              Sample.mit FloorNull "Nap" "Sunny" (Fin 4) Sample.world _ _
              Sample_ids_below eq_refl) as (Hs & Hr & Ht & _).
  repeat split; assumption.
Defined.

(** The first two steps of the saga, when neither fails: the seed review is
    stored, the tag is the stored one of that label or a new one, and
    [checkSpot] runs on the resulting store. *)
Lemma addSpot_reaches_checkSpot (sv : Services) (title : string)
    (creatorId : idval) (location : Location) (floor : floor_arg)
    (label description : string) (rating : num) (w : World) :
  Reviews_refuses sv creatorId description rating = None ->
  (find (fun t => String.eqb (tag_label t) label) (tagsC w) <> None
   \/ Tags_refuses sv label = None) ->
  let review := mkReview (next_oid w) (id_value creatorId) description rating in
  exists tag createdTag w2,
    addSpot sv title creatorId location floor label description rating w
    = checkSpot sv title creatorId location floor tag review createdTag w2
    /\ usersC w2 = usersC w /\ spotsC w2 = spotsC w /\ now w2 = now w
    /\ reviewsC w2 = (reviewsC w ++ [review])%list
    /\ tag_label tag = label
    /\ ((createdTag = false
         /\ find (fun t => String.eqb (tag_label t) label) (tagsC w) = Some tag
         /\ tagsC w2 = tagsC w
         /\ next_oid w2 = N.succ (next_oid w))
        \/ (createdTag = true
            /\ find (fun t => String.eqb (tag_label t) label) (tagsC w) = None
            /\ tag = mkTag (N.succ (next_oid w)) label false
            /\ tagsC w2 = (tagsC w ++ [tag])%list
            /\ next_oid w2 = N.succ (N.succ (next_oid w)))).
Proof.
  intros Haccept Htag review. unfold addSpot, Reviews_addReview.
  rewrite Haccept. fold review. unfold Tags_getTagByLabel.
  cbn [tagsC bump_oid set_reviewsC].
  destruct (find (fun t => String.eqb (tag_label t) label) (tagsC w))
    as [tag|] eqn:Ef.
  - exists tag, false. eexists. split; [reflexivity|].
    repeat split.
    + apply find_some in Ef. destruct Ef as [_ Ef]. now apply String.eqb_eq.
    + left. repeat split.
  - destruct Htag as [Htag|Htag]; [congruence|].
    cbn [http_status known truthy NOT_FOUND Z.eqb negb].
    unfold Tags_addTag. rewrite Htag.
    eexists. exists true. eexists. split; [reflexivity|].
    repeat split. right. repeat split.
Qed.

(** When the Review model refuses the seed review, [addSpot] hands the
    refusal to [errorHandler] and stops: nothing was written and nothing is
    removed. *)
Lemma addSpot_review_refused (sv : Services) (title : string)
    (creatorId : idval) (location : Location) (floor : floor_arg)
    (label description : string) (rating : num) (w : World) (e : error) :
  Reviews_refuses sv creatorId description rating = Some e ->
  addSpot sv title creatorId location floor label description rating w
  = (Err (errorHandler e), w).
Proof.
  intros H. unfold addSpot, Reviews_addReview. now rewrite H.
Qed.

(** X5: when the seed review is stored and the Tag is found or created, a
    title or floor that [checkRep] refuses ends the saga with BadRequest and
    the message of [checkRep]; the reputation update has not run, so the
    Users are as before, and no Spot is added. *)
Theorem addSpot_invalid_title_or_floor (sv : Services) (title : string)
    (creatorId : idval) (location : Location) (floor : floor_arg)
    (label description : string) (rating : num) (w : World) (m : string) :
  Reviews_refuses sv creatorId description rating = None ->
  (find (fun t => String.eqb (tag_label t) label) (tagsC w) <> None
   \/ Tags_refuses sv label = None) ->
  checkRep title floor = Some m ->
  exists w',
    addSpot sv title creatorId location floor label description rating w
    = (Err (known (MsgText m) (Some BAD_REQUEST)), w')
    /\ usersC w' = usersC w
    /\ spotsC w' = spotsC w
    /\ find_review (next_oid w) w' = None.
Proof.
  intros Haccept Htag Hrep.
  destruct (addSpot_reaches_checkSpot sv title creatorId location floor label
              description rating w Haccept Htag)
    as (tag & createdTag & w2 & Hrun & Hus & Hsp & _).
  rewrite Hrun. unfold checkSpot, removeIfInvalid. rewrite Hrep.
  destruct createdTag; eexists; (split; [reflexivity|]);
    (split; [exact Hus|split; [exact Hsp|]]);
    unfold find_review; cbn [reviewsC tagModel_remove set_tagsC];
    apply find_review_removed.
Qed.

(** X6: when title and floor pass but the creator has no User document, the
    saga ends with the NotFound of the User model; the Users are as before
    and no Spot is added. *)
Theorem addSpot_unknown_creator (sv : Services) (title : string)
    (creatorId : idval) (location : Location) (floor : floor_arg)
    (label description : string) (rating : num) (w : World) :
  Reviews_refuses sv creatorId description rating = None ->
  (find (fun t => String.eqb (tag_label t) label) (tagsC w) <> None
   \/ Tags_refuses sv label = None) ->
  checkRep title floor = None ->
  find_user (id_value creatorId) w = None ->
  exists w',
    addSpot sv title creatorId location floor label description rating w
    = (Err (known (MsgText (USER_NOT_FOUND sv)) (Some NOT_FOUND)), w')
    /\ usersC w' = usersC w
    /\ spotsC w' = spotsC w
    /\ find_review (next_oid w) w' = None.
Proof.
  intros Haccept Htag Hrep Hnone.
  destruct (addSpot_reaches_checkSpot sv title creatorId location floor label
              description rating w Haccept Htag)
    as (tag & createdTag & w2 & Hrun & Hus & Hsp & _).
  rewrite Hrun. unfold checkSpot, removeIfInvalid. rewrite Hrep.
  unfold Users_updateRep.
  replace (find_user (id_value creatorId) (bump_oid w2)) with (@None User)
    by (unfold find_user in *; cbn [usersC bump_oid]; now rewrite Hus).
  cbn [http_status known truthy NOT_FOUND Z.eqb negb msg].
  destruct createdTag; eexists; (split; [reflexivity|]);
    (split; [exact Hus|split; [exact Hsp|]]);
    unfold find_review; cbn [reviewsC tagModel_remove set_tagsC];
    apply find_review_removed.
Qed.

Lemma addSpot_invalid_title_or_floor_witness :
  exists w',
    addSpot Sample.sv "x" (IdString 1) Sample.mit FloorNull
            "Nap" "Sunny" (Fin 4) Sample.world
    = (Err (known (MsgText title_error) (Some BAD_REQUEST)), w')
    /\ usersC w' = usersC Sample.world.
Proof.
  destruct (addSpot_invalid_title_or_floor Sample.sv "x" (IdString 1) Sample.mit
              FloorNull "Nap" "Sunny" (Fin 4) Sample.world title_error
              eq_refl (or_intror eq_refl) eq_refl)
    as (w' & Hrun & Hus & _).
  exists w'. split; assumption.
Defined.

Lemma addSpot_unknown_creator_witness :
  exists w',
    addSpot Sample.sv "Killian Court" (IdString 9) Sample.mit FloorNull
            "Study" "Sunny" (Fin 4) Sample.world
    = (Err (known (MsgText "No such user!") (Some NOT_FOUND)), w')
    /\ spotsC w' = spotsC Sample.world.
Proof.
  assert (Htag : find (fun t => String.eqb (tag_label t) "Study")
                      (tagsC Sample.world) <> None) by discriminate.
  assert (Hrep : checkRep "Killian Court" FloorNull = None) by reflexivity.
  destruct (addSpot_unknown_creator Sample.sv "Killian Court" (IdString 9)
              Sample.mit FloorNull "Study" "Sunny" (Fin 4) Sample.world
              eq_refl (or_introl Htag) Hrep eq_refl)
    as (w' & Hrun & _ & Hsp & _).
  exists w'. split; assumption.
Defined.

Lemma existsb_title_false (title : string) (spots : list Spot) :
  (forall s, In s spots -> spot_title s <> title) ->
  existsb (fun s => String.eqb (spot_title s) title) spots = false.
Proof.
  intros H. induction spots as [|s spots IH]; simpl; [reflexivity|].
  rewrite IH by (intros x Hx; apply H; now right).
  destruct (String.eqb_spec (spot_title s) title) as [E|_]; [|reflexivity].
  exfalso. apply (H s); [now left|exact E].
Qed.

(** X7: when nothing stands in the way (the Review model accepts, the Tag
    is stored or can be created, title and floor pass, the creator exists,
    the Spot passes validation and no stored Spot has the title), [addSpot]
    succeeds.  The Spot it returns and appends to the store has the given
    title, creator and location, the given floor or "1" for [null], the
    clock's time as timestamp and no reports; its tag carries the label,
    and is the stored Tag of that label when there is one; the creator's
    reputation is one higher. *)
Theorem addSpot_succeeds (sv : Services) (title : string)
    (creatorId : idval) (location : Location) (floor : floor_arg)
    (label description : string) (rating : num) (w : World) (u : User) :
  Reviews_refuses sv creatorId description rating = None ->
  (find (fun t => String.eqb (tag_label t) label) (tagsC w) <> None
   \/ Tags_refuses sv label = None) ->
  checkRep title floor = None ->
  find_user (id_value creatorId) w = Some u ->
  (forall s, spot_title s = title -> Spot_invalid sv s = None) ->
  (forall s, In s (spotsC w) -> spot_title s <> title) ->
  exists spot w',
    addSpot sv title creatorId location floor label description rating w
    = (Ok spot, w')
    /\ spotsC w' = (spotsC w ++ [spot])%list
    /\ spot_title spot = title
    /\ spot_creator spot = id_value creatorId
    /\ spot_location spot = location
    /\ spot_floor spot = match floor with FloorString f => f | _ => "1" end
    /\ spot_timestamp spot = now w
    /\ spot_reports spot = []
    /\ (exists tag, In tag (tagsC w') /\ tag_id tag = spot_tag spot
                    /\ tag_label tag = label)
    /\ (forall tag,
          find (fun t => String.eqb (tag_label t) label) (tagsC w) = Some tag ->
          spot_tag spot = tag_id tag /\ tagsC w' = tagsC w)
    /\ find_user (id_value creatorId) w'
       = Some (mkUser (user_id u) (user_rep u + 1)).
Proof.
  intros Haccept Htag Hrep Hu Hvalid Hfree.
  destruct (addSpot_reaches_checkSpot sv title creatorId location floor label
              description rating w Haccept Htag)
    as (tag & createdTag & w2 & Hrun & Hus & Hsp & Hnow & Hrv & Hlabel & Hcase).
  rewrite Hrun. unfold checkSpot. rewrite Hrep.
  unfold Users_updateRep.
  replace (find_user (id_value creatorId) (bump_oid w2)) with (Some u)
    by (unfold find_user in *; cbn [usersC bump_oid]; now rewrite Hus).
  unfold spot_save. rewrite Hvalid by reflexivity.
  cbn [spotsC set_usersC bump_oid spot_title usersC].
  rewrite Hsp, (existsb_title_false _ _ Hfree).
  eexists. eexists. split; [reflexivity|].
  cbn [spotsC set_spotsC set_usersC bump_oid usersC tagsC spot_title
       spot_creator spot_location spot_floor spot_timestamp spot_reports
       spot_tag].
  rewrite ?Hnow, ?Hus.
  split; [reflexivity|]. split; [reflexivity|]. split; [reflexivity|].
  split; [reflexivity|]. split; [destruct floor; reflexivity|].
  split; [reflexivity|]. split; [reflexivity|]. split; [|split].
  - exists tag. split; [|split; [reflexivity|exact Hlabel]].
    destruct Hcase as [(_ & Hf & Ht & _)|(_ & _ & _ & Ht & _)]; rewrite Ht.
    + apply find_some in Hf. apply Hf.
    + apply in_or_app. right. now left.
  - intros tag' Hf'.
    destruct Hcase as [(_ & Hf & Ht & _)|(_ & Hf & _)]; [|congruence].
    rewrite Hf in Hf'. injection Hf' as <-. split; [reflexivity|exact Ht].
  - unfold find_user. cbn [usersC]. now apply find_user_adjusted.
Qed.

Lemma addSpot_succeeds_witness :
  exists spot w',
    addSpot Sample.sv "Killian Court" (IdString 1) Sample.mit FloorNull
            "Study" "Sunny" (Fin 4) Sample.world = (Ok spot, w')
    /\ spot_floor spot = "1"
    /\ spot_tag spot = 10%N
    /\ find_user 1 w' = Some (mkUser 1 1).
Proof.
  assert (Hfree : forall s, In s (spotsC Sample.world)
                            -> spot_title s <> "Killian Court").
  { simpl. intros s [<-|[<-|[]]]; discriminate. }
  assert (Htag : find (fun t => String.eqb (tag_label t) "Study")
                      (tagsC Sample.world) <> None) by discriminate.
  assert (Hrep : checkRep "Killian Court" FloorNull = None) by reflexivity.
  destruct (addSpot_succeeds Sample.sv "Killian Court" (IdString 1) Sample.mit
              FloorNull "Study" "Sunny" (Fin 4) Sample.world Sample.alice
              eq_refl (or_introl Htag) Hrep eq_refl
              (fun _ _ => eq_refl) Hfree)
    as (spot & w' & Hrun & _ & _ & _ & _ & Hfloor & _ & _ & _ & Hold & Hup).
  exists spot, w'. split; [exact Hrun|]. split; [exact Hfloor|].
  split; [|exact Hup].
  exact (proj1 (Hold Sample.study eq_refl)).
Defined.

(** A successful [checkSpot], in full: the Spot gets the next id and is
    appended; nothing else in the Reviews, Tags and Spots changes. *)
Lemma checkSpot_ok_store (sv : Services) (title : string) (creatorId : idval)
    (location : Location) (floor : floor_arg) (tag : Tag) (review : Review)
    (createdTag : bool) (w w' : World) (spot : Spot) :
  checkSpot sv title creatorId location floor tag review createdTag w
  = (Ok spot, w') ->
  spot_id spot = next_oid w
  /\ spot_title spot = title
  /\ spot_reviews spot = [review_id review]
  /\ spot_reports spot = []
  /\ spotsC w' = (spotsC w ++ [spot])%list
  /\ reviewsC w' = reviewsC w
  /\ tagsC w' = tagsC w
  /\ usersC w' = map (adjust_rep (id_value creatorId) 1) (usersC w)
  /\ next_oid w' = N.succ (next_oid w)
  /\ ~ In title (map spot_title (spotsC w)).
Proof.
  unfold checkSpot, removeIfInvalid.
  destruct (checkRep title floor);
    [destruct createdTag; discriminate|].
  destruct (Users_updateRep sv creatorId true (bump_oid w)) as [[err|] w1] eqn:Eu.
  { destruct (truthy (http_status err)), createdTag; discriminate. }
  unfold Users_updateRep in Eu.
  destruct (find_user (id_value creatorId) (bump_oid w)); [|discriminate].
  injection Eu as Ew1. subst w1.
  unfold spot_save.
  destruct (Spot_invalid sv _) as [err|].
  { destruct (match code err with Some c => _ | None => _ end), createdTag;
      discriminate. }
  destruct (existsb _ _) eqn:Ex.
  { cbn [code]. destruct createdTag; discriminate. }
  intros H. injection H as Hspot Hw. subst spot w'.
  repeat split.
  cbn [spotsC set_usersC bump_oid spot_title] in Ex.
  intros Hin. apply in_map_iff in Hin. destruct Hin as (s & Hs & Hin).
  assert (Ht : existsb (fun s0 => String.eqb (spot_title s0) title) (spotsC w) = true).
  { apply existsb_exists. exists s. split; [exact Hin|now apply String.eqb_eq]. }
  congruence.
Qed.

Lemma addSpot_ok_inv (sv : Services) (title : string)
    (creatorId : idval) (location : Location) (floor : floor_arg)
    (label description : string) (rating : num) (w w' : World) (spot : Spot) :
  addSpot sv title creatorId location floor label description rating w
  = (Ok spot, w') ->
  Reviews_refuses sv creatorId description rating = None
  /\ (find (fun t => String.eqb (tag_label t) label) (tagsC w) <> None
      \/ Tags_refuses sv label = None).
Proof.
  unfold addSpot, Reviews_addReview.
  destruct (Reviews_refuses sv creatorId description rating); [discriminate|].
  intros H. split; [reflexivity|].
  unfold Tags_getTagByLabel in H. cbn [tagsC bump_oid set_reviewsC] in H.
  destruct (find (fun t => String.eqb (tag_label t) label) (tagsC w));
    [left; discriminate|].
  cbn [http_status known truthy NOT_FOUND Z.eqb negb] in H.
  unfold Tags_addTag in H.
  destruct (Tags_refuses sv label) as [err|]; [|now right].
  destruct (truthy (http_status err)); discriminate.
Qed.

(** Where [addSpot] leaves the Spots: as they were, or with the returned
    Spot appended, whose title no stored Spot had. *)
Lemma addSpot_spots (sv : Services) (title : string)
    (creatorId : idval) (location : Location) (floor : floor_arg)
    (label description : string) (rating : num) (w w' : World)
    (r : result Spot) :
  addSpot sv title creatorId location floor label description rating w = (r, w') ->
  spotsC w' = spotsC w
  \/ exists spot, r = Ok spot /\ spotsC w' = (spotsC w ++ [spot])%list
                  /\ spot_reports spot = []
                  /\ ~ In (spot_title spot) (map spot_title (spotsC w)).
Proof.
  intros Hrun. destruct r as [spot|e|t].
  - right. exists spot. split; [reflexivity|].
    destruct (addSpot_ok_inv _ _ _ _ _ _ _ _ _ _ _ Hrun) as [Haccept Htag].
    destruct (addSpot_reaches_checkSpot sv title creatorId location floor label
                description rating w Haccept Htag)
      as (tag & createdTag & w2 & Hrun2 & _ & Hsp & _).
    rewrite Hrun2 in Hrun. apply checkSpot_ok_store in Hrun.
    destruct Hrun as (_ & Ht & _ & Hrp & Hs & _ & _ & _ & _ & Hfree).
    rewrite Hsp in Hs, Hfree. rewrite Ht. repeat split; assumption.
  - left. revert Hrun. unfold addSpot.
    destruct (Reviews_addReview sv creatorId description rating w)
      as [[err|review] w1] eqn:Hrev.
    { unfold Reviews_addReview in Hrev.
      destruct (Reviews_refuses sv creatorId description rating); [|discriminate].
      injection Hrev as _ Hw1. subst w1. intros H. now injection H as _ <-. }
    destruct (Reviews_addReview_created _ _ _ _ _ _ _ Hrev) as [_ Hw1].
    assert (Hsp : spotsC w1 = spotsC w) by (subst w1; reflexivity).
    destruct (Tags_getTagByLabel sv label w1) as [err|tag].
    + destruct (truthy (http_status err)).
      * destruct (Tags_addTag sv label false w1) as [[err'|newTag] w2] eqn:Hadd.
        -- unfold Tags_addTag in Hadd.
           destruct (Tags_refuses sv label); [|discriminate].
           injection Hadd as _ Hw2. subst w2.
           destruct (truthy (http_status err')); intros H;
             injection H as _ <-; exact Hsp.
        -- destruct (Tags_addTag_created _ _ _ _ _ _ Hadd) as [_ Hw2].
           intros H. apply checkSpot_failure_store in H.
           destruct H as (Hs & _). rewrite Hs, Hw2. exact Hsp.
      * intros H. injection H as _ <-. exact Hsp.
    + intros H. apply checkSpot_failure_store in H.
      destruct H as (Hs & _). now rewrite Hs.
  - exfalso. revert Hrun. unfold addSpot.
    destruct (Reviews_addReview sv creatorId description rating w)
      as [[err|review] w1]; [discriminate|].
    destruct (Tags_getTagByLabel sv label w1) as [err|tag].
    + destruct (truthy (http_status err)); [|discriminate].
      destruct (Tags_addTag sv label false w1) as [[err'|newTag] w2].
      * destruct (truthy (http_status err')); discriminate.
      * apply checkSpot_never_throws.
    + apply checkSpot_never_throws.
Qed.

(** X8: after a successful [addSpot] on a store whose ids come from the
    driver's counter, [getSpotById] with the id of the returned Spot
    answers with that Spot, and its populated reviews are the one seed
    review, written by the creator with the given description and rating. *)
Theorem addSpot_then_getSpotById (sv : Services) (title : string)
    (creatorId : idval) (location : Location) (floor : floor_arg)
    (label description : string) (rating : num) (w w' : World) (spot : Spot) :
  ids_below w ->
  addSpot sv title creatorId location floor label description rating w
  = (Ok spot, w') ->
  exists loaded w'',
    getSpotById (IdString (spot_id spot)) w' = (Ok loaded, w'')
    /\ l_doc loaded = spot
    /\ map pr_review (l_reviews loaded)
       = [mkReview (next_oid w) (id_value creatorId) description rating].
Proof.
  intros (Hrevs & _ & Hspots) Hrun.
  destruct (addSpot_ok_inv _ _ _ _ _ _ _ _ _ _ _ Hrun) as [Haccept Htag].
  destruct (addSpot_reaches_checkSpot sv title creatorId location floor label
              description rating w Haccept Htag)
    as (tag & createdTag & w2 & Hrun2 & _ & Hsp & _ & Hrv & _ & Hcase).
  rewrite Hrun2 in Hrun. apply checkSpot_ok_store in Hrun.
  destruct Hrun as (Hid & _ & Hlist & _ & Hs & Hr & _).
  assert (Hnext : (next_oid w < next_oid w2)%N).
  { destruct Hcase as [(_ & _ & _ & Hn)|(_ & _ & _ & _ & Hn)]; rewrite Hn; lia. }
  assert (Hfound : find_spot (spot_id spot) w' = Some spot).
  { unfold find_spot. rewrite Hs, Hsp. apply (find_last_fresh spot_id); [|reflexivity].
    eapply Forall_impl; [|exact Hspots]. simpl. intros s [Hlt _]. lia. }
  unfold getSpotById. cbn [id_value]. rewrite Hfound.
  eexists. eexists. split; [reflexivity|]. split; [reflexivity|].
  cbn [l_reviews load_spot]. rewrite Hlist. cbn [review_id populate_reviews].
  assert (Hrev : find_review (next_oid w) w'
                 = Some (mkReview (next_oid w) (id_value creatorId) description rating)).
  { unfold find_review. rewrite Hr, Hrv.
    apply (find_last_fresh review_id); [exact Hrevs|reflexivity]. }
  rewrite Hrev. reflexivity.
Qed.

Lemma addSpot_then_getSpotById_witness :
  exists spot w' loaded w'',
    addSpot Sample.sv "Killian Court" (IdString 1) Sample.mit FloorNull
            "Study" "Sunny" (Fin 4) Sample.world = (Ok spot, w')
    /\ getSpotById (IdString (spot_id spot)) w' = (Ok loaded, w'')
    /\ l_doc loaded = spot.
Proof.
  eexists. eexists.
  destruct (addSpot_then_getSpotById Sample.sv "Killian Court" (IdString 1)
              Sample.mit FloorNull "Study" "Sunny" (Fin 4) Sample.world _ _
              Sample_ids_below eq_refl)
    as (loaded & w'' & Hget & Hdoc & _).
  exists loaded, w''. split; [reflexivity|]. split; assumption.
Defined.

(** ** Adding a review, every way it ends *)

Lemma reduce_no_init_some {A : Type} (f : A -> A -> A) (l : list A) (x : A) :
  reduce_no_init f (l ++ [x]) <> None.
Proof. destruct l; discriminate. Qed.

(** What [addReviewToSpot] does to the store.  Before the Review is
    created nothing is written.  Once it is created, the update of the Spot
    either fails, and the Review stays behind with the Spots as they were,
    or succeeds, and the Spot gets the ids of its populated reviews followed
    by the new one. *)
Lemma addReviewToSpot_store (rt : Runtime) (sv : Services)
    (spotId creatorId : idval) (description : string) (rating : num)
    (w w' : World) (r : result (Spot * Review)) :
  addReviewToSpot rt sv spotId creatorId description rating w = (r, w') ->
  ((forall x, r <> Ok x) /\ same_store w w')
  \/ (exists s rating' err,
       let review := mkReview (next_oid w) (id_value creatorId) description rating in
       let ids := (populated_ids w s ++ [next_oid w])%list in
       find_spot (id_value spotId) w = Some s
       /\ Update_fails sv (spot_id s) ids rating' = Some err
       /\ r = Err (unknown (MsgError err))
       /\ reviewsC w' = (reviewsC w ++ [review])%list
       /\ tagsC w' = tagsC w
       /\ usersC w' = usersC w
       /\ spotsC w' = spotsC w)
  \/ exists s rating',
       let review := mkReview (next_oid w) (id_value creatorId) description rating in
       let ids := (populated_ids w s ++ [next_oid w])%list in
       find_spot (id_value spotId) w = Some s
       /\ r = Ok (with_reviews_rating ids rating' s, review)
       /\ reviewsC w' = (reviewsC w ++ [review])%list
       /\ tagsC w' = tagsC w
       /\ usersC w' = usersC w
       /\ next_oid w' = N.succ (next_oid w)
       /\ spotsC w'
          = map (fun x => if N.eqb (spot_id x) (spot_id s)
                          then with_reviews_rating ids rating' x else x)
                (spotsC w).
Proof.
  unfold addReviewToSpot, getSpotById.
  destruct (find_spot (id_value spotId) w) as [s|] eqn:Hs.
  2:{ intros H. injection H as <- <-. left. split; [discriminate|].
      repeat split. }
  destruct (existsb creator_is_null _).
  { intros H. injection H as <- <-. left. split; [discriminate|]. repeat split. }
  destruct (_ || _).
  { intros H. injection H as <- <-. left. split; [discriminate|]. repeat split. }
  unfold Reviews_addReview.
  destruct (Reviews_refuses sv creatorId description rating).
  { intros H. injection H as <- <-. left. split; [discriminate|]. repeat split. }
  cbn [l_reviews load_spot l_doc review_creator].
  rewrite map_app.
  destruct (reduce_no_init _ _) as [total|] eqn:Hred.
  2:{ exfalso. revert Hred. cbn [map]. apply reduce_no_init_some. }
  rewrite map_app. cbn [map pr_review review_id].
  fold (populated_ids w s).
  destruct (Update_fails sv (spot_id s) _ _) as [err|] eqn:Hup.
  - intros H. injection H as <- <-. right. left.
    exists s. eexists. exists err. cbv zeta. split; [reflexivity|].
    split; [exact Hup|]. repeat split.
  - intros H. injection H as <- <-. right. right.
    exists s. eexists. cbv zeta. split; [reflexivity|].
    split; [|repeat split]; reflexivity.
Qed.

(** X9: when [addReviewToSpot] does not succeed, the Spots, the Tags and the
    Users are as before.  So are the Reviews when the Spot is missing, the
    caller is refused, the Review model refuses or an exception is raised;
    the one other failure is that of the final update of the Spot, whose
    error is passed on as the message, and then the Review created just
    before stays in the store although no Spot lists it. *)
Theorem addReviewToSpot_failure_effects (rt : Runtime) (sv : Services)
    (spotId creatorId : idval) (description : string) (rating : num)
    (w w' : World) (r : result (Spot * Review)) :
  addReviewToSpot rt sv spotId creatorId description rating w = (r, w') ->
  (forall x, r <> Ok x) ->
  spotsC w' = spotsC w /\ tagsC w' = tagsC w /\ usersC w' = usersC w
  /\ (reviewsC w' = reviewsC w
      \/ exists s ids rating' err,
           find_spot (id_value spotId) w = Some s
           /\ Update_fails sv (spot_id s) ids rating' = Some err
           /\ r = Err (unknown (MsgError err))
           /\ reviewsC w'
              = (reviewsC w
                 ++ [mkReview (next_oid w) (id_value creatorId) description
                              rating])%list).
Proof.
  intros Hrun Hfail.
  destruct (addReviewToSpot_store _ _ _ _ _ _ _ _ _ Hrun)
    as [[_ Hsame]
       |[(s & rating' & err & Hs & Hup & Hr & Hrv & Htg & Hus & Hsp)
        |(s & rating' & _ & Hr & _)]].
  - destruct Hsame as (Hrv & Htg & Hus & Hsp). repeat split; try assumption.
    now left.
  - repeat split; try assumption. right.
    exists s. eexists. exists rating', err. repeat split; eassumption.
  - exfalso. eapply Hfail. exact Hr.
Qed.

(** On the sample store: the second review of user 1 is refused and no
    Review is written; with a store that refuses the update, the review of
    user 3 stays behind and the Spot is as before. *)
Lemma addReviewToSpot_failure_effects_witness :
  (exists r w',
     addReviewToSpot Sample.rt Sample.sv (IdString 30) (IdString 1) "Again" (Fin 1)
                     Sample.world = (r, w')
     /\ spotsC w' = spotsC Sample.world
     /\ reviewsC w' = reviewsC Sample.world)
  /\ (exists r w',
        addReviewToSpot Sample.rt Sample.sv_no_update (IdString 30) (IdString 3)
                        "Nice" (Fin 3) Sample.world = (r, w')
        /\ spotsC w' = spotsC Sample.world
        /\ reviewsC w'
           = (reviewsC Sample.world ++ [mkReview 100 3 "Nice" (Fin 3)])%list).
Proof.
  split.
  - eexists. eexists. split; [reflexivity|].
    split; [|reflexivity].
    apply (addReviewToSpot_failure_effects Sample.rt Sample.sv (IdString 30)
             (IdString 1) "Again" (Fin 1) Sample.world _ _ eq_refl).
    intros x. discriminate.
  - eexists. eexists. split; [reflexivity|].
    split; [|reflexivity].
    apply (addReviewToSpot_failure_effects Sample.rt Sample.sv_no_update
             (IdString 30) (IdString 3) "Nice" (Fin 3) Sample.world _ _ eq_refl).
    intros x. discriminate.
Defined.

Lemma populated_ids_stored (w : World) (ids : list N) :
  Forall (fun n => find_review n w <> None) ids ->
  map (fun r => review_id (pr_review r)) (populate_reviews w ids) = ids.
Proof.
  induction 1 as [|n ids Hn _ IH]; simpl; [reflexivity|].
  destruct (find_review n w) as [r|] eqn:E; [|congruence].
  simpl. rewrite IH. f_equal. apply find_some in E. destruct E as [_ E].
  now apply N.eqb_eq.
Qed.

(** X10: a successful [addReviewToSpot] on a Spot whose listed reviews all
    have documents stores one new Review, written by the caller with the
    given description and rating, and appends its id to the Spot's review
    list; the Spot it returns is the stored one; every other Spot, the Tags
    and the Users are unchanged. *)
Theorem addReviewToSpot_appends_review (rt : Runtime) (sv : Services)
    (spotId creatorId : idval) (description : string) (rating : num)
    (w w' : World) (s spot : Spot) (review : Review) :
  find_spot (id_value spotId) w = Some s ->
  reviews_stored w s ->
  addReviewToSpot rt sv spotId creatorId description rating w
  = (Ok (spot, review), w') ->
  review = mkReview (next_oid w) (id_value creatorId) description rating
  /\ reviewsC w' = (reviewsC w ++ [review])%list
  /\ spot_reviews spot = (spot_reviews s ++ [review_id review])%list
  /\ spot_reports spot = spot_reports s
  /\ find_spot (id_value spotId) w' = Some spot
  /\ (forall m, m <> id_value spotId -> find_spot m w' = find_spot m w)
  /\ tagsC w' = tagsC w
  /\ usersC w' = usersC w.
Proof.
  intros Hs Hstored Hrun.
  destruct (addReviewToSpot_store _ _ _ _ _ _ _ _ _ Hrun)
    as [[Hfail _]
       |[(? & ? & ? & _ & _ & Hr & _)
        |(s' & rating' & Hs' & Hr & Hrv & Htg & Hus & _ & Hsp)]].
  { exfalso. eapply Hfail. reflexivity. }
  { discriminate. }
  rewrite Hs in Hs'. injection Hs' as <-.
  injection Hr as Hspot Hreview.
  pose proof (find_spot_id _ _ _ Hs) as Hid.
  unfold populated_ids in *. rewrite (populated_ids_stored _ _ Hstored) in *.
  split; [exact Hreview|]. split; [now rewrite Hreview|].
  split; [rewrite Hspot, Hreview; reflexivity|].
  split; [rewrite Hspot; reflexivity|].
  split; [|split; [|split; assumption]].
  - rewrite Hspot.
    change (find_spot (id_value spotId) w')
      with (find (fun x => N.eqb (spot_id x) (id_value spotId)) (spotsC w')).
    rewrite Hsp, Hid.
    apply (find_spot_modified (id_value spotId) _ w); [reflexivity|exact Hs].
  - intros m Hm.
    change (find_spot m w') with (find (fun x => N.eqb (spot_id x) m) (spotsC w')).
    rewrite Hsp, Hid.
    apply (find_spot_modify_other (id_value spotId) m _ w); [reflexivity|exact Hm].
Qed.

Lemma Sample_stata_reviews_stored : reviews_stored Sample.world Sample.stata.
Proof. repeat constructor; discriminate. Qed.

Lemma addReviewToSpot_appends_review_witness :
  exists spot review w',
    addReviewToSpot Sample.rt Sample.sv (IdString 30) (IdString 3) "Nice" (Fin 3)
                    Sample.world = (Ok (spot, review), w')
    /\ spot_reviews spot = [20%N; 21%N; 100%N]
    /\ review = mkReview 100 3 "Nice" (Fin 3).
Proof.
  eexists. eexists. eexists. split; [reflexivity|].
  destruct (addReviewToSpot_appends_review Sample.rt Sample.sv (IdString 30)
              (IdString 3) "Nice" (Fin 3) Sample.world _ Sample.stata _ _
              eq_refl Sample_stata_reviews_stored eq_refl)
    as (Hreview & _ & Hlist & _).
  split; [exact Hlist|exact Hreview].
Defined.

Lemma find_app_some {A : Type} (p : A -> bool) (l l' : list A) (x : A) :
  find p l = Some x -> find p (l ++ l') = Some x.
Proof.
  induction l as [|y l IH]; simpl; [discriminate|].
  destruct (p y); [trivial|exact IH].
Qed.

Lemma populate_reviews_again (w w' : World) (extra : list Review) (ids : list N) :
  reviewsC w' = (reviewsC w ++ extra)%list ->
  usersC w' = usersC w ->
  populate_reviews w'
    (map (fun r => review_id (pr_review r)) (populate_reviews w ids))
  = populate_reviews w ids.
Proof.
  intros Hrv Hus. induction ids as [|n ids IH]; simpl; [reflexivity|].
  destruct (find_review n w) as [r|] eqn:E; [|exact IH].
  simpl. pose proof E as Hid. apply find_some in Hid. destruct Hid as [_ Hid].
  apply N.eqb_eq in Hid. rewrite Hid.
  assert (E' : find_review n w' = Some r).
  { unfold find_review in *. rewrite Hrv. now apply find_app_some. }
  rewrite E', IH. f_equal. unfold populate_review, find_user. now rewrite Hus.
Qed.

Lemma populate_reviews_app (w : World) (a b : list N) :
  populate_reviews w (a ++ b) = (populate_reviews w a ++ populate_reviews w b)%list.
Proof.
  induction a as [|n a IH]; simpl; [reflexivity|].
  destruct (find_review n w); simpl; now rewrite IH.
Qed.

(** X11: after a successful [addReviewToSpot] on a store whose ids come
    from the driver's counter, [getSpotById] answers with the Spot that was
    returned, and its populated reviews are those it had before, in the same
    order, followed by the new Review. *)
Theorem addReviewToSpot_then_getSpotById (rt : Runtime) (sv : Services)
    (spotId creatorId : idval) (description : string) (rating : num)
    (w w' : World) (s spot : Spot) (review : Review) :
  ids_below w ->
  find_spot (id_value spotId) w = Some s ->
  addReviewToSpot rt sv spotId creatorId description rating w
  = (Ok (spot, review), w') ->
  exists loaded w'',
    getSpotById spotId w' = (Ok loaded, w'')
    /\ l_doc loaded = spot
    /\ map pr_review (l_reviews loaded)
       = (map pr_review (populate_reviews w (spot_reviews s)) ++ [review])%list.
Proof.
  intros (Hrevs & _) Hs Hrun.
  destruct (addReviewToSpot_store _ _ _ _ _ _ _ _ _ Hrun)
    as [[Hfail _]
       |[(? & ? & ? & _ & _ & Hr & _)
        |(s' & rating' & Hs' & Hr & Hrv & _ & Hus & _ & Hsp)]].
  { exfalso. eapply Hfail. reflexivity. }
  { discriminate. }
  rewrite Hs in Hs'. injection Hs' as <-.
  injection Hr as Hspot Hreview.
  pose proof (find_spot_id _ _ _ Hs) as Hid.
  assert (Hfound : find_spot (id_value spotId) w' = Some spot).
  { rewrite Hspot.
    change (find_spot (id_value spotId) w')
      with (find (fun x => N.eqb (spot_id x) (id_value spotId)) (spotsC w')).
    rewrite Hsp, Hid.
    apply (find_spot_modified (id_value spotId) _ w); [reflexivity|exact Hs]. }
  unfold getSpotById. rewrite Hfound.
  eexists. eexists. split; [reflexivity|]. split; [reflexivity|].
  cbn [l_reviews load_spot]. rewrite Hspot.
  cbn [spot_reviews with_reviews_rating]. unfold populated_ids.
  rewrite populate_reviews_app.
  rewrite (populate_reviews_again w w' _ (spot_reviews s) Hrv Hus).
  rewrite map_app. f_equal.
  cbn [populate_reviews].
  assert (Hnew : find_review (next_oid w) w' = Some review).
  { unfold find_review. rewrite Hrv, Hreview.
    apply (find_last_fresh review_id); [exact Hrevs|reflexivity]. }
  rewrite Hnew. reflexivity.
Qed.

Lemma addReviewToSpot_then_getSpotById_witness :
  exists spot review w' loaded w'',
    addReviewToSpot Sample.rt Sample.sv (IdString 30) (IdString 3) "Nice" (Fin 3)
                    Sample.world = (Ok (spot, review), w')
    /\ getSpotById (IdString 30) w' = (Ok loaded, w'')
    /\ map pr_review (l_reviews loaded)
       = [Sample.review20; Sample.review21; review].
Proof.
  eexists. eexists. eexists.
  destruct (addReviewToSpot_then_getSpotById Sample.rt Sample.sv (IdString 30)
              (IdString 3) "Nice" (Fin 3) Sample.world _ Sample.stata _ _
              Sample_ids_below eq_refl eq_refl)
    as (loaded & w'' & Hget & _ & Hrevs).
  exists loaded, w''. split; [reflexivity|]. split; [exact Hget|exact Hrevs].
Defined.

(** X12: a Spot one of whose stored reviews was written by a user without a
    User document cannot be reviewed by anyone: [addReviewToSpot] raises a
    TypeError while looking for the caller among the authors, before any
    Review is created. *)
Theorem addReviewToSpot_orphan_author (rt : Runtime) (sv : Services)
    (spotId creatorId : idval) (description : string) (rating : num)
    (w : World) (s : Spot) :
  find_spot (id_value spotId) w = Some s ->
  (exists n, In n (review_authors w s) /\ find_user n w = None) ->
  exists t w',
    addReviewToSpot rt sv spotId creatorId description rating w = (Throw t, w')
    /\ same_store w w'.
Proof.
  intros Hs (n & Hin & Hnone).
  unfold addReviewToSpot, getSpotById. rewrite Hs.
  cbn [l_reviews load_spot].
  assert (Hnull : existsb creator_is_null (populate_reviews w (spot_reviews s)) = true).
  { unfold review_authors in Hin. apply in_map_iff in Hin.
    destruct Hin as (r & Hr & Hin). apply existsb_exists. exists r.
    split; [exact Hin|].
    clear Hs. induction (spot_reviews s) as [|m ids IH]; simpl in Hin; [contradiction|].
    destruct (find_review m w) as [rv|]; [|now apply IH].
    destruct Hin as [<-|Hin]; [|now apply IH].
    unfold creator_is_null, populate_review. cbn [pr_creator].
    cbn [pr_review populate_review] in Hr. rewrite Hr, Hnone. reflexivity. }
  rewrite Hnull. eexists. eexists. split; [reflexivity|]. repeat split.
Qed.

Lemma addReviewToSpot_orphan_author_witness :
  exists t w',
    addReviewToSpot Sample.rt Sample.sv (IdString 32) (IdString 3) "Nice" (Fin 3)
                    Sample.world_orphan = (Throw t, w').
Proof.
  destruct (addReviewToSpot_orphan_author Sample.rt Sample.sv (IdString 32)
              (IdString 3) "Nice" (Fin 3) Sample.world_orphan Sample.killian
              eq_refl) as (t & w' & Hrun & _).
  - exists 7%N. split; [now left|reflexivity].
  - exists t, w'. exact Hrun.
Defined.

Lemma Sample_stata_authors_stored : authors_stored Sample.world Sample.stata.
Proof. repeat constructor; discriminate. Qed.

(** X13: a user who wrote one of the stored reviews of a Spot, and whose id
    comes as an ObjectID or as the lower-case hex string an ObjectID prints,
    cannot review it again: the call is answered with Forbidden and none of
    the four collections changes.  (The authors of the stored reviews are
    taken to have their User documents.) *)
Theorem addReviewToSpot_second_review_refused (rt : Runtime) (sv : Services)
    (spotId creatorId : idval) (description : string) (rating : num)
    (w : World) (s : Spot) :
  find_spot (id_value spotId) w = Some s ->
  authors_stored w s ->
  canonical creatorId ->
  In (id_value creatorId) (review_authors w s) ->
  exists w',
    addReviewToSpot rt sv spotId creatorId description rating w
    = (Err (known (MsgText "You already submitted a review for this spot!")
                  (Some FORBIDDEN)), w')
    /\ same_store w w'.
Proof.
  intros Hs Hstored Hc Hin.
  exact (addReviewToSpot_author_again rt sv spotId creatorId description rating
           w s Hs Hstored Hc Hin).
Qed.

Lemma addReviewToSpot_second_review_refused_witness :
  exists w',
    addReviewToSpot Sample.rt Sample.sv (IdString 30) (IdString 2) "Again" (Fin 1)
                    Sample.world
    = (Err (known (MsgText "You already submitted a review for this spot!")
                  (Some FORBIDDEN)), w')
    /\ same_store Sample.world w'.
Proof.
  apply (addReviewToSpot_second_review_refused Sample.rt Sample.sv (IdString 30)
           (IdString 2) "Again" (Fin 1) Sample.world Sample.stata
           eq_refl Sample_stata_authors_stored eq_refl).
  simpl. tauto.
Defined.

(** ** Deleting and reporting, every way they end *)

(** What [deleteSpot] does to the store: the Reviews, Tags and Users are
    never touched; the Spots are as before unless the call succeeds, which
    it does only for a stored Spot created by the caller. *)
Lemma deleteSpot_store (rt : Runtime) (spotId userId : idval) (w w' : World)
    (r : result unit) :
  deleteSpot rt spotId userId w = (r, w') ->
  reviewsC w' = reviewsC w /\ tagsC w' = tagsC w /\ usersC w' = usersC w
  /\ (((forall x, r <> Ok x) /\ spotsC w' = spotsC w)
      \/ (r = Ok tt
          /\ w' = spotModel_remove (id_value spotId) (bump_heap w 1)
          /\ exists s, find_spot (id_value spotId) w = Some s
                       /\ spot_creator s = id_value userId)).
Proof.
  unfold deleteSpot, getSpotById.
  destruct (find_spot (id_value spotId) w) as [s|] eqn:Hs.
  2:{ intros H. injection H as <- <-. repeat split. left. split;
        [discriminate|reflexivity]. }
  cbn [l_creator load_spot].
  change (JSON_stringify (IdObject (heap_next w) (spot_creator s)))
    with (JSON_stringify_oid (spot_creator s)).
  destruct (String.eqb (JSON_stringify_oid (spot_creator s))
                       (JSON_stringify userId)) eqn:E; cbn [negb].
  2:{ intros H. injection H as <- <-. repeat split. left. split;
        [discriminate|reflexivity]. }
  apply JSON_eqb_value in E. symmetry in E.
  destruct (num_gt _ _).
  { intros H. injection H as <- <-. repeat split. left. split;
      [discriminate|reflexivity]. }
  intros H. injection H as <- <-. repeat split. right.
  split; [reflexivity|]. split; [reflexivity|]. exists s. split; [reflexivity|exact E].
Qed.

(** X14: [deleteSpot] removes a Spot only for its creator: a successful call
    means the Spot was stored and the caller's id is its creator's, and
    afterwards no Spot has the id; an unsuccessful call leaves the Spots as
    they were. *)
Theorem deleteSpot_only_creator (rt : Runtime) (spotId userId : idval)
    (w w' : World) (r : result unit) :
  deleteSpot rt spotId userId w = (r, w') ->
  (r = Ok tt ->
     (exists s, find_spot (id_value spotId) w = Some s
                /\ spot_creator s = id_value userId)
     /\ find_spot (id_value spotId) w' = None)
  /\ (r <> Ok tt -> spotsC w' = spotsC w).
Proof.
  intros Hrun. destruct (deleteSpot_store _ _ _ _ _ _ Hrun)
    as (_ & _ & _ & [[Hfail Hsp]|(Hr & Hw & Hs)]).
  - split; [intros Hr; exfalso; now apply (Hfail tt)|intros _; exact Hsp].
  - split; [|intros Hne; congruence].
    intros _. split; [exact Hs|]. rewrite Hw. apply find_spot_removed.
Qed.

Lemma deleteSpot_only_creator_witness :
  exists r w',
    deleteSpot Sample.rt (IdString 30) (IdString 2) Sample.world = (r, w')
    /\ r <> Ok tt
    /\ spotsC w' = spotsC Sample.world.
Proof.
  eexists. eexists. split; [reflexivity|]. split; [discriminate|].
  apply (deleteSpot_only_creator Sample.rt (IdString 30) (IdString 2)
           Sample.world _ _ eq_refl).
  discriminate.
Defined.

(** X15: [deleteSpot] does not cascade: whatever the outcome, the Reviews,
    the Tags and the Users are as before, and every Spot with another id is
    still found unchanged. *)
Theorem deleteSpot_no_cascade (rt : Runtime) (spotId userId : idval)
    (w w' : World) (r : result unit) :
  deleteSpot rt spotId userId w = (r, w') ->
  reviewsC w' = reviewsC w /\ tagsC w' = tagsC w /\ usersC w' = usersC w
  /\ (forall m, m <> id_value spotId -> find_spot m w' = find_spot m w).
Proof.
  intros Hrun. destruct (deleteSpot_store _ _ _ _ _ _ Hrun)
    as (Hr & Ht & Hu & Hcase).
  repeat split; try assumption.
  intros m Hm. destruct Hcase as [[_ Hsp]|(_ & Hw & _)].
  - unfold find_spot. now rewrite Hsp.
  - rewrite Hw.
    change (find_spot m w) with (find_spot m (bump_heap w 1)).
    now apply find_spot_remove_other.
Qed.

Lemma deleteSpot_no_cascade_witness :
  exists w',
    deleteSpot Sample.rt (IdString 30) (IdString 1) Sample.world = (Ok tt, w')
    /\ reviewsC w' = reviewsC Sample.world
    /\ find_spot 31 w' = Some Sample.lobby.
Proof.
  eexists. split; [reflexivity|].
  destruct (deleteSpot_no_cascade Sample.rt (IdString 30) (IdString 1)
              Sample.world _ _ eq_refl) as (Hr & _ & _ & Hothers).
  split; [exact Hr|]. rewrite Hothers; [reflexivity|discriminate].
Defined.

Lemma errorHandler_spot_not_found : errorHandler spot_not_found = spot_not_found.
Proof. reflexivity. Qed.

Lemma addReviewToSpot_missing (rt : Runtime) (sv : Services)
    (spotId creatorId : idval) (description : string) (rating : num) (w : World) :
  find_spot (id_value spotId) w = None ->
  addReviewToSpot rt sv spotId creatorId description rating w
  = (Err spot_not_found, w).
Proof.
  intros H. unfold addReviewToSpot, getSpotById. now rewrite H.
Qed.

Lemma reportSpot_missing (sv : Services) (spotId userId : idval) (w : World) :
  find_spot (id_value spotId) w = None ->
  reportSpot sv spotId userId w = (Err spot_not_found, w).
Proof.
  intros H. unfold reportSpot, getSpotById. now rewrite H.
Qed.

(** X16: once [deleteSpot] has succeeded, the id is gone for every
    operation: [getSpotById], [addReviewToSpot], [reportSpot] and a second
    [deleteSpot] all answer NotFound, for every caller, and change
    nothing. *)
Theorem deleted_spot_not_found (rt : Runtime) (sv : Services)
    (spotId userId : idval) (w w' : World) :
  deleteSpot rt spotId userId w = (Ok tt, w') ->
  getSpotById spotId w' = (Err spot_not_found, w')
  /\ (forall caller description rating,
        addReviewToSpot rt sv spotId caller description rating w'
        = (Err spot_not_found, w'))
  /\ (forall caller, reportSpot sv spotId caller w' = (Err spot_not_found, w'))
  /\ (forall caller, deleteSpot rt spotId caller w' = (Err spot_not_found, w')).
Proof.
  intros Hrun.
  assert (Hgone : find_spot (id_value spotId) w' = None).
  { destruct (deleteSpot_store _ _ _ _ _ _ Hrun)
      as (_ & _ & _ & [[Hfail _]|(_ & Hw & _)]).
    - exfalso. now apply (Hfail tt).
    - rewrite Hw. apply find_spot_removed. }
  split; [unfold getSpotById; now rewrite Hgone|].
  split; [intros; now apply addReviewToSpot_missing|].
  split; [intros; now apply reportSpot_missing|].
  intros. now apply deleteSpot_missing.
Qed.

Lemma deleted_spot_not_found_witness :
  exists w',
    deleteSpot Sample.rt (IdString 30) (IdString 1) Sample.world = (Ok tt, w')
    /\ reportSpot Sample.sv (IdString 30) (IdString 2) w' = (Err spot_not_found, w').
Proof.
  eexists. split; [reflexivity|].
  apply (deleted_spot_not_found Sample.rt Sample.sv (IdString 30) (IdString 1)
           Sample.world _ eq_refl).
Defined.

(** What [reportSpot] does to the store: the Reviews, Tags and Users are
    never touched; the Spots are as before on an error, and on success
    either the reported Spot is removed or it gets one more report, which
    for an id as an ObjectID prints it is the first of that user. *)
Lemma reportSpot_store (sv : Services) (spotId userId : idval) (w w' : World)
    (r : result unit) :
  reportSpot sv spotId userId w = (r, w') ->
  reviewsC w' = reviewsC w /\ tagsC w' = tagsC w /\ usersC w' = usersC w
  /\ (((forall x, r <> Ok x) /\ spotsC w' = spotsC w)
      \/ (r = Ok tt /\ w' = spotModel_remove (id_value spotId) (bump_heap w 1))
      \/ (exists s user,
            r = Ok tt
            /\ find_spot (id_value spotId) w = Some s
            /\ find_user (id_value userId) w = Some user
            /\ (canonical userId ->
                ~ In (id_value userId) (map reporter (spot_reports s)))
            /\ w' = spotModel_modify (id_value spotId)
                      (with_reports
                         (spot_reports s
                          ++ [mkReport (id_value userId) (user_rep user)])%list)
                      (bump_heap w 1))).
Proof.
  unfold reportSpot, getSpotById.
  destruct (find_spot (id_value spotId) w) as [s|] eqn:Hs.
  2:{ intros H. injection H as <- <-. repeat split. left. split;
        [discriminate|reflexivity]. }
  unfold Users_findUserById.
  change (find_user (id_value userId) (bump_heap w 1))
    with (find_user (id_value userId) w).
  destruct (find_user (id_value userId) w) as [user|] eqn:Hu.
  2:{ intros H. injection H as <- <-. repeat split. left. split;
        [discriminate|reflexivity]. }
  cbv zeta.
  change (spot_reports (l_doc (load_spot w (heap_next w) s))) with (spot_reports s).
  change (spot_id (l_doc (load_spot w (heap_next w) s))) with (spot_id s).
  destruct (existsb _ _) eqn:Ex.
  { intros H. injection H as <- <-. repeat split. left. split;
      [discriminate|reflexivity]. }
  destruct (_ >? _)%Z.
  - intros H. injection H as <- <-. repeat split. right. left. split; reflexivity.
  - intros H. injection H as <- <-. repeat split. right. right.
    exists s, user. rewrite (find_spot_id _ _ _ Hs). repeat split.
    intros Hc Hin. apply (reporters_index _ _ Hc) in Hin. congruence.
Qed.

(** X17: [reportSpot] changes nothing but the reported Spot: whatever the
    outcome, the Reviews, the Tags and the Users (so every reputation) are
    as before, and every Spot with another id is still found unchanged. *)
Theorem reportSpot_frame (sv : Services) (spotId userId : idval) (w w' : World)
    (r : result unit) :
  reportSpot sv spotId userId w = (r, w') ->
  reviewsC w' = reviewsC w /\ tagsC w' = tagsC w /\ usersC w' = usersC w
  /\ (forall m, m <> id_value spotId -> find_spot m w' = find_spot m w).
Proof.
  intros Hrun. destruct (reportSpot_store _ _ _ _ _ _ Hrun)
    as (Hr & Ht & Hu & Hcase).
  repeat split; try assumption.
  intros m Hm.
  destruct Hcase as [[_ Hsp]|[(_ & Hw)|(s & user & _ & _ & _ & _ & Hw)]].
  - unfold find_spot. now rewrite Hsp.
  - rewrite Hw. change (find_spot m w) with (find_spot m (bump_heap w 1)).
    now apply find_spot_remove_other.
  - rewrite Hw. change (find_spot m w) with (find_spot m (bump_heap w 1)).
    apply find_spot_modify_other; [apply with_reports_id|exact Hm].
Qed.

Lemma reportSpot_frame_witness :
  exists w',
    reportSpot Sample.sv (IdString 30) (IdString 2) Sample.world = (Ok tt, w')
    /\ usersC w' = usersC Sample.world
    /\ find_spot 31 w' = Some Sample.lobby.
Proof.
  eexists. split; [reflexivity|].
  destruct (reportSpot_frame Sample.sv (IdString 30) (IdString 2) Sample.world
              _ _ eq_refl) as (_ & _ & Hu & Hothers).
  split; [exact Hu|]. rewrite Hothers; [reflexivity|discriminate].
Defined.

(** X18: the Spot is looked up before the user: for a stored Spot and a
    caller without User document [reportSpot] answers with the NotFound of
    the User model, and the Spots are as before. *)
Theorem reportSpot_unknown_user (sv : Services) (spotId userId : idval)
    (w : World) (s : Spot) :
  find_spot (id_value spotId) w = Some s ->
  find_user (id_value userId) w = None ->
  exists w',
    reportSpot sv spotId userId w
    = (Err (known (MsgText (USER_NOT_FOUND sv)) (Some NOT_FOUND)), w')
    /\ same_store w w'.
Proof.
  intros Hs Hu. unfold reportSpot, getSpotById. rewrite Hs.
  unfold Users_findUserById.
  change (find_user (id_value userId) (bump_heap w 1))
    with (find_user (id_value userId) w).
  rewrite Hu. eexists. split; [reflexivity|]. repeat split.
Qed.

Lemma reportSpot_unknown_user_witness :
  exists w',
    reportSpot Sample.sv (IdString 30) (IdString 9) Sample.world
    = (Err (known (MsgText "No such user!") (Some NOT_FOUND)), w')
    /\ same_store Sample.world w'.
Proof.
  apply (reportSpot_unknown_user Sample.sv (IdString 30) (IdString 9)
           Sample.world Sample.stata eq_refl eq_refl).
Defined.

(** X19: a report that is kept cannot be repeated under the same id: after
    a successful [reportSpot] that left the Spot in the store, a second call
    on the same Spot with the same [userId], an ObjectID or the lower-case
    hex string an ObjectID prints, is answered with Forbidden and changes no
    collection. *)
Theorem reportSpot_twice (sv : Services) (spotId userId : idval) (w w' : World) :
  canonical userId ->
  reportSpot sv spotId userId w = (Ok tt, w') ->
  find_spot (id_value spotId) w' <> None ->
  exists w'',
    reportSpot sv spotId userId w'
    = (Err (known (MsgText "You have already reported this spot!")
                  (Some FORBIDDEN)), w'')
    /\ same_store w' w''.
Proof.
  intros Hc Hrun Hkept.
  destruct (reportSpot_store _ _ _ _ _ _ Hrun)
    as (_ & _ & Hus & [[Hfail _]|[(_ & Hw)|(s & user & _ & Hs & Hu & _ & Hw)]]).
  - exfalso. now apply (Hfail tt).
  - exfalso. apply Hkept. rewrite Hw. apply find_spot_removed.
  - assert (Hs' : find_spot (id_value spotId) w'
                  = Some (with_reports
                            (spot_reports s
                             ++ [mkReport (id_value userId) (user_rep user)])%list s)).
    { rewrite Hw. apply find_spot_modified; [apply with_reports_id|exact Hs]. }
    assert (Hu' : find_user (id_value userId) w' = Some user).
    { unfold find_user in *. now rewrite Hus. }
    rewrite (reportSpot_run sv w' spotId userId _ user Hs' Hu').
    cbn [spot_reports with_reports].
    assert (Hin : existsb (String.eqb (JSON_stringify userId))
                    (map (fun report => JSON_stringify_oid (reporter report))
                         (spot_reports s
                          ++ [mkReport (id_value userId) (user_rep user)])%list)
                  = true).
    { apply (reporters_index _ _ Hc). rewrite map_app. apply in_or_app.
      right. now left. }
    rewrite Hin. eexists. split; [reflexivity|]. repeat split.
Qed.

Lemma reportSpot_twice_witness :
  exists w' w'',
    reportSpot Sample.sv (IdString 30) (IdString 3) Sample.world = (Ok tt, w')
    /\ reportSpot Sample.sv (IdString 30) (IdString 3) w'
       = (Err (known (MsgText "You have already reported this spot!")
                     (Some FORBIDDEN)), w'').
Proof.
  eexists.
  destruct (reportSpot_twice Sample.sv (IdString 30) (IdString 3) Sample.world
              _ eq_refl eq_refl) as (w'' & Hrun & _).
  - discriminate.
  - exists w''. split; [reflexivity|exact Hrun].
Defined.

(** ** Invariants of the store *)

Section Kept.

Context {Doc Key : Type}.
Variable key_of : Doc -> Key.
Variable keep : Doc -> bool.

(** Removing documents cannot make two keys equal. *)
Lemma NoDup_map_filter (docs : list Doc) :
  NoDup (map key_of docs) -> NoDup (map key_of (filter keep docs)).
Proof.
  induction docs as [|d docs IH]; cbn [filter map]; intros Hnd; [constructor|].
  apply NoDup_cons_iff in Hnd. destruct Hnd as [Hfresh Hrest].
  destruct (keep d); cbn [map]; [|exact (IH Hrest)].
  apply NoDup_cons_iff. split; [|exact (IH Hrest)].
  rewrite in_map_iff. intros (d' & Hkey & Hin).
  apply filter_In in Hin. apply Hfresh. rewrite in_map_iff.
  exists d'. tauto.
Qed.

End Kept.

Lemma NoDup_snoc {A : Type} (l : list A) (x : A) :
  NoDup l -> ~ In x l -> NoDup (l ++ [x]).
Proof.
  intros Hl Hx. induction Hl as [|y l Hy Hl IH]; simpl.
  - constructor; [intros []|constructor].
  - constructor.
    + intros Hin. apply in_app_or in Hin. destruct Hin as [Hin|[Hin|[]]].
      * contradiction.
      * subst. apply Hx. now left.
    + apply IH. intros Hin. apply Hx. now right.
Qed.

Lemma Forall_filter_keep {A : Type} (P : A -> Prop) (p : A -> bool) (l : list A) :
  Forall P l -> Forall P (filter p l).
Proof.
  intros H. apply Forall_forall. intros x Hx. apply filter_In in Hx.
  rewrite Forall_forall in H. now apply H.
Qed.

Lemma map_title_modify (n : N) (f : Spot -> Spot) (spots : list Spot) :
  (forall s, spot_title (f s) = spot_title s) ->
  map spot_title (map (fun s => if N.eqb (spot_id s) n then f s else s) spots)
  = map spot_title spots.
Proof.
  intros Hf. rewrite map_map. apply map_ext. intros s.
  destruct (N.eqb (spot_id s) n); [apply Hf|reflexivity].
Qed.

(** X20: titles stay unique.  On a store where no two Spots share a title,
    every operation that writes ([addSpot], [addReviewToSpot], [deleteSpot],
    [reportSpot]) leaves a store where no two Spots share a title, whatever
    its arguments and its outcome. *)
Theorem titles_stay_unique (rt : Runtime) (sv : Services) (w : World) :
  titles_unique w ->
  (forall title creatorId location floor label description rating r w',
      addSpot sv title creatorId location floor label description rating w
      = (r, w') -> titles_unique w')
  /\ (forall spotId creatorId description rating r w',
        addReviewToSpot rt sv spotId creatorId description rating w = (r, w') ->
        titles_unique w')
  /\ (forall spotId userId r w',
        deleteSpot rt spotId userId w = (r, w') -> titles_unique w')
  /\ (forall spotId userId r w',
        reportSpot sv spotId userId w = (r, w') -> titles_unique w').
Proof.
  unfold titles_unique. intros Hw. repeat split.
  - intros title creatorId location floor label description rating r w' Hrun.
    destruct (addSpot_spots _ _ _ _ _ _ _ _ _ _ _ Hrun)
      as [Hsp|(spot & _ & Hsp & _ & Hfree)]; rewrite Hsp; [exact Hw|].
    rewrite map_app. now apply NoDup_snoc.
  - intros spotId creatorId description rating r w' Hrun.
    destruct (addReviewToSpot_store _ _ _ _ _ _ _ _ _ Hrun)
      as [[_ (_ & _ & _ & Hsp)]
         |[(s & rating' & err & _ & _ & _ & _ & _ & _ & Hsp)
          |(s & rating' & _ & _ & _ & _ & _ & _ & Hsp)]];
      rewrite Hsp; [exact Hw|exact Hw|].
    rewrite map_title_modify; [exact Hw|reflexivity].
  - intros spotId userId r w' Hrun.
    destruct (deleteSpot_store _ _ _ _ _ _ Hrun)
      as (_ & _ & _ & [[_ Hsp]|(_ & Hw' & _)]).
    + now rewrite Hsp.
    + rewrite Hw'. cbn [spotsC spotModel_remove set_spotsC bump_heap].
      now apply NoDup_map_filter.
  - intros spotId userId r w' Hrun.
    destruct (reportSpot_store _ _ _ _ _ _ Hrun)
      as (_ & _ & _ & [[_ Hsp]|[(_ & Hw')|(s & user & _ & _ & _ & _ & Hw')]]).
    + now rewrite Hsp.
    + rewrite Hw'. cbn [spotsC spotModel_remove set_spotsC bump_heap].
      now apply NoDup_map_filter.
    + rewrite Hw'. cbn [spotsC spotModel_modify set_spotsC bump_heap].
      rewrite map_title_modify; [exact Hw|reflexivity].
Qed.

Lemma Sample_titles_unique : titles_unique Sample.world.
Proof.
  unfold titles_unique. simpl.
  repeat constructor; simpl; intuition discriminate.
Qed.

Lemma titles_stay_unique_witness :
  exists r w',
    addSpot Sample.sv "Killian Court" (IdString 1) Sample.mit FloorNull
            "Study" "Sunny" (Fin 4) Sample.world = (r, w')
    /\ titles_unique w'.
Proof.
  eexists. eexists. split; [reflexivity|].
  destruct (titles_stay_unique Sample.rt Sample.sv Sample.world
              Sample_titles_unique) as (Hadd & _).
  apply (Hadd "Killian Court" (IdString 1) Sample.mit FloorNull "Study" "Sunny"
              (Fin 4) _ _ eq_refl).
Defined.

Lemma Forall_modify (P : Spot -> Prop) (n : N) (f : Spot -> Spot) (spots : list Spot) :
  Forall P spots ->
  (forall s, In s spots -> N.eqb (spot_id s) n = true -> P (f s)) ->
  Forall P (map (fun s => if N.eqb (spot_id s) n then f s else s) spots).
Proof.
  intros Hall Hf. apply Forall_forall. intros x Hx.
  apply in_map_iff in Hx. destruct Hx as (s & Hs & Hin).
  rewrite Forall_forall in Hall.
  destruct (N.eqb (spot_id s) n) eqn:E; subst x; [now apply Hf|now apply Hall].
Qed.

(** X21: a reporter appears at most once.  On a store where no Spot carries
    two reports of the same user, [addSpot], [addReviewToSpot] and
    [deleteSpot] leave such a store whatever their arguments and their
    outcome, and so does [reportSpot] for every [userId] that is an ObjectID
    or the lower-case hex string an ObjectID prints. *)
Theorem reporters_stay_unique (rt : Runtime) (sv : Services) (w : World) :
  reporters_unique w ->
  (forall title creatorId location floor label description rating r w',
      addSpot sv title creatorId location floor label description rating w
      = (r, w') -> reporters_unique w')
  /\ (forall spotId creatorId description rating r w',
        addReviewToSpot rt sv spotId creatorId description rating w = (r, w') ->
        reporters_unique w')
  /\ (forall spotId userId r w',
        deleteSpot rt spotId userId w = (r, w') -> reporters_unique w')
  /\ (forall spotId userId r w',
        canonical userId ->
        reportSpot sv spotId userId w = (r, w') -> reporters_unique w').
Proof.
  unfold reporters_unique. intros Hw. repeat split.
  - intros title creatorId location floor label description rating r w' Hrun.
    destruct (addSpot_spots _ _ _ _ _ _ _ _ _ _ _ Hrun)
      as [Hsp|(spot & _ & Hsp & Hnone & _)]; rewrite Hsp; [exact Hw|].
    apply Forall_app. split; [exact Hw|].
    constructor; [|constructor]. rewrite Hnone. constructor.
  - intros spotId creatorId description rating r w' Hrun.
    destruct (addReviewToSpot_store _ _ _ _ _ _ _ _ _ Hrun)
      as [[_ (_ & _ & _ & Hsp)]
         |[(s & rating' & err & _ & _ & _ & _ & _ & _ & Hsp)
          |(s & rating' & _ & _ & _ & _ & _ & _ & Hsp)]];
      rewrite Hsp; [exact Hw|exact Hw|].
    apply Forall_modify; [exact Hw|].
    intros x Hx _. rewrite Forall_forall in Hw. exact (Hw x Hx).
  - intros spotId userId r w' Hrun.
    destruct (deleteSpot_store _ _ _ _ _ _ Hrun)
      as (_ & _ & _ & [[_ Hsp]|(_ & Hw' & _)]).
    + now rewrite Hsp.
    + rewrite Hw'. cbn [spotsC spotModel_remove set_spotsC bump_heap].
      now apply Forall_filter_keep.
  - intros spotId userId r w' Hc Hrun.
    destruct (reportSpot_store _ _ _ _ _ _ Hrun)
      as (_ & _ & _ & [[_ Hsp]|[(_ & Hw')|(s & user & _ & Hs & _ & Hnew & Hw')]]).
    + now rewrite Hsp.
    + rewrite Hw'. cbn [spotsC spotModel_remove set_spotsC bump_heap].
      now apply Forall_filter_keep.
    + rewrite Hw'. cbn [spotsC spotModel_modify set_spotsC bump_heap].
      apply Forall_modify; [exact Hw|].
      intros x _ _. cbn [spot_reports with_reports].
      rewrite map_app. apply NoDup_snoc; [|exact (Hnew Hc)].
      apply find_some in Hs. destruct Hs as [Hin _].
      rewrite Forall_forall in Hw. exact (Hw s Hin).
Qed.

Lemma reporters_stay_unique_witness :
  exists r w',
    reportSpot Sample.sv (IdString 30) (IdString 3) Sample.world = (r, w')
    /\ reporters_unique w'.
Proof.
  assert (Hw : reporters_unique Sample.world).
  { unfold reporters_unique. simpl. repeat constructor. }
  eexists. eexists. split; [reflexivity|].
  destruct (reporters_stay_unique Sample.rt Sample.sv Sample.world Hw)
    as (_ & _ & _ & Hreport).
  apply (Hreport (IdString 30) (IdString 3) _ _ eq_refl eq_refl).
Defined.

(** ** The queries *)

Lemma find_review_has (w : World) (n : N) :
  has_review w n = match find_review n w with Some _ => true | None => false end.
Proof.
  unfold has_review, find_review.
  induction (reviewsC w) as [|r l IH]; simpl; [reflexivity|].
  destruct (N.eqb (review_id r) n); [reflexivity|exact IH].
Qed.

Lemma populated_ids_filter (w : World) (ids : list N) :
  map (fun r => review_id (pr_review r)) (populate_reviews w ids)
  = filter (has_review w) ids.
Proof.
  induction ids as [|n ids IH]; simpl; [reflexivity|].
  rewrite find_review_has.
  destruct (find_review n w) as [r|] eqn:E; [|exact IH].
  simpl. rewrite IH. f_equal. apply find_some in E. destruct E as [_ E].
  now apply N.eqb_eq.
Qed.

Lemma populated_from_store (w : World) (ids : list N) :
  Forall (fun r => In (pr_review r) (reviewsC w)
                   /\ pr_creator r
                      = UserPopulated (find_user (review_creator (pr_review r)) w))
         (populate_reviews w ids).
Proof.
  induction ids as [|n ids IH]; simpl; [constructor|].
  destruct (find_review n w) as [r|] eqn:E; [|exact IH].
  constructor; [|exact IH]. split; [|reflexivity].
  apply find_some in E. apply E.
Qed.

(** X22: for a stored Spot [getSpotById] answers with the document, its
    reviews populated: the listed ids that have a Review document, in the
    listed order, each as the stored Review with its creator filled in from
    the Users ([null] when the user is gone); listed ids without a document
    are left out.  Reading changes no collection. *)
Theorem getSpotById_populates (spotId : idval) (w : World) (s : Spot) :
  find_spot (id_value spotId) w = Some s ->
  exists loaded w',
    getSpotById spotId w = (Ok loaded, w')
    /\ same_store w w'
    /\ l_doc loaded = s
    /\ map (fun r => review_id (pr_review r)) (l_reviews loaded)
       = filter (has_review w) (spot_reviews s)
    /\ Forall (fun r => In (pr_review r) (reviewsC w)
                        /\ pr_creator r
                           = UserPopulated
                               (find_user (review_creator (pr_review r)) w))
              (l_reviews loaded).
Proof.
  intros Hs. unfold getSpotById. rewrite Hs.
  eexists. eexists. split; [reflexivity|]. split; [repeat split|].
  split; [reflexivity|]. cbn [l_reviews load_spot].
  split; [apply populated_ids_filter|apply populated_from_store].
Qed.

Lemma getSpotById_populates_witness :
  exists loaded w',
    getSpotById (IdString 31) Sample.world = (Ok loaded, w')
    /\ map (fun r => review_id (pr_review r)) (l_reviews loaded) = [21%N].
Proof.
  destruct (getSpotById_populates (IdString 31) Sample.world Sample.lobby eq_refl)
    as (loaded & w' & Hrun & _ & _ & Hids & _).
  exists loaded, w'. split; [exact Hrun|exact Hids].
Defined.

(** X23: [getSpotsByUser] answers an unknown user with the NotFound of the
    User model; for a stored user it answers with exactly the stored Spots
    that user created, possibly none, and changes no collection. *)
Theorem getSpotsByUser_spec (sv : Services) (userId : idval) (w : World) :
  (find_user (id_value userId) w = None ->
     getSpotsByUser sv userId w
     = (Err (known (MsgText (USER_NOT_FOUND sv)) (Some NOT_FOUND)), w))
  /\ (find_user (id_value userId) w <> None ->
        exists spots w',
          getSpotsByUser sv userId w = (Ok spots, w')
          /\ same_store w w'
          /\ (forall s, In s spots <->
                        In s (spotsC w) /\ spot_creator s = id_value userId)).
Proof.
  unfold getSpotsByUser, Users_findUserById. split.
  - intros ->. reflexivity.
  - destruct (find_user (id_value userId) w); [|congruence]. intros _.
    eexists. eexists. split; [reflexivity|]. split; [repeat split|].
    intros s. rewrite filter_In, N.eqb_eq. reflexivity.
Qed.

(** Bob exists and created no Spot: the answer is the empty list, not an
    error. *)
Lemma getSpotsByUser_spec_witness :
  getSpotsByUser Sample.sv (IdString 9) Sample.world
  = (Err (known (MsgText "No such user!") (Some NOT_FOUND)), Sample.world)
  /\ exists w', getSpotsByUser Sample.sv (IdString 2) Sample.world = (Ok [], w').
Proof.
  destruct (getSpotsByUser_spec Sample.sv (IdString 9) Sample.world) as [Hnone _].
  split; [exact (Hnone eq_refl)|].
  eexists. reflexivity.
Defined.

Lemma NoDup_map_inj {A B : Type} (f : A -> B) (l : list A) (a b : A) :
  NoDup (map f l) -> In a l -> In b l -> f a = f b -> a = b.
Proof.
  induction l as [|x l IH]; simpl; intros Hnd Ha Hb Hab; [contradiction|].
  inversion Hnd as [|? ? Hx Hl]; subst.
  destruct Ha as [<-|Ha], Hb as [<-|Hb].
  - reflexivity.
  - exfalso. apply Hx. rewrite Hab. now apply in_map.
  - exfalso. apply Hx. rewrite <- Hab. now apply in_map.
  - now apply IH.
Qed.

Lemma find_all_hydrated_docs (w : World) :
  map l_doc (find_all_hydrated w) = spotsC w.
Proof. unfold find_all_hydrated. apply load_spots_docs. Qed.

Lemma hydrated_tag (w : World) (docs : list Spot) :
  forall addr,
    Forall (fun l => l_tag l = TagPopulated (find_tag (spot_tag (l_doc l)) w)
                     /\ l_reviews l = populate_reviews w (spot_reviews (l_doc l)))
           (map (populate_tag w) (load_spots w addr docs)).
Proof.
  induction docs as [|s docs IH]; intros addr; simpl; constructor.
  - split; reflexivity.
  - apply IH.
Qed.

Lemma filter_map_docs (p : LoadedSpot -> bool) (q : Spot -> bool)
    (l : list LoadedSpot) :
  Forall (fun x => p x = q (l_doc x)) l ->
  map l_doc (filter p l) = filter q (map l_doc l).
Proof.
  induction 1 as [|x l Hx _ IH]; simpl; [reflexivity|].
  rewrite Hx. destruct (q (l_doc x)); simpl; now rewrite IH.
Qed.

(** [s.tag.label === label] read off the stored documents. *)
Lemma getSpotsByTag_docs (sv : Services) (label : string) (w : World) :
  find (fun t => String.eqb (tag_label t) label) (tagsC w) <> None ->
  tags_stored w ->
  exists spots w',
    getSpotsByTag sv label w = (Ok spots, w')
    /\ same_store w w'
    /\ map l_doc spots
       = filter (fun s => match find_tag (spot_tag s) w with
                          | Some t => String.eqb (tag_label t) label
                          | None => false
                          end) (spotsC w).
Proof.
  unfold getSpotsByTag, Tags_getTagByLabel.
  destruct (find (fun t => String.eqb (tag_label t) label) (tagsC w))
    as [tagged|]; [|congruence].
  intros _ Hstored.
  pose proof (hydrated_tag w (spotsC w) (heap_next w)) as Hh.
  fold (find_all_hydrated w) in Hh.
  assert (Hnull : existsb tag_is_null (find_all_hydrated w) = false).
  { apply not_true_is_false. intros Hex. apply existsb_exists in Hex.
    destruct Hex as (x & Hx & Hn). rewrite Forall_forall in Hh.
    destruct (Hh x Hx) as [Ht _]. unfold tag_is_null in Hn. rewrite Ht in Hn.
    unfold tags_stored in Hstored. rewrite Forall_forall in Hstored.
    assert (Hin : In (l_doc x) (spotsC w)).
    { rewrite <- find_all_hydrated_docs. now apply in_map. }
    specialize (Hstored _ Hin).
    destruct (find_tag (spot_tag (l_doc x)) w); [discriminate|congruence]. }
  rewrite Hnull.
  eexists. eexists. split; [reflexivity|]. split; [repeat split|].
  rewrite <- (find_all_hydrated_docs w). apply filter_map_docs.
  eapply Forall_impl; [|exact Hh]. simpl. intros x [Ht _].
  unfold tag_label_is. rewrite Ht. reflexivity.
Qed.

(** X24: [getSpotsByTag] answers a label no Tag carries with the NotFound of
    the Tag model.  For a stored label, on a store where every Spot has its
    Tag document, it answers with exactly the stored Spots whose Tag
    document carries the label, and changes no collection. *)
Theorem getSpotsByTag_spec (sv : Services) (label : string) (w : World) :
  (find (fun t => String.eqb (tag_label t) label) (tagsC w) = None ->
     getSpotsByTag sv label w
     = (Err (known (MsgText (TAG_NOT_FOUND sv)) (Some NOT_FOUND)), w))
  /\ (find (fun t => String.eqb (tag_label t) label) (tagsC w) <> None ->
      tags_stored w ->
        exists spots w',
          getSpotsByTag sv label w = (Ok spots, w')
          /\ same_store w w'
          /\ (forall s, In s (map l_doc spots) <->
                        In s (spotsC w)
                        /\ exists t, find_tag (spot_tag s) w = Some t
                                     /\ tag_label t = label)).
Proof.
  split.
  - unfold getSpotsByTag, Tags_getTagByLabel. intros ->. reflexivity.
  - intros Hfound Hstored.
    destruct (getSpotsByTag_docs sv label w Hfound Hstored)
      as (spots & w' & Hrun & Hsame & Hdocs).
    exists spots, w'. split; [exact Hrun|]. split; [exact Hsame|].
    intros s. rewrite Hdocs, filter_In. split.
    + intros [Hin Hl]. split; [exact Hin|].
      destruct (find_tag (spot_tag s) w) as [t|]; [|discriminate].
      exists t. split; [reflexivity|now apply String.eqb_eq].
    + intros [Hin (t & Ht & Hl)]. split; [exact Hin|].
      rewrite Ht. now apply String.eqb_eq.
Qed.

Lemma Sample_tags_stored : tags_stored Sample.world.
Proof. unfold tags_stored. simpl. repeat constructor; discriminate. Qed.

Lemma getSpotsByTag_spec_witness :
  getSpotsByTag Sample.sv "Nap" Sample.world
  = (Err (known (MsgText "No such tag!") (Some NOT_FOUND)), Sample.world)
  /\ exists spots w',
       getSpotsByTag Sample.sv "Study" Sample.world = (Ok spots, w')
       /\ In Sample.stata (map l_doc spots).
Proof.
  split.
  - exact (proj1 (getSpotsByTag_spec Sample.sv "Nap" Sample.world) eq_refl).
  - destruct (proj2 (getSpotsByTag_spec Sample.sv "Study" Sample.world))
      as (spots & w' & Hrun & _ & Hin).
    + discriminate.
    + exact Sample_tags_stored.
    + exists spots, w'. split; [exact Hrun|].
      apply Hin. split; [now left|]. exists Sample.study. split; reflexivity.
Defined.

(** X25: filtering on the label in memory picks the Spots of one Tag.  On a
    store where labels and Tag ids are unique and every Spot has its Tag
    document, [getSpotsByTag] answers, in store order, with the stored Spots
    whose [tag] is the id of the Tag that carries the label. *)
Theorem getSpotsByTag_by_id (sv : Services) (label : string) (w : World)
    (tagged : Tag) :
  labels_unique w -> tag_ids_unique w -> tags_stored w ->
  find (fun t => String.eqb (tag_label t) label) (tagsC w) = Some tagged ->
  exists spots w',
    getSpotsByTag sv label w = (Ok spots, w')
    /\ map l_doc spots
       = filter (fun s => N.eqb (spot_tag s) (tag_id tagged)) (spotsC w).
Proof.
  intros Hlabels Hids Hstored Hfound.
  destruct (getSpotsByTag_docs sv label w) as (spots & w' & Hrun & _ & Hdocs);
    [congruence|exact Hstored|].
  exists spots, w'. split; [exact Hrun|]. rewrite Hdocs.
  apply filter_ext_in. intros s Hs.
  pose proof Hfound as Htagged. apply find_some in Htagged.
  destruct Htagged as [Hin_tagged Hl_tagged]. apply String.eqb_eq in Hl_tagged.
  destruct (find_tag (spot_tag s) w) as [t|] eqn:Et.
  - pose proof Et as Ht. apply find_some in Ht. destruct Ht as [Hin_t Hid_t].
    apply N.eqb_eq in Hid_t.
    destruct (String.eqb_spec (tag_label t) label) as [El|El].
    + assert (t = tagged)
        by (apply (NoDup_map_inj tag_label (tagsC w));
            [exact Hlabels|exact Hin_t|exact Hin_tagged|congruence]).
      subst t. symmetry. now apply N.eqb_eq.
    + symmetry. apply N.eqb_neq. intros Eid.
      assert (t = tagged)
        by (apply (NoDup_map_inj tag_id (tagsC w));
            [exact Hids|exact Hin_t|exact Hin_tagged|congruence]).
      subst t. congruence.
  - unfold tags_stored in Hstored. rewrite Forall_forall in Hstored.
    specialize (Hstored s Hs). congruence.
Qed.

Lemma getSpotsByTag_by_id_witness :
  exists spots w',
    getSpotsByTag Sample.sv "Study" Sample.world = (Ok spots, w')
    /\ map l_doc spots = [Sample.stata; Sample.lobby].
Proof.
  apply (getSpotsByTag_by_id Sample.sv "Study" Sample.world Sample.study).
  - unfold labels_unique. simpl. repeat constructor. intros [].
  - unfold tag_ids_unique. simpl. repeat constructor. intros [].
  - exact Sample_tags_stored.
  - reflexivity.
Defined.

(** X26: one Spot whose Tag document is gone breaks the query for every
    stored label: [getSpotsByTag] raises a TypeError while reading the label
    of that Spot's tag. *)
Theorem getSpotsByTag_missing_tag (sv : Services) (label : string) (w : World)
    (s : Spot) :
  find (fun t => String.eqb (tag_label t) label) (tagsC w) <> None ->
  In s (spotsC w) ->
  find_tag (spot_tag s) w = None ->
  exists t w', getSpotsByTag sv label w = (Throw t, w') /\ same_store w w'.
Proof.
  intros Hfound Hin Hnone. unfold getSpotsByTag, Tags_getTagByLabel.
  destruct (find (fun t => String.eqb (tag_label t) label) (tagsC w));
    [|congruence].
  assert (Hnull : existsb tag_is_null (find_all_hydrated w) = true).
  { rewrite <- (find_all_hydrated_docs w) in Hin. apply in_map_iff in Hin.
    destruct Hin as (x & Hx & Hin). apply existsb_exists. exists x.
    split; [exact Hin|].
    pose proof (hydrated_tag w (spotsC w) (heap_next w)) as Hh.
    fold (find_all_hydrated w) in Hh. rewrite Forall_forall in Hh.
    destruct (Hh x Hin) as [Ht _]. unfold tag_is_null.
    rewrite Ht, Hx, Hnone. reflexivity. }
  rewrite Hnull. eexists. eexists. split; [reflexivity|]. repeat split.
Qed.

Lemma getSpotsByTag_missing_tag_witness :
  exists t w',
    getSpotsByTag Sample.sv "Study" Sample.world_untagged = (Throw t, w').
Proof.
  destruct (getSpotsByTag_missing_tag Sample.sv "Study" Sample.world_untagged
              Sample.annex) as (t & w' & Hrun & _).
  - discriminate.
  - simpl. tauto.
  - reflexivity.
  - exists t, w'. exact Hrun.
Defined.

Lemma filter_length_existsb {A : Type} (p : A -> bool) (l : list A) :
  negb (Nat.eqb (List.length (filter p l)) 0) = existsb p l.
Proof.
  induction l as [|x l IH]; simpl; [reflexivity|].
  destruct (p x); simpl; [reflexivity|exact IH].
Qed.

(** For an id as an ObjectID prints it, the test picks the Spots that list
    the review. *)
Lemma lists_review_iff (w : World) (reviewId : idval) (s : Spot) :
  canonical reviewId ->
  find_review (id_value reviewId) w <> None ->
  lists_review reviewId (hydrate_full w s) = true
  <-> In (id_value reviewId) (spot_reviews s).
Proof.
  intros Hc Hdoc. unfold lists_review. rewrite filter_length_existsb.
  cbn [f_reviews hydrate_full]. rewrite existsb_exists. split.
  - intros (r & Hr & Heq).
    rewrite (JSON_eqb_canonical _ _ Hc) in Heq. apply N.eqb_eq in Heq.
    assert (Hin : In (review_id (pr_review r))
                     (map (fun x => review_id (pr_review x))
                          (populate_reviews w (spot_reviews s))))
      by (apply in_map_iff; now exists r).
    rewrite populated_ids_filter in Hin. apply filter_In in Hin.
    rewrite <- Heq. apply Hin.
  - intros Hin.
    assert (Hin' : In (id_value reviewId)
                      (map (fun x => review_id (pr_review x))
                           (populate_reviews w (spot_reviews s)))).
    { rewrite populated_ids_filter. apply filter_In. split; [exact Hin|].
      rewrite find_review_has.
      destruct (find_review (id_value reviewId) w); [reflexivity|congruence]. }
    apply in_map_iff in Hin'. destruct Hin' as (r & Hr & Hin').
    exists r. split; [exact Hin'|].
    rewrite (JSON_eqb_canonical _ _ Hc). now apply N.eqb_eq.
Qed.

(** In any other spelling the test picks no Spot. *)
Lemma lists_review_spelled (reviewId : idval) (f : FullSpot) :
  ~ canonical reviewId -> lists_review reviewId f = false.
Proof.
  intros Hc. unfold lists_review. rewrite filter_length_existsb.
  induction (f_reviews f) as [|r l IH]; cbn [existsb]; [reflexivity|].
  now rewrite (JSON_eqb_spelled _ _ Hc), IH.
Qed.

Lemma first_match {A B : Type} (h : A -> B) (p : B -> bool) (l : list A) :
  match hd_error (filter p (map h l)) with
  | Some x =>
      exists before a after,
        l = (before ++ a :: after)%list /\ x = h a /\ p (h a) = true
        /\ Forall (fun y => p (h y) = false) before
  | None => Forall (fun y => p (h y) = false) l
  end.
Proof.
  induction l as [|a l IH]; simpl; [constructor|].
  destruct (p (h a)) eqn:E; simpl.
  - exists [], a, l. repeat split; [exact E|constructor].
  - destruct (hd_error (filter p (map h l))) as [x|].
    + destruct IH as (before & a' & after & Hl & Hx & Hp & Hb).
      exists (a :: before), a', after. rewrite Hl. repeat split; try assumption.
      now constructor.
    + now constructor.
Qed.

(** X27: [getSpotByReview] answers an unknown review with the NotFound of
    the Review model.  For a stored review whose id comes as an ObjectID or
    as the lower-case hex string an ObjectID prints, it answers with the
    first Spot, in store order, that lists the review, fully populated, or
    with [undefined] when no Spot lists it.  For a stored review whose id
    comes in another spelling it answers with [undefined], whatever the
    Spots list.  It changes nothing. *)
Theorem getSpotByReview_spec (REVIEW_NOT_FOUND : string) (reviewId : idval)
    (w : World) :
  (find_review (id_value reviewId) w = None ->
     getSpotByReview REVIEW_NOT_FOUND reviewId w
     = (Err (known (MsgText REVIEW_NOT_FOUND) (Some NOT_FOUND)), w))
  /\ (find_review (id_value reviewId) w <> None ->
      canonical reviewId ->
        exists found,
          getSpotByReview REVIEW_NOT_FOUND reviewId w = (Ok found, w)
          /\ match found with
             | None =>
                 forall s, In s (spotsC w)
                           -> ~ In (id_value reviewId) (spot_reviews s)
             | Some f =>
                 exists before after,
                   spotsC w = (before ++ f_doc f :: after)%list
                   /\ In (id_value reviewId) (spot_reviews (f_doc f))
                   /\ (forall s, In s before
                                 -> ~ In (id_value reviewId) (spot_reviews s))
                   /\ f = hydrate_full w (f_doc f)
             end)
  /\ (find_review (id_value reviewId) w <> None ->
      ~ canonical reviewId ->
      getSpotByReview REVIEW_NOT_FOUND reviewId w = (Ok None, w)).
Proof.
  unfold getSpotByReview, Reviews_getReviewById. split; [|split].
  - intros ->. reflexivity.
  - intros Hdoc Hc.
    destruct (find_review (id_value reviewId) w) as [review|] eqn:Er;
      [|congruence].
    assert (Hiff := fun s => lists_review_iff w reviewId s Hc
                               ltac:(rewrite Er; discriminate)).
    eexists. split; [reflexivity|].
    pose proof (first_match (hydrate_full w) (lists_review reviewId) (spotsC w))
      as Hfirst.
    destruct (hd_error (filter (lists_review reviewId)
                               (map (hydrate_full w) (spotsC w)))) as [f|].
    + destruct Hfirst as (before & s & after & Hl & Hf & Hp & Hb).
      exists before, after. subst f. cbn [f_doc hydrate_full].
      split; [exact Hl|]. split; [now apply Hiff|]. split; [|reflexivity].
      intros x Hx Hin. rewrite Forall_forall in Hb. specialize (Hb x Hx).
      apply Hiff in Hin. congruence.
    + intros s Hs Hin. rewrite Forall_forall in Hfirst. specialize (Hfirst s Hs).
      apply Hiff in Hin. congruence.
  - intros Hdoc Hc.
    destruct (find_review (id_value reviewId) w) as [review|]; [|congruence].
    assert (Hnone : filter (lists_review reviewId)
                           (map (hydrate_full w) (spotsC w)) = []).
    { induction (spotsC w) as [|s l IH]; cbn [map filter]; [reflexivity|].
      now rewrite (lists_review_spelled _ _ Hc). }
    now rewrite Hnone.
Qed.

(** Review 22 has no document.  Review 21 is listed by Spot 30 and by Spot
    31: the answer is Spot 30.  Review 171 is listed by Spot 36: asked for
    with its two hex letters in upper case, the answer is [undefined]. *)
Lemma getSpotByReview_spec_witness :
  getSpotByReview Sample.REVIEW_NOT_FOUND (IdString 22) Sample.world
  = (Err (known (MsgText "No such review!") (Some NOT_FOUND)), Sample.world)
  /\ (exists f,
        getSpotByReview Sample.REVIEW_NOT_FOUND (IdString 21) Sample.world
        = (Ok (Some f), Sample.world)
        /\ f_doc f = Sample.stata)
  /\ getSpotByReview Sample.REVIEW_NOT_FOUND
       (IdSpelled [false; false; true; true] 171) Sample.world_reviews
     = (Ok None, Sample.world_reviews).
Proof.
  destruct (getSpotByReview_spec Sample.REVIEW_NOT_FOUND (IdString 22)
              Sample.world) as (Hnone & _ & _).
  split; [exact (Hnone eq_refl)|].
  destruct (getSpotByReview_spec Sample.REVIEW_NOT_FOUND (IdString 21)
              Sample.world) as (_ & Hfound & _).
  assert (Hdoc : find_review (id_value (IdString 21)) Sample.world <> None)
    by discriminate.
  destruct (Hfound Hdoc eq_refl) as (found & Hrun & Hshape).
  split.
  - destruct found as [f|].
    + exists f. split; [exact Hrun|].
      destruct Hshape as (before & after & Hl & Hin & Hnot & _).
      destruct before as [|x before]; [now injection Hl as <-|].
      injection Hl as <- _. exfalso. apply (Hnot Sample.stata); simpl; tauto.
    + exfalso. apply (Hshape Sample.stata); simpl; tauto.
  - destruct (getSpotByReview_spec Sample.REVIEW_NOT_FOUND
                (IdSpelled [false; false; true; true] 171) Sample.world_reviews)
      as (_ & _ & Hspelled).
    assert (Hdoc' : find_review
                      (id_value (IdSpelled [false; false; true; true] 171))
                      Sample.world_reviews <> None) by discriminate.
    apply (Hspelled Hdoc'). discriminate.
Defined.

(** X28: a box that is empty in one direction (its upper bound not above its
    lower bound) holds no Spot: [getSpotsByLocation] answers with the empty
    list. *)
Theorem getSpotsByLocation_empty_box
    (minLatitude maxLatitude minLongitude maxLongitude : Q) (w : World) :
  (maxLatitude <= minLatitude)%Q \/ (maxLongitude <= minLongitude)%Q ->
  exists w',
    getSpotsByLocation minLatitude maxLatitude minLongitude maxLongitude w
    = (Ok [], w')
    /\ same_store w w'.
Proof.
  intros Hempty. unfold getSpotsByLocation.
  assert (Hnone : filter (in_box minLatitude maxLatitude minLongitude maxLongitude)
                         (spotsC w) = []).
  { induction (spotsC w) as [|s l IH]; simpl; [reflexivity|].
    destruct (in_box minLatitude maxLatitude minLongitude maxLongitude s) eqn:E;
      [|exact IH].
    exfalso. apply in_box_iff in E. destruct E as (H1 & H2 & H3 & H4).
    destruct Hempty as [H|H].
    - apply (Qlt_irrefl minLatitude).
      eapply Qlt_le_trans; [eapply Qlt_trans; eassumption|exact H].
    - apply (Qlt_irrefl minLongitude).
      eapply Qlt_le_trans; [eapply Qlt_trans; eassumption|exact H]. }
  rewrite Hnone. eexists. split; [reflexivity|]. repeat split.
Qed.

Lemma getSpotsByLocation_empty_box_witness :
  exists w', getSpotsByLocation 50 40 (-80) (-70) Sample.world = (Ok [], w').
Proof.
  destruct (getSpotsByLocation_empty_box 50 40 (-80) (-70) Sample.world)
    as (w' & Hrun & _).
  - left. unfold Qle. simpl. lia.
  - exists w'. exact Hrun.
Defined.

Lemma find_spot_unique (w : World) (s : Spot) :
  spot_ids_unique w -> In s (spotsC w) -> find_spot (spot_id s) w = Some s.
Proof.
  unfold spot_ids_unique, find_spot.
  induction (spotsC w) as [|x l IH]; simpl; intros Hnd Hin; [contradiction|].
  inversion Hnd as [|? ? Hx Hl]; subst.
  destruct Hin as [<-|Hin]; [now rewrite N.eqb_refl|].
  destruct (N.eqb_spec (spot_id x) (spot_id s)) as [E|_]; [|now apply IH].
  exfalso. apply Hx. rewrite E. now apply in_map.
Qed.

(** X29: [getSpots] and [getSpotById] agree.  [getSpots] answers with every
    stored Spot once, in store order; on a store with unique Spot ids, each
    Spot in the answer carries the populated reviews that [getSpotById]
    gives for its id. *)
Theorem getSpots_agrees_with_getSpotById (w : World) :
  spot_ids_unique w ->
  exists spots w',
    getSpots w = (Ok spots, w')
    /\ same_store w w'
    /\ map l_doc spots = spotsC w
    /\ forall l, In l spots ->
         exists loaded w'',
           getSpotById (IdString (spot_id (l_doc l))) w = (Ok loaded, w'')
           /\ l_doc loaded = l_doc l
           /\ l_reviews loaded = l_reviews l.
Proof.
  intros Hids. unfold getSpots. eexists. eexists.
  split; [reflexivity|]. split; [repeat split|].
  split; [apply find_all_hydrated_docs|].
  intros l Hl.
  pose proof (hydrated_tag w (spotsC w) (heap_next w)) as Hh.
  fold (find_all_hydrated w) in Hh. rewrite Forall_forall in Hh.
  destruct (Hh l Hl) as [_ Hrv].
  assert (Hin : In (l_doc l) (spotsC w)).
  { rewrite <- find_all_hydrated_docs. now apply in_map. }
  unfold getSpotById. cbn [id_value].
  rewrite (find_spot_unique w _ Hids Hin).
  eexists. eexists. split; [reflexivity|]. split; [reflexivity|].
  cbn [l_reviews load_spot]. now rewrite Hrv.
Qed.

Lemma getSpots_agrees_with_getSpotById_witness :
  exists spots w',
    getSpots Sample.world = (Ok spots, w')
    /\ map l_doc spots = [Sample.stata; Sample.lobby].
Proof.
  destruct (getSpots_agrees_with_getSpotById Sample.world)
    as (spots & w' & Hrun & _ & Hdocs & _).
  - unfold spot_ids_unique. simpl. repeat constructor; simpl; intuition discriminate.
  - exists spots, w'. split; assumption.
Defined.

(** ** The creator of a Spot and its seed review *)

(** A Spot that [checkSpot] has saved carries the caller as its creator, and
    the caller has a User document. *)
Lemma checkSpot_ok_creator (sv : Services) (title : string) (creatorId : idval)
    (location : Location) (floor : floor_arg) (tag : Tag) (review : Review)
    (createdTag : bool) (w w' : World) (spot : Spot) :
  checkSpot sv title creatorId location floor tag review createdTag w
  = (Ok spot, w') ->
  spot_creator spot = id_value creatorId
  /\ find_user (id_value creatorId) w' <> None.
Proof.
  unfold checkSpot, removeIfInvalid.
  destruct (checkRep title floor);
    [destruct createdTag; discriminate|].
  destruct (Users_updateRep sv creatorId true (bump_oid w)) as [[err|] w1] eqn:Eu.
  { destruct (truthy (http_status err)), createdTag; discriminate. }
  unfold Users_updateRep in Eu.
  destruct (find_user (id_value creatorId) (bump_oid w)) as [u|] eqn:Hu;
    [|discriminate].
  injection Eu as Ew1. subst w1.
  unfold spot_save.
  destruct (Spot_invalid sv _) as [err|].
  { destruct (match code err with Some c => _ | None => _ end), createdTag;
      discriminate. }
  destruct (existsb _ _).
  { cbn [code]. destruct createdTag; discriminate. }
  intros H. injection H as Hspot Hw. subst spot w'.
  split; [reflexivity|].
  unfold find_user in *. cbn [usersC set_spotsC set_usersC bump_oid] in *.
  now rewrite (find_user_adjusted _ _ _ _ Hu).
Qed.

(** X30: the creator of a Spot cannot review it.  After a successful
    [addSpot] on a store whose ids come from the driver's counter, the
    seed review makes the creator an author: [addReviewToSpot] on the new
    Spot with the same [creatorId], an ObjectID or the lower-case hex string
    an ObjectID prints, is answered with Forbidden and none of the four
    collections changes. *)
Theorem addSpot_then_creator_refused (rt : Runtime) (sv : Services)
    (title : string) (creatorId : idval) (location : Location)
    (floor : floor_arg) (label description : string) (rating : num)
    (w w' : World) (spot : Spot) (description' : string) (rating' : num) :
  ids_below w ->
  canonical creatorId ->
  addSpot sv title creatorId location floor label description rating w
  = (Ok spot, w') ->
  review_authors w' spot = [spot_creator spot]
  /\ exists w'',
       addReviewToSpot rt sv (IdString (spot_id spot)) creatorId description'
                       rating' w'
       = (Err (known (MsgText "You already submitted a review for this spot!")
                     (Some FORBIDDEN)), w'')
       /\ same_store w' w''.
Proof.
  intros (Hrevs & _ & Hspots) Hc Hrun.
  destruct (addSpot_ok_inv _ _ _ _ _ _ _ _ _ _ _ Hrun) as [Haccept Htag].
  destruct (addSpot_reaches_checkSpot sv title creatorId location floor label
              description rating w Haccept Htag)
    as (tag & createdTag & w2 & Hrun2 & _ & Hsp & _ & Hrv & _ & Hcase).
  rewrite Hrun2 in Hrun.
  destruct (checkSpot_ok_creator _ _ _ _ _ _ _ _ _ _ _ Hrun) as [Hcreator Huser].
  apply checkSpot_ok_store in Hrun.
  destruct Hrun as (Hid & _ & Hlist & _ & Hs & Hr & _).
  assert (Hnext : (next_oid w < next_oid w2)%N).
  { destruct Hcase as [(_ & _ & _ & Hn)|(_ & _ & _ & _ & Hn)]; rewrite Hn; lia. }
  assert (Hfound : find_spot (id_value (IdString (spot_id spot))) w' = Some spot).
  { unfold find_spot. cbn [id_value]. rewrite Hs, Hsp.
    apply (find_last_fresh spot_id); [|reflexivity].
    eapply Forall_impl; [|exact Hspots]. simpl. intros s [Hlt _]. lia. }
  assert (Hrev : find_review (next_oid w) w'
                 = Some (mkReview (next_oid w) (id_value creatorId) description rating)).
  { unfold find_review. rewrite Hr, Hrv.
    apply (find_last_fresh review_id); [exact Hrevs|reflexivity]. }
  assert (Hauthors : review_authors w' spot = [spot_creator spot]).
  { unfold review_authors. rewrite Hlist. cbn [review_id populate_reviews].
    rewrite Hrev, Hcreator. reflexivity. }
  split; [exact Hauthors|].
  apply (addReviewToSpot_author_again rt sv (IdString (spot_id spot)) creatorId
           description' rating' w' spot Hfound).
  - unfold authors_stored. rewrite Hauthors, Hcreator.
    constructor; [exact Huser|constructor].
  - exact Hc.
  - rewrite Hauthors, Hcreator. now left.
Qed.

Lemma addSpot_then_creator_refused_witness :
  exists spot w' w'',
    addSpot Sample.sv "Dome" (IdString 171) Sample.mit FloorNull "Study" "Airy"
            (Fin 4) Sample.world_users = (Ok spot, w')
    /\ addReviewToSpot Sample.rt Sample.sv (IdString (spot_id spot))
                       (IdString 171) "Again" (Fin 3) w'
       = (Err already_reviewed, w'').
Proof.
  assert (Hids : ids_below Sample.world_users).
  { unfold ids_below. simpl. repeat constructor. }
  eexists. eexists.
  destruct (addSpot_then_creator_refused Sample.rt Sample.sv "Dome" (IdString 171)
              Sample.mit FloorNull "Study" "Airy" (Fin 4) Sample.world_users
              _ _ "Again" (Fin 3) Hids eq_refl eq_refl)
    as (_ & w'' & Hrun & _).
  exists w''. split; [reflexivity|exact Hrun].
Defined.
